(** * Cursor-based pagination of the post feed

    A shallow embedding of [src/cursorBasedPagination.js]: the cursor codec
    ([encodeCursor], [decodeCursor]), the listing route [GET /api/posts]
    and the routes that write ([POST /api/posts],
    [POST /api/posts/:postId/like], [DELETE /api/posts/:postId]), together
    with the parts of the JavaScript runtime, of Mongoose and of the MongoDB
    driver the routes rely on ([parseInt], [Date.prototype.toISOString],
    [new Date(string)], [Buffer] base64, [ObjectId],
    [find().sort().limit()], [findById], [save]).

    Conventions.
    - A JavaScript string is a [string]: the sequence of its UTF-8 bytes,
      a surrogate that stands alone written as a three-byte sequence.
      [codeUnits] gives back its UTF-16 code units, which is what the
      runtime works on where it looks at characters one by one. A [string]
      that is not of this form stands for no JavaScript string; [codeUnits]
      reads a byte of it that begins no sequence as U+FFFD.
    - A JavaScript number that holds an integer is a [Z]; [NaN] is [None].
      The embedding is exact for integers of magnitude at most 2^53; beyond
      that JavaScript rounds to the nearest double, which changes none of the
      comparisons with [0] and [50] made by the route.
    - A [Date] is its time value, the milliseconds since the epoch, a [Z].
    - An [ObjectId] is the 96-bit unsigned integer its twelve bytes spell,
      most significant byte first; the MongoDB order on ObjectIds is the
      order of these integers.
    - A query parameter ([req.query.limit], [req.query.after]) is a string
      or absent. The [userId] of the JSON body of a like or a delete request
      is any JSON value, a [BodyValue]; the fields of the body of a create
      request are strings or absent.
    - The collection is a list of documents; the listing route only reads
      it, a route that writes returns the collection it leaves with its
      answer. The clock and the identifiers the driver generates are
      arguments of the routes that use them. *)

From Stdlib Require Import ZArith List String Ascii Bool Lia Permutation Sorted.
Import ListNotations.
Local Open Scope Z_scope.

(** ** Exceptions *)

(** A computation that may [throw new Error(msg)]. *)
Inductive Result (A : Type) : Type :=
| Ok (a : A)
| Throw (msg : string).
Arguments Ok {A} a.
Arguments Throw {A} msg.

Definition bind {A B : Type} (r : Result A) (k : A -> Result B) : Result B :=
  match r with
  | Ok a => k a
  | Throw msg => Throw msg
  end.

Notation "'let*' x ':=' r 'in' k" := (bind r (fun x => k))
  (at level 10, x pattern, r at level 100, k at level 200).

(** [try { body } catch (error) { handler(error.message) }] *)
Definition tryCatch {A : Type} (body : Result A) (handler : string -> Result A) : Result A :=
  match body with
  | Ok a => Ok a
  | Throw msg => handler msg
  end.

(** ** Characters and positional numerals *)

Definition charCode (c : ascii) : Z := Z.of_N (N_of_ascii c).
Definition fromCharCode (z : Z) : ascii := ascii_of_N (Z.to_N z).

(** The [width] least significant digits of [z] in base [base], most
    significant first. *)
Fixpoint toDigits (base : Z) (width : nat) (z : Z) : list Z :=
  match width with
  | O => []
  | S w => toDigits base w (z / base) ++ [z mod base]
  end.

Definition ofDigits (base : Z) (ds : list Z) : Z :=
  fold_left (fun acc d => acc * base + d) ds 0.

Definition digitChar (d : Z) : ascii := fromCharCode (48 + d).

Definition digitValue (c : ascii) : option Z :=
  let k := charCode c in
  if (48 <=? k) && (k <=? 57) then Some (k - 48) else None.

(** Lower-case hexadecimal digit, as [ObjectId.prototype.toHexString] prints. *)
Definition hexChar (d : Z) : ascii :=
  fromCharCode (if d <? 10 then 48 + d else 87 + d).

(** Hexadecimal digit of either case, as [/^[0-9a-fA-F]{24}$/] accepts. *)
Definition hexValue (c : ascii) : option Z :=
  let k := charCode c in
  if (48 <=? k) && (k <=? 57) then Some (k - 48)
  else if (97 <=? k) && (k <=? 102) then Some (k - 87)
  else if (65 <=? k) && (k <=? 70) then Some (k - 55)
  else None.

Fixpoint stringOf (cs : list ascii) : string :=
  match cs with
  | [] => EmptyString
  | c :: rest => String c (stringOf rest)
  end.

(** [String(z).padStart(width, '0')] for [0 <= z < 10^width]. *)
Definition padDec (width : nat) (z : Z) : string :=
  stringOf (map digitChar (toDigits 10 width z)).

(** Reads exactly [n] decimal digits off the front of [s]. *)
Fixpoint takeDigits (n : nat) (acc : Z) (s : string) : option (Z * string) :=
  match n with
  | O => Some (acc, s)
  | S n' =>
      match s with
      | EmptyString => None
      | String c rest =>
          match digitValue c with
          | Some d => takeDigits n' (acc * 10 + d) rest
          | None => None
          end
      end
  end.

(** Consumes the character [c] off the front of [s]. *)
Definition expect (c : ascii) (s : string) : option string :=
  match s with
  | String c' rest => if Ascii.eqb c' c then Some rest else None
  | EmptyString => None
  end.

(** ** [String.prototype.split] with a one-character separator *)

Fixpoint split (sep : ascii) (s : string) : list string :=
  match s with
  | EmptyString => [EmptyString]
  | String c rest =>
      if Ascii.eqb c sep then EmptyString :: split sep rest
      else match split sep rest with
           | seg :: segs => String c seg :: segs
           | [] => [String c EmptyString]
           end
  end.

(** ** The UTF-16 code units of a string *)

(** The six bits a UTF-8 continuation byte [10xxxxxx] carries. *)
Definition continuationBits (c : ascii) : option Z :=
  let k := charCode c in
  if (128 <=? k) && (k <? 192) then Some (k - 128) else None.

(** The code units of one code point: itself, or a surrogate pair beyond
    U+FFFF. *)
Definition utf16 (codePoint : Z) : list Z :=
  if codePoint <? 65536 then [codePoint]
  else [55296 + (codePoint - 65536) / 1024; 56320 + (codePoint - 65536) mod 1024].

(** U+FFFD. *)
Definition replacementChar : Z := 65533.

(** The code units of the string whose UTF-8 bytes are [s]: a byte below
    128 is its own code unit, a lead byte [C2..DF], [E0..EF] or [F0..F4]
    takes one, two or three continuation bytes with it when they spell a
    code point in the shortest way. *)
Fixpoint codeUnits (s : string) : list Z :=
  match s with
  | EmptyString => []
  | String a r1 =>
      let k := charCode a in
      if k <? 128 then k :: codeUnits r1
      else
        let stray := replacementChar :: codeUnits r1 in
        match r1 with
        | String b r2 =>
            match continuationBits b with
            | Some x =>
                if (194 <=? k) && (k <? 224) then ((k - 192) * 64 + x) :: codeUnits r2
                else
                  match r2 with
                  | String c r3 =>
                      match continuationBits c with
                      | Some y =>
                          if (224 <=? k) && (k <? 240) then
                            let codePoint := ((k - 224) * 64 + x) * 64 + y in
                            if 2048 <=? codePoint then codePoint :: codeUnits r3 else stray
                          else
                            match r3 with
                            | String d r4 =>
                                match continuationBits d with
                                | Some z =>
                                    let codePoint :=
                                      (((k - 240) * 64 + x) * 64 + y) * 64 + z in
                                    if (240 <=? k) && (65536 <=? codePoint)
                                       && (codePoint <? 1114112)
                                    then utf16 codePoint ++ codeUnits r4
                                    else stray
                                | None => stray
                                end
                            | EmptyString => stray
                            end
                      | None => stray
                      end
                  | EmptyString => stray
                  end
            | None => stray
            end
        | EmptyString => stray
        end
  end.

(** ** [Buffer]: base64 *)

(** The base64 alphabet [A-Za-z0-9+/]. *)
Definition b64Char (k : Z) : ascii :=
  fromCharCode (if k <? 26 then 65 + k
                else if k <? 52 then 71 + k
                else if k <? 62 then k - 4
                else if k =? 62 then 43 else 47).

(** Node's decoder also accepts the URL-safe alphabet ([-] and [_]). *)
Definition b64Value (c : ascii) : option Z :=
  let k := charCode c in
  if (65 <=? k) && (k <=? 90) then Some (k - 65)
  else if (97 <=? k) && (k <=? 122) then Some (k - 71)
  else if (48 <=? k) && (k <=? 57) then Some (k + 4)
  else if (k =? 43) || (k =? 45) then Some 62
  else if (k =? 47) || (k =? 95) then Some 63
  else None.

(** [Buffer.from(s).toString('base64')]: every three bytes, read as one
    24-bit number, are written as four base-64 digits; a final group of one
    or two bytes is shifted to a multiple of six bits and padded with [=]. *)
Fixpoint base64Encode (s : string) : string :=
  match s with
  | EmptyString => EmptyString
  | String a EmptyString =>
      stringOf (map b64Char (toDigits 64 2 (charCode a * 16))) ++ "=="
  | String a (String b EmptyString) =>
      stringOf (map b64Char (toDigits 64 3 ((charCode a * 256 + charCode b) * 4))) ++ "="
  | String a (String b (String c rest)) =>
      stringOf (map b64Char
                  (toDigits 64 4 (charCode a * 65536 + charCode b * 256 + charCode c)))
      ++ base64Encode rest
  end%string.

(** The six-bit values of a base64 text, given by its code units. Node's
    decoder looks at the low eight bits of each code unit only
    ([static_cast<uint8_t>]), so that U+0141 reads as [A]. It is forgiving:
    it skips every character outside the alphabet and stops at the first
    [=]. *)
Fixpoint base64Sextets (units : list Z) : list Z :=
  match units with
  | [] => []
  | u :: rest =>
      let c := fromCharCode (u mod 256) in
      if Ascii.eqb c "="%char then []
      else match b64Value c with
           | Some k => k :: base64Sextets rest
           | None => base64Sextets rest
           end
  end.

Fixpoint bytesOfSextets (ks : list Z) : string :=
  match ks with
  | a :: b :: c :: d :: rest =>
      stringOf (map fromCharCode (toDigits 256 3 (ofDigits 64 [a; b; c; d])))
      ++ bytesOfSextets rest
  | [a; b; c] => stringOf (map fromCharCode (toDigits 256 2 (ofDigits 64 [a; b; c] / 4)))
  | [a; b] => stringOf (map fromCharCode (toDigits 256 1 (ofDigits 64 [a; b] / 16)))
  | _ => EmptyString
  end%string.

(** [Buffer.from(s, 'base64').toString('utf-8')]; it never throws. *)
Definition base64Decode (s : string) : string :=
  bytesOfSextets (base64Sextets (codeUnits s)).

(** ** [Date] *)

Definition msPerDay : Z := 86400000.
Definition maxTimeValue : Z := 8640000000000000.

(** A [Date] whose time value is not [NaN]. *)
Definition validDate (t : Z) : Prop := - maxTimeValue <= t <= maxTimeValue.
Definition validDateb (t : Z) : bool := (- maxTimeValue <=? t) && (t <=? maxTimeValue).

(** Year, month (1..12) and day of the month of the day number [z] in the
    proleptic Gregorian calendar (ECMA-262 YearFromTime, MonthFromTime,
    DateFromTime), computed over 400-year eras that start on 1 March. *)
Definition civilFromDays (z : Z) : Z * Z * Z :=
  let z := z + 719468 in
  let era := z / 146097 in
  let doe := z - era * 146097 in
  let yoe := (doe - doe / 1460 + doe / 36524 - doe / 146096) / 365 in
  let y := yoe + era * 400 in
  let doy := doe - (365 * yoe + yoe / 4 - yoe / 100) in
  let mp := (5 * doy + 2) / 153 in
  let d := doy - (153 * mp + 2) / 5 + 1 in
  let m := if mp <? 10 then mp + 3 else mp - 9 in
  (if m <=? 2 then y + 1 else y, m, d).

(** ECMA-262 MakeDay: the day number of year [y], month [m] (1..12), day [d]. *)
Definition daysFromCivil (y m d : Z) : Z :=
  let y := if m <=? 2 then y - 1 else y in
  let era := y / 400 in
  let yoe := y - era * 400 in
  let doy := (153 * (if 2 <? m then m - 3 else m + 9) + 2) / 5 + d - 1 in
  let doe := yoe * 365 + yoe / 4 - yoe / 100 + doy in
  era * 146097 + doe - 719468.

(** The year of an ISO string: four digits, or a sign and six digits outside
    0..9999. *)
Definition isoYear (y : Z) : string :=
  if (0 <=? y) && (y <=? 9999) then padDec 4 y
  else String (if y <? 0 then "-"%char else "+"%char) (padDec 6 (Z.abs y)).

(** [Date.prototype.toISOString]: [YYYY-MM-DDTHH:mm:ss.sssZ]; throws a
    RangeError on an invalid date. *)
Definition toISOString (t : Z) : Result string :=
  if validDateb t then
    let '(y, m, d) := civilFromDays (t / msPerDay) in
    let tod := t mod msPerDay in
    Ok (isoYear y ++ "-" ++ padDec 2 m ++ "-" ++ padDec 2 d ++ "T"
        ++ padDec 2 (tod / 3600000) ++ ":" ++ padDec 2 (tod / 60000 mod 60) ++ ":"
        ++ padDec 2 (tod / 1000 mod 60) ++ "." ++ padDec 3 (tod mod 1000) ++ "Z")%string
  else Throw "Invalid time value".

Definition guard (b : bool) : option unit := if b then Some tt else None.

Notation "'let?' x ':=' r 'in' k" :=
  (match r with Some x => k | None => None end)
  (at level 10, x pattern, r at level 100, k at level 200).

(** The year of an ISO string, and what follows it. [-000000] is not a year. *)
Definition parseIsoYear (s : string) : option (Z * string) :=
  match s with
  | String "+" rest => takeDigits 6 0 rest
  | String "-" rest =>
      let? (y, rest') := takeDigits 6 0 rest in
      if y =? 0 then None else Some (- y, rest')
  | _ => takeDigits 4 0 s
  end.

(** The complete UTC date-time form of the ECMA-262 date-time string format,
    [YYYY-MM-DDTHH:mm:ss.sssZ] with a four-digit or an expanded year, which
    is what [toISOString] prints. The day of the month is checked against
    1..31 only and carries into the next month, as V8 does. *)
Definition parseIsoDateTime (s : string) : option Z :=
  let? (y, s) := parseIsoYear s in
  let? s := expect "-" s in
  let? (m, s) := takeDigits 2 0 s in
  let? s := expect "-" s in
  let? (d, s) := takeDigits 2 0 s in
  let? s := expect "T" s in
  let? (h, s) := takeDigits 2 0 s in
  let? s := expect ":" s in
  let? (mi, s) := takeDigits 2 0 s in
  let? s := expect ":" s in
  let? (sec, s) := takeDigits 2 0 s in
  let? s := expect "." s in
  let? (ms, s) := takeDigits 3 0 s in
  let? s := expect "Z" s in
  match s with
  | EmptyString =>
      let? _ := guard ((1 <=? m) && (m <=? 12) && (1 <=? d) && (d <=? 31)
                       && (h <=? 23) && (mi <=? 59) && (sec <=? 59)) in
      let t := daysFromCivil y m d * msPerDay + h * 3600000 + mi * 60000 + sec * 1000 + ms in
      if validDateb t then Some t else None
  | _ => None
  end.

(** ** [ObjectId] *)

Definition validObjectId (i : Z) : Prop := 0 <= i < 2 ^ 96.

(** [ObjectId.prototype.toString]: 24 lower-case hexadecimal digits. *)
Definition toHexString (i : Z) : string :=
  stringOf (map hexChar (toDigits 16 24 i)).

Fixpoint hexValues (s : string) : option (list Z) :=
  match s with
  | EmptyString => Some []
  | String c rest =>
      let? d := hexValue c in
      let? ds := hexValues rest in
      Some (d :: ds)
  end.

(** The ObjectId a string of exactly 24 hexadecimal digits spells. *)
Definition objectIdFromHex (s : string) : option Z :=
  if (String.length s =? 24)%nat then
    let? ds := hexValues s in Some (ofDigits 16 ds)
  else None.

(** ** [parseInt] *)

(** The white space [parseInt] skips (ECMA-262 StrWhiteSpaceChar): the
    controls U+0009 to U+000D, the space, the no-break space U+00A0, the
    other space separators of Unicode (U+1680, U+2000 to U+200A, U+202F,
    U+205F, U+3000), the line and paragraph separators U+2028 and U+2029,
    and the byte order mark U+FEFF. *)
Definition isWhiteSpace (u : Z) : bool :=
  ((9 <=? u) && (u <=? 13)) || (u =? 32) || (u =? 160) || (u =? 5760)
  || ((8192 <=? u) && (u <=? 8202)) || (u =? 8232) || (u =? 8233) || (u =? 8239)
  || (u =? 8287) || (u =? 12288) || (u =? 65279).

Fixpoint trimStart (units : list Z) : list Z :=
  match units with
  | u :: rest => if isWhiteSpace u then trimStart rest else units
  | [] => []
  end.

(** The code unit [u] is the character [c]. *)
Definition isChar (c : ascii) (u : Z) : bool := u =? charCode c.

(** The value of the code unit [u] as a digit of the radix. *)
Definition digitOf (radix : Z) (u : Z) : option Z :=
  if u <? 128 then
    if radix =? 16 then hexValue (fromCharCode u) else digitValue (fromCharCode u)
  else None.

(** The value of the longest prefix of [units] made of digits of the radix;
    [acc] is [None] until a digit has been read. *)
Fixpoint digitsPrefix (radix : Z) (acc : option Z) (units : list Z) : option Z :=
  match units with
  | u :: rest =>
      match digitOf radix u with
      | Some d =>
          digitsPrefix radix
            (Some (match acc with Some a => a * radix + d | None => d end)) rest
      | None => acc
      end
  | [] => acc
  end.

(** [parseInt(s)] without a radix argument: leading white space, an optional
    sign, an optional [0x] prefix, then digits up to the first character
    that is not one; [NaN] when there is no digit. *)
Definition parseInt (s : string) : option Z :=
  let units := trimStart (codeUnits s) in
  let '(sign, units) :=
    match units with
    | u :: rest =>
        if isChar "-" u then (-1, rest)
        else if isChar "+" u then (1, rest)
        else (1, units)
    | [] => (1, units)
    end in
  let '(radix, units) :=
    match units with
    | u :: v :: rest =>
        if isChar "0" u && (isChar "x" v || isChar "X" v) then (16, rest) else (10, units)
    | _ => (10, units)
    end in
  option_map (Z.mul sign) (digitsPrefix radix None units).

(** [String(v)] of a query parameter that may be [undefined]. *)
Definition toString (v : option string) : string :=
  match v with
  | Some s => s
  | None => "undefined"
  end.

(** [x || d] on numbers: [NaN] and [0] are falsy. *)
Definition orElse (x : option Z) (d : Z) : Z :=
  match x with
  | None => d
  | Some 0 => d
  | Some n => n
  end.

(** ** Data model (models/Post.js) *)

Module User.
Record t := { id : Z; username : string; displayName : string; avatar : option string }.
End User.

Module Likes.
Record t := { count : Z; userIds : list Z }.
End Likes.

Module Post.
Record t := {
  _id : Z;
  content : string;
  user : User.t;
  likes : Likes.t;
  createdAt : Z;
  updatedAt : Z;
  isDeleted : bool
}.
End Post.

(** ** The shapes the route sends *)

Module PublicLikes.
Record t := { count : Z }.
End PublicLikes.

Module PublicPost.
Record t := {
  id : Z;
  content : string;
  user : User.t;
  likes : PublicLikes.t;
  createdAt : Z
}.
End PublicPost.

Module Pagination.
Record t := { nextCursor : option string; hasMore : bool; limit : Z; count : Z }.
End Pagination.

Module Page.
Record t := { posts : list PublicPost.t; pagination : Pagination.t }.
End Page.

Inductive Body : Type :=
| PageBody (page : Page.t)
| ErrorBody (error message : string).

Module Response.
Record t := { status : Z; body : Body }.
End Response.

(** [req.query] *)
Module Req.
Record t := { limit : option string; after : option string }.
End Req.

(** ** MongoDB queries *)

(** A field condition: a value to equal, or [{ $lt: value }]. *)
Inductive Cond : Type :=
| CondEq (v : Z)
| CondLt (v : Z).

(** One alternative of [$or]: conditions on [createdAt] and [_id]. *)
Module Clause.
Record t := { createdAt : option Cond; _id : option Cond }.
End Clause.

(** The query object: [{ isDeleted, $or }], [$or] possibly absent. *)
Module Filter.
Record t := { isDeleted : bool; or_ : option (list Clause.t) }.
End Filter.

Inductive SortField : Type := By_createdAt | By__id.

(** The arguments of [Post.find(filter).sort(sort).limit(limit)]. *)
Module FindCall.
Record t := { filter : Filter.t; sort : list (SortField * Z); limit : Z }.
End FindCall.

Definition condHolds (c : option Cond) (v : Z) : bool :=
  match c with
  | None => true
  | Some (CondEq x) => v =? x
  | Some (CondLt x) => v <? x
  end.

Definition clauseMatches (cl : Clause.t) (p : Post.t) : bool :=
  condHolds (Clause.createdAt cl) (Post.createdAt p)
  && condHolds (Clause._id cl) (Post._id p).

Definition matches (q : Filter.t) (p : Post.t) : bool :=
  Bool.eqb (Post.isDeleted p) (Filter.isDeleted q)
  && match Filter.or_ q with
     | None => true
     | Some clauses => existsb (fun cl => clauseMatches cl p) clauses
     end.

Definition fieldValue (f : SortField) (p : Post.t) : Z :=
  match f with
  | By_createdAt => Post.createdAt p
  | By__id => Post._id p
  end.

(** [p] is not after [q] under the sort specification (direction [-1] is
    descending). *)
Fixpoint precedes (spec : list (SortField * Z)) (p q : Post.t) : bool :=
  match spec with
  | [] => true
  | (f, dir) :: rest =>
      let a := fieldValue f p in
      let b := fieldValue f q in
      if a =? b then precedes rest p q
      else if dir <? 0 then b <? a else a <? b
  end.

Fixpoint insert (leb : Post.t -> Post.t -> bool) (x : Post.t) (l : list Post.t) : list Post.t :=
  match l with
  | [] => [x]
  | y :: ys => if leb x y then x :: y :: ys else y :: insert leb x ys
  end.

Definition sortBy (leb : Post.t -> Post.t -> bool) (l : list Post.t) : list Post.t :=
  fold_right (insert leb) [] l.

(** [{ createdAt: -1, _id: -1 }] *)
Definition feedOrder : list (SortField * Z) := [(By_createdAt, -1); (By__id, -1)].

(** [cursor.limit(n)]: [0] is no limit, a negative [n] is the limit [-n]. *)
Definition applyLimit (n : Z) (l : list Post.t) : list Post.t :=
  if n =? 0 then l else firstn (Z.to_nat (Z.abs n)) l.

(** The documents [Post.find(filter).sort(sort).limit(limit)] returns on the
    collection [db] (lines 115-118). *)
Definition runFind (db : list Post.t) (call : FindCall.t) : list Post.t :=
  applyLimit (FindCall.limit call)
    (sortBy (precedes (FindCall.sort call))
       (filter (matches (FindCall.filter call)) db)).

(** ** The route *)

(** The object [decodeCursor] returns: [{ createdAt: date, id }]. *)
Module Cursor.
Record t := { createdAt : Z; id : string }.
End Cursor.

(** What the route did: the queries it issued and the response it sent. *)
Module Outcome.
Record t := { queries : list FindCall.t; response : Response.t }.
End Outcome.

(** [Array.prototype.slice(0, -1)] *)
Definition sliceButLast (l : list Post.t) : list Post.t := removelast l.

(** The projection of a stored post sent to the client (lines 132-146);
    [likes.userIds], [updatedAt] and [isDeleted] are left out. *)
Definition transform (post : Post.t) : PublicPost.t :=
  {| PublicPost.id := Post._id post;
     PublicPost.content := Post.content post;
     PublicPost.user :=
       {| User.id := User.id (Post.user post);
          User.username := User.username (Post.user post);
          User.displayName := User.displayName (Post.user post);
          User.avatar := User.avatar (Post.user post) |};
     PublicPost.likes := {| PublicLikes.count := Likes.count (Post.likes post) |};
     PublicPost.createdAt := Post.createdAt post |}.

(** [encodeCursor] (lines 56-59); [`${id}`] is the hexadecimal text of the
    ObjectId. *)
Definition encodeCursor (createdAt : Z) (id : Z) : Result string :=
  let* iso := toISOString createdAt in
  let cursor := (iso ++ "|" ++ toHexString id)%string in
  Ok (base64Encode cursor).

(** [Math.min(parseInt(req.query.limit) || 10, 50)] (line 88) *)
Definition effectiveLimit (limit : option string) : Z :=
  Z.min (orElse (parseInt (toString limit)) 10) 50.

(** [nextCursor] (lines 125-129): the encoded position of the last retained
    post when there is more and the page is not empty, [null] otherwise. *)
Definition makeNextCursor (hasMore : bool) (slicedPosts : list Post.t) : Result (option string) :=
  if hasMore && (0 <? Z.of_nat (List.length slicedPosts)) then
    match nth_error slicedPosts (List.length slicedPosts - 1) with
    | Some lastPost =>
        let* c := encodeCursor (Post.createdAt lastPost) (Post._id lastPost) in
        Ok (Some c)
    | None => Throw "Cannot read properties of undefined"
    end
  else Ok None.

(** What the route sends once the query has returned [posts] (lines
    121-156); an exception raised on the way is answered with the status
    500 (lines 158-164). *)
Definition respond (limit : Z) (posts : list Post.t) : Response.t :=
  let hasMore := Z.of_nat (List.length posts) >? limit in
  let slicedPosts := if hasMore then sliceButLast posts else posts in
  match makeNextCursor hasMore slicedPosts with
  | Ok nextCursor =>
      let transformedPosts := map transform slicedPosts in
      {| Response.status := 200;
         Response.body :=
           PageBody
             {| Page.posts := transformedPosts;
                Page.pagination :=
                  {| Pagination.nextCursor := nextCursor;
                     Pagination.hasMore := hasMore;
                     Pagination.limit := limit;
                     Pagination.count := Z.of_nat (List.length transformedPosts) |} |} |}
  | Throw _ =>
      {| Response.status := 500;
         Response.body := ErrorBody "Internal server error" "Failed to fetch posts" |}
  end.

(** ** Notions used to state the properties *)

(** Every element is a digit of the base. *)
Definition digitsBelow (base : Z) (ds : list Z) : Prop :=
  Forall (fun d => 0 <= d < base) ds.

(** Every character of the string satisfies [p]. *)
Fixpoint allChars (p : ascii -> bool) (s : string) : bool :=
  match s with
  | EmptyString => true
  | String c rest => p c && allChars p rest
  end.

Definition notSep (sep c : ascii) : bool := negb (Ascii.eqb c sep).

(** The last element of a list, if any. *)
Definition lastOf {A : Type} (l : list A) : option A :=
  nth_error l (List.length l - 1).

(** The spec's position predicate: strictly after the position [(c, i)]. *)
Definition afterCursor (c i : Z) (p : Post.t) : bool :=
  (Post.createdAt p <? c) || ((Post.createdAt p =? c) && (Post._id p <? i)).

Definition notDeleted (p : Post.t) : bool := negb (Post.isDeleted p).

(** The sort key of a post. *)
Definition sortKey (p : Post.t) : Z * Z := (Post.createdAt p, Post._id p).

(** The [$or] alternatives built for the position [(c, i)]. *)
Definition positionClauses (c i : Z) : list Clause.t :=
  [ {| Clause.createdAt := Some (CondLt c); Clause._id := None |};
    {| Clause.createdAt := Some (CondEq c); Clause._id := Some (CondLt i) |} ].

(** The live documents in feed order: what the route pages through. *)
Definition feed (db : list Post.t) : list Post.t :=
  sortBy (precedes feedOrder) (filter notDeleted db).

(** The post with its set of liker ids emptied. *)
Definition withoutLikers (p : Post.t) : Post.t :=
  {| Post._id := Post._id p;
     Post.content := Post.content p;
     Post.user := Post.user p;
     Post.likes := {| Likes.count := Likes.count (Post.likes p); Likes.userIds := [] |};
     Post.createdAt := Post.createdAt p;
     Post.updatedAt := Post.updatedAt p;
     Post.isDeleted := Post.isDeleted p |}.

(** ** Sample data *)

(** A runtime with no legacy date formats and no legacy identifiers. *)
Definition noLegacy (s : string) : option Z := None.

Definition samplePost (id createdAt : Z) (likers : list Z) : Post.t :=
  {| Post._id := id;
     Post.content := "hello";
     Post.user := {| User.id := 7; User.username := "ada"; User.displayName := "Ada";
                     User.avatar := None |};
     Post.likes := {| Likes.count := Z.of_nat (List.length likers); Likes.userIds := likers |};
     Post.createdAt := createdAt;
     Post.updatedAt := createdAt;
     Post.isDeleted := false |}.

(** [n] posts created one second apart, listed oldest first. *)
Definition sampleFeed (n : nat) : list Post.t :=
  map (fun k => samplePost (1000 + Z.of_nat k) (1700000000000 + 1000 * Z.of_nat k) [])
      (seq 0 n).

(** Three posts created at the same instant. *)
Definition sampleTies : list Post.t :=
  [ samplePost 2 1700000000000 []; samplePost 3 1700000000000 [];
    samplePost 1 1700000000000 [] ].

(** The cursor of the position [(2023-11-14T22:13:20.000Z, 3)]. *)
Definition sampleCursor : string :=
  "MjAyMy0xMS0xNFQyMjoxMzoyMC4wMDBafDAwMDAwMDAwMDAwMDAwMDAwMDAwMDAwMw==".

(** [sampleCursor] with U+014D, whose low byte is the code of [M], in the
    place of its first letter. *)
Definition sampleCursorWide : string :=
  String (fromCharCode 197) (String (fromCharCode 141)
    "jAyMy0xMS0xNFQyMjoxMzoyMC4wMDBafDAwMDAwMDAwMDAwMDAwMDAwMDAwMDAwMw==").

(** U+00A0, the no-break space, in UTF-8. *)
Definition noBreakSpace : string :=
  String (fromCharCode 194) (String (fromCharCode 160) EmptyString).

(** ** The routes that write: shapes and storage *)

(** The bodies the create, like and delete routes send. *)
Inductive ReplyBody : Type :=
| CreatedBody (id : Z) (content : string) (user : User.t) (likes : Likes.t) (createdAt : Z)
| LikedBody (liked : bool) (likesCount : Z)
| MessageBody (message : string)
| FailureBody (error : string)
| MissingBody (error : string) (required : list string).

Module Reply.
Record t := { status : Z; body : ReplyBody }.
End Reply.

(** [req.body] of [POST /api/posts]; each field is a string or absent. *)
Module NewPost.
Record t := {
  content : option string;
  userId : option string;
  username : option string;
  displayName : option string;
  avatar : option string
}.
End NewPost.

(** [!v] on a string that may be [undefined]. *)
Definition falsy (v : option string) : bool :=
  match v with
  | Some (String _ _) => false
  | _ => true
  end.

(** The string [v] is when it is not falsy. *)
Definition text (v : option string) : string :=
  match v with
  | Some s => s
  | None => EmptyString
  end.

(** A field of the JSON body of a like or a delete request, as far as [!v]
    and the ObjectId constructor tell values apart: absent or [null]; a
    string; a number, zero or not; a boolean; an object or an array, with
    the ObjectId the constructor of the installed driver makes of it,
    [None] when it throws. *)
Inductive BodyValue : Type :=
| Nothing
| Text (s : string)
| Number (nonZero : bool)
| Boolean (b : bool)
| Structure (read : option Z).

(** [!v] on a field of the body. *)
Definition isFalsy (v : BodyValue) : bool :=
  match v with
  | Nothing => true
  | Text EmptyString => true
  | Text (String _ _) => false
  | Number nonZero => negb nonZero
  | Boolean b => negb b
  | Structure _ => false
  end.

(** [Post.findById(id)]: the document with that [_id], or [null]. *)
Definition findById (db : list Post.t) (id : Z) : option Post.t :=
  find (fun p => Post._id p =? id) db.

(** [post.save()] of a document read from the collection: the stored
    document with its [_id] is replaced. *)
Fixpoint save (post : Post.t) (db : list Post.t) : list Post.t :=
  match db with
  | [] => []
  | p :: rest =>
      if Post._id p =? Post._id post then post :: rest else p :: save post rest
  end.

(** The document after the like route changed its likes; the timestamps
    option sets [updatedAt] when it is saved at the instant [now]. *)
Definition withLikes (post : Post.t) (likes : Likes.t) (now : Z) : Post.t :=
  {| Post._id := Post._id post;
     Post.content := Post.content post;
     Post.user := Post.user post;
     Post.likes := likes;
     Post.createdAt := Post.createdAt post;
     Post.updatedAt := now;
     Post.isDeleted := Post.isDeleted post |}.

(** The document after [post.isDeleted = true], saved at the instant [now]. *)
Definition markDeleted (post : Post.t) (now : Z) : Post.t :=
  {| Post._id := Post._id post;
     Post.content := Post.content post;
     Post.user := Post.user post;
     Post.likes := Post.likes post;
     Post.createdAt := Post.createdAt post;
     Post.updatedAt := now;
     Post.isDeleted := true |}.

(** The likes of a post once [userObjectId] toggled its like (lines
    222-233). *)
Definition toggleLike (likes : Likes.t) (userObjectId : Z) : Likes.t :=
  let hasLiked := existsb (fun id => id =? userObjectId) (Likes.userIds likes) in
  if hasLiked then
    {| Likes.count := Z.max 0 (Likes.count likes - 1);
       Likes.userIds := filter (fun id => negb (id =? userObjectId)) (Likes.userIds likes) |}
  else
    {| Likes.count := Likes.count likes + 1;
       Likes.userIds := Likes.userIds likes ++ [userObjectId] |}.

(** The like count of a post is the number of its likers, each listed once. *)
Definition likesConsistent (p : Post.t) : Prop :=
  Likes.count (Post.likes p) = Z.of_nat (List.length (Likes.userIds (Post.likes p)))
  /\ NoDup (Likes.userIds (Post.likes p)).

(** A page with the like counts blanked: what of a page does not depend
    on the likes. *)
Definition blankLikes (post : PublicPost.t) : PublicPost.t :=
  {| PublicPost.id := PublicPost.id post;
     PublicPost.content := PublicPost.content post;
     PublicPost.user := PublicPost.user post;
     PublicPost.likes := {| PublicLikes.count := 0 |};
     PublicPost.createdAt := PublicPost.createdAt post |}.

Definition blankResponse (r : Response.t) : Response.t :=
  match Response.body r with
  | PageBody page =>
      {| Response.status := Response.status r;
         Response.body :=
           PageBody {| Page.posts := map blankLikes (Page.posts page);
                       Page.pagination := Page.pagination page |} |}
  | ErrorBody _ _ => r
  end.

(** The post with its likes and [updatedAt] blanked: what the like route
    never changes. *)
Definition withoutLikes (p : Post.t) : Post.t :=
  {| Post._id := Post._id p;
     Post.content := Post.content p;
     Post.user := Post.user p;
     Post.likes := {| Likes.count := 0; Likes.userIds := [] |};
     Post.createdAt := Post.createdAt p;
     Post.updatedAt := 0;
     Post.isDeleted := Post.isDeleted p |}.

(** The collection without the documents of the given [_id]. *)
Definition without (id : Z) (db : list Post.t) : list Post.t :=
  filter (fun p => negb (Post._id p =? id)) db.

(** The body of a request to create a post, sent by the author of the
    sample posts. *)
Definition sampleNewPost : NewPost.t :=
  {| NewPost.content := Some "hi"%string;
     NewPost.userId := Some (toHexString 7);
     NewPost.username := Some "ada"%string;
     NewPost.displayName := Some "Ada"%string;
     NewPost.avatar := None |}.

(** Two live posts around a deleted one; the first has two likers. *)
Definition sampleStore : list Post.t :=
  [ samplePost 1 1700000000000 [5; 6];
    markDeleted (samplePost 2 1700000001000 [5]) 1700000001500;
    samplePost 3 1700000002000 [] ].

Section Runtime.

(** What [new Date(s)] makes of a string that is not in the complete ISO
    form: V8 falls back to its own legacy formats there. The time value, or
    [None] for an invalid date. *)
Variable parseLegacyDate : string -> option Z.

(** What the ObjectId constructor makes of a string that is not 24
    hexadecimal digits: nothing in the current driver, an identifier for a
    12-character string in older ones. *)
Variable legacyObjectId : string -> option Z.

(** [new Date(s).getTime()], [None] for [NaN]. *)
Definition newDate (s : string) : option Z :=
  match parseIsoDateTime s with
  | Some t => Some t
  | None => parseLegacyDate s
  end.

(** [new mongoose.Types.ObjectId(s)] *)
Definition newObjectId (s : string) : Result Z :=
  match objectIdFromHex s with
  | Some i => Ok i
  | None =>
      match legacyObjectId s with
      | Some i => Ok i
      | None => Throw "input must be a 24 character hex string, 12 byte Uint8Array, or an integer"
      end
  end.

(** [mongoose.Types.ObjectId.isValid(s)] *)
Definition isValid (s : string) : bool :=
  match newObjectId s with
  | Ok _ => true
  | Throw _ => false
  end.

(** [decodeCursor] (lines 61-83): whatever is thrown inside the [try] is
    rethrown as "Malformed cursor". *)
Definition decodeCursor (cursor : string) : Result Cursor.t :=
  tryCatch
    (let decoded := base64Decode cursor in
     let parts := split "|" decoded in
     match nth_error parts 0, nth_error parts 1 with
     | Some (String _ _ as createdAt), Some (String _ _ as id) =>
         match newDate createdAt with
         | None => Throw "Invalid date in cursor"
         | Some date =>
             if isValid id
             then Ok {| Cursor.createdAt := date; Cursor.id := id |}
             else Throw "Invalid ObjectId in cursor"
         end
     | _, _ => Throw "Invalid cursor format"
     end)
    (fun _ => Throw "Malformed cursor").

(** The [$or] alternatives the route adds for a cursor (lines 96-105). *)
Definition cursorClauses (cursor : string) : Result (list Clause.t) :=
  let* c := decodeCursor cursor in
  let* oid := newObjectId (Cursor.id c) in
  Ok [ {| Clause.createdAt := Some (CondLt (Cursor.createdAt c)); Clause._id := None |};
       {| Clause.createdAt := Some (CondEq (Cursor.createdAt c));
          Clause._id := Some (CondLt oid) |} ].

(** The query object the route builds (lines 91-112), or the message of the
    error caught while reading the cursor. An empty [after] is falsy and is
    not decoded. *)
Definition buildQuery (cursor : option string) : string + Filter.t :=
  match cursor with
  | Some (String _ _ as cursor) =>
      match cursorClauses cursor with
      | Ok clauses => inr {| Filter.isDeleted := false; Filter.or_ := Some clauses |}
      | Throw message => inl message
      end
  | _ => inr {| Filter.isDeleted := false; Filter.or_ := None |}
  end.

(** [app.get('/api/posts', ...)] (lines 86-165) on the collection [db]. *)
Definition getPosts (db : list Post.t) (req : Req.t) : Outcome.t :=
  let limit := effectiveLimit (Req.limit req) in
  let cursor := Req.after req in
  match buildQuery cursor with
  | inl message =>
      {| Outcome.queries := [];
         Outcome.response :=
           {| Response.status := 400;
              Response.body := ErrorBody "Invalid cursor" message |} |}
  | inr query =>
      let call :=
        {| FindCall.filter := query;
           FindCall.sort := feedOrder;
           FindCall.limit := limit + 1 |} in
      let posts := runFind db call in
      {| Outcome.queries := [call]; Outcome.response := respond limit posts |}
  end.

(** [app.post('/api/posts', ...)] (lines 168-205) on the collection [db].
    [contentAccepted] is what the schema's validators make of the content
    of a new post ([maxLength: 280], counted in UTF-16 code units where the
    installed Mongoose applies it); [now] is the clock when the document is
    built and saved, [generated] the [_id] the driver generates for it. A failed
    validation, a [userId] that is no ObjectId and an [_id] already stored
    all reject [save()], which the route answers with 500. *)
Definition createPost (contentAccepted : string -> bool) (now generated : Z)
           (db : list Post.t) (body : NewPost.t) : list Post.t * Reply.t :=
  if falsy (NewPost.content body) || falsy (NewPost.userId body)
     || falsy (NewPost.username body) || falsy (NewPost.displayName body)
  then
    (db, {| Reply.status := 400;
            Reply.body := MissingBody "Missing required fields"
                            ["content"; "userId"; "username"; "displayName"]%string |})
  else
    let attempt :=
      let* userId := newObjectId (text (NewPost.userId body)) in
      let post :=
        {| Post._id := generated;
           Post.content := text (NewPost.content body);
           Post.user :=
             {| User.id := userId;
                User.username := text (NewPost.username body);
                User.displayName := text (NewPost.displayName body);
                User.avatar := NewPost.avatar body |};
           Post.likes := {| Likes.count := 0; Likes.userIds := [] |};
           Post.createdAt := now;
           Post.updatedAt := now;
           Post.isDeleted := false |} in
      if negb (contentAccepted (Post.content post)) then Throw "Post validation failed"
      else if existsb (fun p => Post._id p =? generated) db
      then Throw "E11000 duplicate key error"
      else
        Ok (db ++ [post],
            {| Reply.status := 201;
               Reply.body :=
                 CreatedBody (Post._id post) (Post.content post) (Post.user post)
                             (Post.likes post) (Post.createdAt post) |}) in
    match attempt with
    | Ok result => result
    | Throw _ =>
        (db, {| Reply.status := 500; Reply.body := FailureBody "Failed to create post" |})
    end.

(** [new mongoose.Types.ObjectId(v)] on a field of the body. Without a
    value and for a number the constructor generates an identifier, which
    is [generated]: another one at each call. It throws for a boolean. *)
Definition constructObjectId (generated : Z) (v : BodyValue) : Result Z :=
  match v with
  | Nothing => Ok generated
  | Number _ => Ok generated
  | Text s => newObjectId s
  | Boolean _ => Throw "Argument passed in must be a string of 24 hex characters"
  | Structure (Some id) => Ok id
  | Structure None => Throw "Argument passed in must be a string of 24 hex characters"
  end.

(** [app.post('/api/posts/:postId/like', ...)] (lines 208-246) on the
    collection [db]; [now] is the clock when the post is saved, [generated]
    the identifier the ObjectId constructor generates when [userId] is a
    number. [Post.findById] casts [postId] with the ObjectId constructor and
    rejects when it throws. *)
Definition likePost (now generated : Z) (db : list Post.t) (postId : string)
           (userId : BodyValue) : list Post.t * Reply.t :=
  if isFalsy userId then
    (db, {| Reply.status := 400; Reply.body := FailureBody "userId is required" |})
  else
    let attempt :=
      let* id := newObjectId postId in
      match findById db id with
      | Some post =>
          if Post.isDeleted post then
            Ok (db, {| Reply.status := 404; Reply.body := FailureBody "Post not found" |})
          else
            let* userObjectId := constructObjectId generated userId in
            let hasLiked :=
              existsb (fun id => id =? userObjectId) (Likes.userIds (Post.likes post)) in
            let likes := toggleLike (Post.likes post) userObjectId in
            Ok (save (withLikes post likes now) db,
                {| Reply.status := 200;
                   Reply.body := LikedBody (negb hasLiked) (Likes.count likes) |})
      | None =>
          Ok (db, {| Reply.status := 404; Reply.body := FailureBody "Post not found" |})
      end in
    match attempt with
    | Ok result => result
    | Throw _ =>
        (db, {| Reply.status := 500; Reply.body := FailureBody "Failed to update like" |})
    end.

(** [app.delete('/api/posts/:postId', ...)] (lines 249-273) on the
    collection [db]; [generated] is the identifier the ObjectId constructor
    generates when [userId] is absent or a number. *)
Definition deletePost (now generated : Z) (db : list Post.t) (postId : string)
           (userId : BodyValue) : list Post.t * Reply.t :=
  let attempt :=
    let* id := newObjectId postId in
    match findById db id with
    | Some post =>
        if Post.isDeleted post then
          Ok (db, {| Reply.status := 404; Reply.body := FailureBody "Post not found" |})
        else
          let* requester := constructObjectId generated userId in
          if negb (User.id (Post.user post) =? requester) then
            Ok (db, {| Reply.status := 403;
                       Reply.body := FailureBody "Not authorized to delete this post" |})
          else
            Ok (save (markDeleted post now) db,
                {| Reply.status := 200;
                   Reply.body := MessageBody "Post deleted successfully" |})
    | None =>
        Ok (db, {| Reply.status := 404; Reply.body := FailureBody "Post not found" |})
    end in
  match attempt with
  | Ok result => result
  | Throw _ =>
      (db, {| Reply.status := 500; Reply.body := FailureBody "Failed to delete post" |})
  end.

(** A client that reads the whole feed from the route: it asks for a page,
    and as long as the page carries a [nextCursor] it asks again with it as
    [after]. [fuel] bounds the number of requests. The result is the posts
    of the pages put end to end, or [None] when a request is not answered
    with a page or the fuel runs out. *)
Fixpoint readFeed (fuel : nat) (db : list Post.t) (limit after : option string)
  : option (list PublicPost.t) :=
  match fuel with
  | O => None
  | S fuel =>
      match Response.body
              (Outcome.response (getPosts db {| Req.limit := limit; Req.after := after |})) with
      | PageBody page =>
          match Pagination.nextCursor (Page.pagination page) with
          | Some cursor =>
              option_map (app (Page.posts page)) (readFeed fuel db limit (Some cursor))
          | None => Some (Page.posts page)
          end
      | ErrorBody _ _ => None
      end
  end.

(** * Facts about the runtime model *)

(** ** Characters and numerals *)

Lemma charCode_range (c : ascii) : 0 <= charCode c < 256.
Proof.
  unfold charCode. pose proof (N_ascii_bounded c) as H. lia.
Qed.

Lemma charCode_fromCharCode (z : Z) : 0 <= z < 256 -> charCode (fromCharCode z) = z.
Proof.
  intros H. unfold charCode, fromCharCode.
  rewrite N_ascii_embedding by lia. lia.
Qed.

Lemma fromCharCode_charCode (c : ascii) : fromCharCode (charCode c) = c.
Proof.
  unfold charCode, fromCharCode. rewrite N2Z.id. apply ascii_N_embedding.
Qed.

Lemma charCode_inj (c c' : ascii) : charCode c = charCode c' -> c = c'.
Proof.
  intros H. rewrite <- (fromCharCode_charCode c), <- (fromCharCode_charCode c').
  now rewrite H.
Qed.

Lemma toDigits_length (base : Z) (w : nat) (z : Z) : List.length (toDigits base w z) = w.
Proof.
  revert z. induction w as [|w IH]; intros z; simpl; [reflexivity|].
  rewrite length_app, IH. simpl. lia.
Qed.

Lemma toDigits_below (base : Z) (w : nat) (z : Z) :
  0 < base -> digitsBelow base (toDigits base w z).
Proof.
  intros Hb. revert z. induction w as [|w IH]; intros z; simpl.
  - constructor.
  - apply Forall_app. split; [apply IH|].
    constructor; [|constructor]. apply Z.mod_pos_bound. exact Hb.
Qed.

Lemma ofDigits_snoc (base : Z) (ds : list Z) (d : Z) :
  ofDigits base (ds ++ [d]) = ofDigits base ds * base + d.
Proof.
  unfold ofDigits. rewrite fold_left_app. reflexivity.
Qed.

Lemma ofDigits_toDigits_mod (base : Z) (w : nat) (z : Z) :
  0 < base -> ofDigits base (toDigits base w z) = z mod base ^ Z.of_nat w.
Proof.
  intros Hb. revert z. induction w as [|w IH]; intros z.
  - simpl. now rewrite Z.mod_1_r.
  - cbn [toDigits]. rewrite ofDigits_snoc, IH.
    rewrite Nat2Z.inj_succ, Z.pow_succ_r by lia.
    rewrite Z.rem_mul_r by (try apply Z.pow_nonzero; lia || (apply Z.pow_pos_nonneg; lia)).
    ring.
Qed.

Lemma ofDigits_toDigits (base : Z) (w : nat) (z : Z) :
  0 < base -> 0 <= z < base ^ Z.of_nat w ->
  ofDigits base (toDigits base w z) = z.
Proof.
  intros Hb Hz. rewrite ofDigits_toDigits_mod by exact Hb.
  now apply Z.mod_small.
Qed.

Lemma digitValue_digitChar (d : Z) : 0 <= d < 10 -> digitValue (digitChar d) = Some d.
Proof.
  intros H. unfold digitValue, digitChar.
  rewrite charCode_fromCharCode by lia.
  replace ((48 <=? 48 + d) && (48 + d <=? 57)) with true
    by (symmetry; apply andb_true_iff; split; apply Z.leb_le; lia).
  f_equal. lia.
Qed.

Lemma hexValue_hexChar (d : Z) : 0 <= d < 16 -> hexValue (hexChar d) = Some d.
Proof.
  intros H. unfold hexValue, hexChar.
  destruct (d <? 10) eqn:E.
  - apply Z.ltb_lt in E. rewrite charCode_fromCharCode by lia.
    replace ((48 <=? 48 + d) && (48 + d <=? 57)) with true
      by (symmetry; apply andb_true_iff; split; apply Z.leb_le; lia).
    f_equal. lia.
  - apply Z.ltb_ge in E. rewrite charCode_fromCharCode by lia.
    replace ((48 <=? 87 + d) && (87 + d <=? 57)) with false
      by (symmetry; apply andb_false_iff; right; apply Z.leb_gt; lia).
    replace ((97 <=? 87 + d) && (87 + d <=? 102)) with true
      by (symmetry; apply andb_true_iff; split; apply Z.leb_le; lia).
    f_equal. lia.
Qed.

(** Settles the integer comparisons of the goal that [lia] can decide. *)
Ltac settle_comparisons :=
  repeat match goal with
         | |- context [?a <=? ?b] =>
             first [ rewrite (proj2 (Z.leb_le a b)) by lia
                   | rewrite (proj2 (Z.leb_gt a b)) by lia ]
         | |- context [?a <? ?b] =>
             first [ rewrite (proj2 (Z.ltb_lt a b)) by lia
                   | rewrite (proj2 (Z.ltb_ge a b)) by lia ]
         | |- context [?a =? ?b] =>
             first [ rewrite (proj2 (Z.eqb_eq a b)) by lia
                   | rewrite (proj2 (Z.eqb_neq a b)) by lia ]
         end;
  cbn [andb orb negb].

Lemma b64Value_b64Char (k : Z) : 0 <= k < 64 -> b64Value (b64Char k) = Some k.
Proof.
  intros H. unfold b64Value, b64Char.
  assert (C : k < 26 \/ 26 <= k < 52 \/ 52 <= k < 62 \/ k = 62 \/ k = 63) by lia.
  destruct C as [C|[C|[C|[C|C]]]]; settle_comparisons;
    rewrite charCode_fromCharCode by lia; settle_comparisons; f_equal; lia.
Qed.

Lemma b64Char_not_pad (k : Z) : 0 <= k < 64 -> Ascii.eqb (b64Char k) "=" = false.
Proof.
  intros H. apply Ascii.eqb_neq. intros E.
  apply (f_equal charCode) in E. change (charCode "=") with 61 in E.
  unfold b64Char in E.
  assert (C : k < 26 \/ 26 <= k < 52 \/ 52 <= k < 62 \/ k = 62 \/ k = 63) by lia.
  destruct C as [C|[C|[C|[C|C]]]]; revert E; settle_comparisons;
    rewrite charCode_fromCharCode by lia; lia.
Qed.

(** ** Strings *)

Lemma stringOf_app (l1 l2 : list ascii) :
  stringOf (l1 ++ l2) = (stringOf l1 ++ stringOf l2)%string.
Proof.
  induction l1 as [|c l1 IH]; simpl; [reflexivity|]. now rewrite IH.
Qed.

Lemma append_assoc (a b c : string) : ((a ++ b) ++ c = a ++ (b ++ c))%string.
Proof.
  induction a as [|x a IH]; simpl; [reflexivity|]. now rewrite IH.
Qed.

Lemma append_empty_r (a : string) : (a ++ EmptyString)%string = a.
Proof.
  induction a as [|x a IH]; simpl; [reflexivity|]. now rewrite IH.
Qed.

Lemma takeDigits_digits (ds : list Z) (acc : Z) (rest : string) :
  digitsBelow 10 ds ->
  takeDigits (List.length ds) acc (stringOf (map digitChar ds) ++ rest)
  = Some (fold_left (fun a d => a * 10 + d) ds acc, rest).
Proof.
  intros H. revert acc. induction H as [|d ds Hd _ IH]; intros acc.
  - reflexivity.
  - cbn [List.length map stringOf append takeDigits fold_left].
    rewrite digitValue_digitChar by exact Hd. apply IH.
Qed.

Lemma takeDigits_padDec (w : nat) (z : Z) (rest : string) :
  0 <= z < 10 ^ Z.of_nat w ->
  takeDigits w 0 (padDec w z ++ rest) = Some (z, rest).
Proof.
  intros Hz. unfold padDec.
  pose proof (takeDigits_digits (toDigits 10 w z) 0 rest
                (toDigits_below 10 w z ltac:(lia))) as H.
  rewrite toDigits_length in H. rewrite H.
  change (fold_left (fun a d => a * 10 + d) (toDigits 10 w z) 0)
    with (ofDigits 10 (toDigits 10 w z)).
  now rewrite ofDigits_toDigits by (lia || assumption).
Qed.

Lemma allChars_app (p : ascii -> bool) (a b : string) :
  allChars p (a ++ b) = allChars p a && allChars p b.
Proof.
  induction a as [|c a IH]; simpl; [reflexivity|].
  now rewrite IH, andb_assoc.
Qed.

Lemma allChars_stringOf_map (p : ascii -> bool) (f : Z -> ascii) (base : Z) (ds : list Z) :
  (forall d, 0 <= d < base -> p (f d) = true) ->
  digitsBelow base ds ->
  allChars p (stringOf (map f ds)) = true.
Proof.
  intros Hp H. induction H as [|d ds Hd _ IH]; simpl; [reflexivity|].
  now rewrite Hp, IH.
Qed.

Lemma split_no_sep (sep : ascii) (s : string) :
  allChars (notSep sep) s = true -> split sep s = [s].
Proof.
  induction s as [|c s IH]; simpl; [reflexivity|].
  intros H. apply andb_true_iff in H. destruct H as [Hc Hs].
  unfold notSep in Hc. apply negb_true_iff in Hc. rewrite Hc.
  now rewrite IH.
Qed.

Lemma split_two (sep : ascii) (a b : string) :
  allChars (notSep sep) a = true -> allChars (notSep sep) b = true ->
  split sep (a ++ String sep b) = [a; b].
Proof.
  intros Ha Hb. induction a as [|c a IH]; simpl.
  - rewrite Ascii.eqb_refl. now rewrite split_no_sep.
  - simpl in Ha. apply andb_true_iff in Ha. destruct Ha as [Hc Ha].
    unfold notSep in Hc. apply negb_true_iff in Hc. rewrite Hc.
    now rewrite IH.
Qed.

Lemma notSep_code (sep : ascii) (e : Z) :
  0 <= e < 256 -> e <> charCode sep -> notSep sep (fromCharCode e) = true.
Proof.
  intros He Hne. unfold notSep. apply negb_true_iff, Ascii.eqb_neq.
  intros E. apply Hne. rewrite <- E. now rewrite charCode_fromCharCode.
Qed.

Lemma digitChar_notSep (d : Z) : 0 <= d < 10 -> notSep "|" (digitChar d) = true.
Proof.
  intros H. apply notSep_code; [lia|]. change (charCode "|") with 124. lia.
Qed.

Lemma hexChar_notSep (d : Z) : 0 <= d < 16 -> notSep "|" (hexChar d) = true.
Proof.
  intros H. unfold hexChar.
  destruct (d <? 10) eqn:E; [apply Z.ltb_lt in E | apply Z.ltb_ge in E];
    (apply notSep_code; [lia|]); change (charCode "|") with 124; lia.
Qed.

Lemma padDec_notSep (w : nat) (z : Z) : allChars (notSep "|") (padDec w z) = true.
Proof.
  unfold padDec. apply allChars_stringOf_map with (base := 10).
  - exact digitChar_notSep.
  - apply toDigits_below. lia.
Qed.

Lemma toHexString_notSep (i : Z) : allChars (notSep "|") (toHexString i) = true.
Proof.
  unfold toHexString. apply allChars_stringOf_map with (base := 16).
  - exact hexChar_notSep.
  - apply toDigits_below. lia.
Qed.

(** ** Base64 *)

Lemma string_ind3 (P : string -> Prop) :
  P EmptyString ->
  (forall a, P (String a EmptyString)) ->
  (forall a b, P (String a (String b EmptyString))) ->
  (forall a b c rest, P rest -> P (String a (String b (String c rest)))) ->
  forall s, P s.
Proof.
  intros H0 H1 H2 H3.
  assert (H : forall s,
             P s /\ (forall a, P (String a s)) /\ (forall a b, P (String a (String b s)))).
  { induction s as [|c s [IH0 [IH1 IH2]]].
    - auto.
    - repeat split; auto. }
  intros s. apply H.
Qed.

(** A byte below 128 is a code unit of its own. *)
Lemma codeUnits_ascii (c : ascii) (s : string) :
  charCode c < 128 -> codeUnits (String c s) = charCode c :: codeUnits s.
Proof.
  intros H. apply Z.ltb_lt in H. cbn [codeUnits]. now rewrite H.
Qed.

Lemma b64Char_ascii (k : Z) : 0 <= k < 64 -> charCode (b64Char k) < 128.
Proof.
  intros H. unfold b64Char.
  assert (C : k < 26 \/ 26 <= k < 52 \/ 52 <= k < 62 \/ k = 62 \/ k = 63) by lia.
  destruct C as [C|[C|[C|[C|C]]]]; settle_comparisons;
    rewrite charCode_fromCharCode by lia; lia.
Qed.

Lemma base64Sextets_chars (ks : list Z) (rest : string) :
  digitsBelow 64 ks ->
  base64Sextets (codeUnits (stringOf (map b64Char ks) ++ rest))
  = ks ++ base64Sextets (codeUnits rest).
Proof.
  intros H. induction H as [|k ks Hk _ IH]; [reflexivity|].
  cbn [map stringOf append].
  pose proof (b64Char_ascii k Hk) as Hlow. pose proof (charCode_range (b64Char k)) as Hr.
  rewrite codeUnits_ascii by exact Hlow. cbn [base64Sextets].
  rewrite Z.mod_small by lia. rewrite fromCharCode_charCode.
  rewrite b64Char_not_pad, b64Value_b64Char by exact Hk.
  now rewrite IH.
Qed.

Lemma base64Sextets_pad (s : string) : base64Sextets (codeUnits (String "=" s)) = [].
Proof.
  rewrite codeUnits_ascii by (vm_compute; reflexivity). reflexivity.
Qed.

(** Four, three or two base-64 digits are a list of that many elements. *)
Lemma toDigits_cons (base : Z) (w : nat) (z : Z) :
  exists d ds, toDigits base (S w) z = d :: ds /\ List.length ds = w.
Proof.
  pose proof (toDigits_length base (S w) z) as H.
  destruct (toDigits base (S w) z) as [|d ds]; [discriminate|].
  exists d, ds. split; [reflexivity|]. simpl in H. lia.
Qed.

Lemma bytesOfSextets_group (n : Z) (rest : list Z) :
  0 <= n < 64 ^ 4 ->
  bytesOfSextets (toDigits 64 4 n ++ rest)
  = (stringOf (map fromCharCode (toDigits 256 3 n)) ++ bytesOfSextets rest)%string.
Proof.
  intros Hn.
  pose proof (ofDigits_toDigits 64 4 n ltac:(lia) Hn) as E.
  pose proof (toDigits_length 64 4 n) as L.
  destruct (toDigits 64 4 n) as [|d3 [|d2 [|d1 [|d0 [|? ?]]]]]; try discriminate L.
  cbn [app bytesOfSextets]. now rewrite E.
Qed.

Lemma bytesOfSextets_tail3 (n : Z) :
  0 <= n < 64 ^ 3 ->
  bytesOfSextets (toDigits 64 3 n) = stringOf (map fromCharCode (toDigits 256 2 (n / 4))).
Proof.
  intros Hn.
  pose proof (ofDigits_toDigits 64 3 n ltac:(lia) Hn) as E.
  pose proof (toDigits_length 64 3 n) as L.
  destruct (toDigits 64 3 n) as [|d2 [|d1 [|d0 [|? ?]]]]; try discriminate L.
  cbn [bytesOfSextets]. now rewrite E.
Qed.

Lemma bytesOfSextets_tail2 (n : Z) :
  0 <= n < 64 ^ 2 ->
  bytesOfSextets (toDigits 64 2 n) = stringOf (map fromCharCode (toDigits 256 1 (n / 16))).
Proof.
  intros Hn.
  pose proof (ofDigits_toDigits 64 2 n ltac:(lia) Hn) as E.
  pose proof (toDigits_length 64 2 n) as L.
  destruct (toDigits 64 2 n) as [|d1 [|d0 [|? ?]]]; try discriminate L.
  cbn [bytesOfSextets]. now rewrite E.
Qed.

Lemma fromCharCode_eq (z : Z) (c : ascii) : z = charCode c -> fromCharCode z = c.
Proof.
  intros ->. apply fromCharCode_charCode.
Qed.

Lemma base64_roundtrip (s : string) : base64Decode (base64Encode s) = s.
Proof.
  unfold base64Decode. induction s as [| a | a b | a b c rest IH] using string_ind3.
  - reflexivity.
  - pose proof (charCode_range a) as Ha.
    cbn [base64Encode]. rewrite base64Sextets_chars by (apply toDigits_below; lia).
    rewrite base64Sextets_pad, app_nil_r.
    rewrite bytesOfSextets_tail2 by lia.
    cbn [toDigits app map stringOf].
    f_equal. apply fromCharCode_eq. Z.div_mod_to_equations; lia.
  - pose proof (charCode_range a) as Ha. pose proof (charCode_range b) as Hb.
    cbn [base64Encode]. rewrite base64Sextets_chars by (apply toDigits_below; lia).
    rewrite base64Sextets_pad, app_nil_r.
    rewrite bytesOfSextets_tail3 by lia.
    cbn [toDigits app map stringOf].
    f_equal; [|f_equal]; apply fromCharCode_eq; Z.div_mod_to_equations; lia.
  - pose proof (charCode_range a) as Ha. pose proof (charCode_range b) as Hb.
    pose proof (charCode_range c) as Hc.
    cbn [base64Encode]. rewrite base64Sextets_chars by (apply toDigits_below; lia).
    rewrite bytesOfSextets_group by lia.
    cbn [toDigits app map stringOf append].
    rewrite IH.
    f_equal; [|f_equal; [|f_equal]]; apply fromCharCode_eq; Z.div_mod_to_equations; lia.
Qed.

(** ** Dates *)

Lemma Ok_inj {A : Type} (a b : A) : Ok a = Ok b -> a = b.
Proof.
  congruence.
Qed.

Lemma validDateb_spec (t : Z) : validDateb t = true <-> validDate t.
Proof.
  unfold validDateb, validDate. rewrite andb_true_iff, !Z.leb_le. tauto.
Qed.

Lemma daysFromCivil_civilFromDays (z : Z) :
  let '(y, m, d) := civilFromDays z in daysFromCivil y m d = z.
Proof.
  unfold civilFromDays, daysFromCivil.
  set (z' := z + 719468).
  set (era := z' / 146097).
  set (doe := z' - era * 146097).
  set (yoe := (doe - doe / 1460 + doe / 36524 - doe / 146096) / 365).
  set (doy := doe - (365 * yoe + yoe / 4 - yoe / 100)).
  set (mp := (5 * doy + 2) / 153).
  assert (Hdoe : 0 <= doe <= 146096) by (subst doe era; Z.div_mod_to_equations; lia).
  assert (Hyoe : 0 <= yoe <= 399 /\ 0 <= doy <= 365)
    by (subst doy yoe; Z.div_mod_to_equations; lia).
  destruct Hyoe as [Hyoe Hdoy].
  assert (Hmp : 0 <= mp <= 11) by (subst mp; Z.div_mod_to_equations; lia).
  assert (Hera : (yoe + era * 400) / 400 = era) by (Z.div_mod_to_equations; lia).
  destruct (mp <? 10) eqn:E; [apply Z.ltb_lt in E | apply Z.ltb_ge in E].
  - replace (mp + 3 <=? 2) with false by (symmetry; apply Z.leb_gt; lia).
    replace (2 <? mp + 3) with true by (symmetry; apply Z.ltb_lt; lia).
    rewrite Hera. replace (mp + 3 - 3) with mp by lia.
    replace (yoe + era * 400 - era * 400) with yoe by lia.
    subst doy z' doe. lia.
  - replace (mp - 9 <=? 2) with true by (symmetry; apply Z.leb_le; lia).
    replace (2 <? mp - 9) with false by (symmetry; apply Z.ltb_ge; lia).
    replace (yoe + era * 400 + 1 - 1) with (yoe + era * 400) by lia.
    rewrite Hera. replace (mp - 9 + 9) with mp by lia.
    replace (yoe + era * 400 - era * 400) with yoe by lia.
    subst doy z' doe. lia.
Qed.

Lemma civilFromDays_range (z : Z) :
  - 100000000 <= z <= 100000000 ->
  let '(y, m, d) := civilFromDays z in
  - 272000 <= y <= 276000 /\ 1 <= m <= 12 /\ 1 <= d <= 31.
Proof.
  intros Hz. unfold civilFromDays.
  set (z' := z + 719468).
  set (era := z' / 146097).
  set (doe := z' - era * 146097).
  set (yoe := (doe - doe / 1460 + doe / 36524 - doe / 146096) / 365).
  set (doy := doe - (365 * yoe + yoe / 4 - yoe / 100)).
  set (mp := (5 * doy + 2) / 153).
  assert (Hdoe : 0 <= doe <= 146096) by (subst doe era; Z.div_mod_to_equations; lia).
  assert (Hyoe : 0 <= yoe <= 399 /\ 0 <= doy <= 365)
    by (subst doy yoe; Z.div_mod_to_equations; lia).
  destruct Hyoe as [Hyoe Hdoy].
  assert (Hmp : 0 <= mp <= 11) by (subst mp; Z.div_mod_to_equations; lia).
  assert (Hd : 1 <= doy - (153 * mp + 2) / 5 + 1 <= 31)
    by (subst mp; Z.div_mod_to_equations; lia).
  assert (Hera : - 680 <= era <= 689) by (subst era z'; Z.div_mod_to_equations; lia).
  destruct (mp <? 10) eqn:E; [apply Z.ltb_lt in E | apply Z.ltb_ge in E].
  - replace (mp + 3 <=? 2) with false by (symmetry; apply Z.leb_gt; lia).
    repeat split; lia.
  - replace (mp - 9 <=? 2) with true by (symmetry; apply Z.leb_le; lia).
    repeat split; lia.
Qed.

Lemma timeOfDay_fields (t : Z) :
  let tod := t mod msPerDay in
  0 <= tod / 3600000 <= 23 /\ 0 <= tod / 60000 mod 60 <= 59
  /\ 0 <= tod / 1000 mod 60 <= 59 /\ 0 <= tod mod 1000 <= 999
  /\ t / msPerDay * msPerDay + tod / 3600000 * 3600000 + tod / 60000 mod 60 * 60000
     + tod / 1000 mod 60 * 1000 + tod mod 1000 = t.
Proof.
  unfold msPerDay. cbv zeta. Z.div_mod_to_equations. lia.
Qed.

Lemma parseIsoYear_digit (d : Z) (s : string) :
  0 <= d < 10 ->
  parseIsoYear (String (digitChar d) s) = takeDigits 4 0 (String (digitChar d) s).
Proof.
  intros H.
  assert (C : d = 0 \/ d = 1 \/ d = 2 \/ d = 3 \/ d = 4 \/ d = 5 \/ d = 6 \/ d = 7
              \/ d = 8 \/ d = 9) by lia.
  repeat (destruct C as [->|C]; [reflexivity|]). subst d. reflexivity.
Qed.

Lemma parseIsoYear_isoYear (y : Z) (rest : string) :
  - 999999 <= y <= 999999 ->
  parseIsoYear (isoYear y ++ rest) = Some (y, rest).
Proof.
  intros Hy. unfold isoYear.
  destruct ((0 <=? y) && (y <=? 9999)) eqn:E.
  - apply andb_true_iff in E. destruct E as [E1 E2].
    apply Z.leb_le in E1. apply Z.leb_le in E2.
    destruct (toDigits_cons 10 3 y) as (d & ds & Hd & _).
    pose proof (toDigits_below 10 4 y ltac:(lia)) as Hb. rewrite Hd in Hb.
    assert (Hd0 : 0 <= d < 10) by (inversion Hb; assumption).
    pose proof (takeDigits_padDec 4 y rest ltac:(lia)) as T.
    unfold padDec in *. rewrite Hd in *. cbn [map stringOf append] in *.
    now rewrite parseIsoYear_digit.
  - assert (Hy' : y < 0 \/ 9999 < y).
    { apply andb_false_iff in E. destruct E as [E|E]; apply Z.leb_gt in E; lia. }
    destruct (y <? 0) eqn:S; [apply Z.ltb_lt in S | apply Z.ltb_ge in S];
      cbn [append parseIsoYear]; rewrite takeDigits_padDec by lia.
    + replace (Z.abs y =? 0) with false by (symmetry; apply Z.eqb_neq; lia).
      f_equal. f_equal. lia.
    + f_equal. f_equal. lia.
Qed.

Lemma toISOString_valid (t : Z) :
  validDate t -> exists iso, toISOString t = Ok iso.
Proof.
  intros H. unfold toISOString. rewrite (proj2 (validDateb_spec t) H).
  destruct (civilFromDays (t / msPerDay)) as [[y m] d]. eauto.
Qed.

#[local] Opaque padDec isoYear.

(** [new Date(date.toISOString())] is [date]: the ISO form is read back to
    the time value it was printed from. *)
Lemma parseIsoDateTime_toISOString (t : Z) (iso : string) :
  toISOString t = Ok iso -> parseIsoDateTime iso = Some t.
Proof.
  unfold toISOString. destruct (validDateb t) eqn:V; [|discriminate].
  pose proof (proj1 (validDateb_spec t) V) as Hv. unfold validDate, maxTimeValue in Hv.
  assert (Hday : - 100000000 <= t / msPerDay <= 100000000)
    by (unfold msPerDay; Z.div_mod_to_equations; lia).
  pose proof (civilFromDays_range _ Hday) as R.
  pose proof (daysFromCivil_civilFromDays (t / msPerDay)) as D.
  destruct (civilFromDays (t / msPerDay)) as [[y m] d].
  destruct R as (Ry & Rm & Rd).
  pose proof (timeOfDay_fields t) as F. cbv zeta in F.
  set (tod := t mod msPerDay) in *.
  destruct F as (Fh & Fmi & Fs & Fms & Ft).
  intros E. injection E as <-.
  unfold parseIsoDateTime.
  rewrite parseIsoYear_isoYear by lia.
  cbn [append expect Ascii.eqb Bool.eqb andb].
  rewrite takeDigits_padDec by lia. cbn [append expect Ascii.eqb Bool.eqb andb].
  rewrite takeDigits_padDec by lia. cbn [append expect Ascii.eqb Bool.eqb andb].
  rewrite takeDigits_padDec by lia. cbn [append expect Ascii.eqb Bool.eqb andb].
  rewrite takeDigits_padDec by lia. cbn [append expect Ascii.eqb Bool.eqb andb].
  rewrite takeDigits_padDec by lia. cbn [append expect Ascii.eqb Bool.eqb andb].
  rewrite <- (append_empty_r (padDec 3 (tod mod 1000) ++ "Z")), append_assoc.
  rewrite takeDigits_padDec by lia. cbn [append expect Ascii.eqb Bool.eqb andb].
  replace ((1 <=? m) && (m <=? 12) && (1 <=? d) && (d <=? 31)
           && (tod / 3600000 <=? 23) && (tod / 60000 mod 60 <=? 59)
           && (tod / 1000 mod 60 <=? 59)) with true
    by (symmetry; repeat (apply andb_true_iff; split); apply Z.leb_le; lia).
  cbn [guard]. rewrite D.
  replace (t / msPerDay * msPerDay + tod / 3600000 * 3600000 + tod / 60000 mod 60 * 60000
           + tod / 1000 mod 60 * 1000 + tod mod 1000) with t by lia.
  now rewrite V.
Qed.

#[local] Transparent padDec isoYear.

Lemma toISOString_shape (t : Z) (iso : string) :
  toISOString t = Ok iso ->
  allChars (notSep "|") iso = true /\ exists c rest, iso = String c rest.
Proof.
  unfold toISOString. destruct (validDateb t); [|discriminate].
  destruct (civilFromDays (t / msPerDay)) as [[y m] d].
  intros E. apply Ok_inj in E. subst iso. split.
  - repeat first [rewrite allChars_app | progress cbn [allChars]].
    rewrite !padDec_notSep. cbn [allChars notSep Ascii.eqb Bool.eqb negb andb].
    rewrite !andb_true_r. unfold isoYear.
    destruct ((0 <=? y) && (y <=? 9999)); [apply padDec_notSep|].
    cbn [allChars]. rewrite padDec_notSep.
    now destruct (y <? 0).
  - unfold isoYear. destruct ((0 <=? y) && (y <=? 9999)).
    + destruct (toDigits_cons 10 3 y) as (d0 & ds & Hd & _).
      unfold padDec at 1. rewrite Hd. cbn [map stringOf append]. eauto.
    + cbn [append]. eauto.
Qed.

(** ** ObjectIds *)

Lemma length_stringOf (cs : list ascii) : String.length (stringOf cs) = List.length cs.
Proof.
  induction cs as [|c cs IH]; simpl; congruence.
Qed.

Lemma hexValues_hexChars (ds : list Z) :
  digitsBelow 16 ds -> hexValues (stringOf (map hexChar ds)) = Some ds.
Proof.
  intros H. induction H as [|d ds Hd _ IH]; [reflexivity|].
  cbn [map stringOf hexValues]. now rewrite hexValue_hexChar, IH.
Qed.

Lemma objectIdFromHex_toHexString (i : Z) :
  validObjectId i -> objectIdFromHex (toHexString i) = Some i.
Proof.
  intros H. unfold objectIdFromHex, toHexString.
  rewrite length_stringOf, length_map, toDigits_length. cbn [Nat.eqb].
  rewrite hexValues_hexChars by (apply toDigits_below; lia).
  rewrite ofDigits_toDigits; [reflexivity | lia |].
  unfold validObjectId in H. change (16 ^ Z.of_nat 24) with (2 ^ 96). exact H.
Qed.

Lemma toHexString_nonempty (i : Z) : exists c rest, toHexString i = String c rest.
Proof.
  unfold toHexString. destruct (toDigits_cons 16 23 i) as (d & ds & -> & _).
  cbn [map stringOf]. eauto.
Qed.

Lemma base64Encode_nonempty (c : ascii) (s : string) :
  exists c' rest, base64Encode (String c s) = String c' rest.
Proof.
  destruct s as [|c2 [|c3 r]]; cbn [base64Encode].
  - destruct (toDigits_cons 64 1 (charCode c * 16)) as (d & ds & -> & _).
    cbn [map stringOf append]. eauto.
  - destruct (toDigits_cons 64 2 ((charCode c * 256 + charCode c2) * 4)) as (d & ds & -> & _).
    cbn [map stringOf append]. eauto.
  - destruct (toDigits_cons 64 3 (charCode c * 65536 + charCode c2 * 256 + charCode c3))
      as (d & ds & -> & _).
    cbn [map stringOf append]. eauto.
Qed.

(** ** The cursor codec *)

Lemma newObjectId_toHexString (i : Z) :
  validObjectId i -> newObjectId (toHexString i) = Ok i.
Proof.
  intros H. unfold newObjectId. now rewrite objectIdFromHex_toHexString.
Qed.

Lemma isValid_newObjectId (s : string) :
  isValid s = true -> exists i, newObjectId s = Ok i.
Proof.
  unfold isValid. destruct (newObjectId s) as [i|]; [eauto|discriminate].
Qed.

Lemma encodeCursor_valid (createdAt id : Z) :
  validDate createdAt -> exists token, encodeCursor createdAt id = Ok token.
Proof.
  intros H. unfold encodeCursor.
  destruct (toISOString_valid createdAt H) as [iso ->]. cbn [bind]. eauto.
Qed.

Lemma decodeCursor_encodeCursor (createdAt id : Z) (token : string) :
  validObjectId id ->
  encodeCursor createdAt id = Ok token ->
  decodeCursor token = Ok {| Cursor.createdAt := createdAt; Cursor.id := toHexString id |}.
Proof.
  intros Hid. unfold encodeCursor.
  destruct (toISOString createdAt) as [iso|] eqn:Eiso; [|discriminate].
  cbn [bind]. intros E. apply Ok_inj in E. subst token.
  destruct (toISOString_shape _ _ Eiso) as [Hsep (c & rest & Hiso)].
  pose proof (parseIsoDateTime_toISOString _ _ Eiso) as Hdate.
  pose proof (newObjectId_toHexString id Hid) as Hnew.
  pose proof (toHexString_notSep id) as Hsep'.
  destruct (toHexString_nonempty id) as (c' & rest' & Hhex).
  unfold decodeCursor. rewrite base64_roundtrip.
  change ("|" ++ toHexString id)%string with (String "|" (toHexString id)).
  rewrite split_two by assumption.
  rewrite Hhex in *. subst iso. cbn [nth_error].
  unfold newDate. rewrite Hdate.
  unfold isValid. rewrite Hnew.
  reflexivity.
Qed.


Lemma encodeCursor_nonempty (createdAt id : Z) (token : string) :
  encodeCursor createdAt id = Ok token -> exists c rest, token = String c rest.
Proof.
  unfold encodeCursor.
  destruct (toISOString createdAt) as [iso|] eqn:Eiso; [|discriminate].
  cbn [bind]. intros E. apply Ok_inj in E. subst token.
  destruct (toISOString_shape _ _ Eiso) as [_ (c & rest & ->)].
  cbn [append]. apply base64Encode_nonempty.
Qed.

(** ** Sorting *)

Section SortFacts.

Variable leb : Post.t -> Post.t -> bool.
Hypothesis leb_total : forall x y, leb x y = true \/ leb y x = true.
Hypothesis leb_trans : forall x y z, leb x y = true -> leb y z = true -> leb x z = true.

Lemma insert_perm (x : Post.t) (l : list Post.t) : Permutation (insert leb x l) (x :: l).
Proof.
  induction l as [|y ys IH]; simpl; [reflexivity|].
  destruct (leb x y); [reflexivity|].
  rewrite IH. apply perm_swap.
Qed.

Lemma sortBy_perm (l : list Post.t) : Permutation (sortBy leb l) l.
Proof.
  induction l as [|x l IH]; simpl; [reflexivity|].
  rewrite insert_perm. now constructor.
Qed.

Lemma sortBy_length (l : list Post.t) : List.length (sortBy leb l) = List.length l.
Proof.
  apply Permutation_length, sortBy_perm.
Qed.

Lemma insert_sorted (x : Post.t) (l : list Post.t) :
  StronglySorted (fun a b => leb a b = true) l ->
  StronglySorted (fun a b => leb a b = true) (insert leb x l).
Proof.
  induction 1 as [|y ys Hs IH Hy]; simpl.
  - repeat constructor.
  - destruct (leb x y) eqn:E.
    + constructor; [now constructor|].
      constructor; [exact E|].
      eapply Forall_impl; [|exact Hy]. intros z Hz. now apply leb_trans with y.
    + constructor; [exact IH|].
      eapply Permutation_Forall; [symmetry; apply insert_perm|].
      constructor; [|exact Hy].
      destruct (leb_total x y) as [F|F]; congruence.
Qed.

Lemma sortBy_sorted (l : list Post.t) :
  StronglySorted (fun a b => leb a b = true) (sortBy leb l).
Proof.
  induction l as [|x l IH]; simpl; [constructor|]. now apply insert_sorted.
Qed.

Lemma insert_head (x : Post.t) (l : list Post.t) :
  Forall (fun y => leb x y = true) l -> insert leb x l = x :: l.
Proof.
  intros H. destruct H as [|y ys Hy _]; simpl; [reflexivity|]. now rewrite Hy.
Qed.

Lemma insert_last (x : Post.t) (l : list Post.t) :
  Forall (fun y => leb x y = false) l -> insert leb x l = l ++ [x].
Proof.
  induction 1 as [|y ys Hy _ IH]; simpl; [reflexivity|]. now rewrite Hy, IH.
Qed.

Lemma filter_insert_out (p : Post.t -> bool) (x : Post.t) (l : list Post.t) :
  p x = false -> filter p (insert leb x l) = filter p l.
Proof.
  intros Hx. induction l as [|y ys IH]; simpl.
  - now rewrite Hx.
  - destruct (leb x y); simpl; [now rewrite Hx|]. now rewrite IH.
Qed.

Lemma filter_insert_in (p : Post.t -> bool) (x : Post.t) (l : list Post.t) :
  StronglySorted (fun a b => leb a b = true) l ->
  p x = true -> filter p (insert leb x l) = insert leb x (filter p l).
Proof.
  intros Hs Hx. induction Hs as [|y ys Hs IH Hy]; cbn [insert].
  - simpl. now rewrite Hx.
  - destruct (leb x y) eqn:E.
    + change (filter p (x :: y :: ys))
        with (if p x then x :: filter p (y :: ys) else filter p (y :: ys)).
      rewrite Hx. symmetry. apply insert_head.
      assert (Hall : Forall (fun z => leb x z = true) (y :: ys)).
      { constructor; [exact E|].
        eapply Forall_impl; [|exact Hy]. intros z Hz. now apply leb_trans with y. }
      apply Forall_forall. intros z Hz.
      apply filter_In in Hz. destruct Hz as [Hz _].
      revert z Hz. now apply Forall_forall.
    + cbn [filter]. destruct (p y); simpl; [rewrite E|]; now rewrite IH.
Qed.

(** Filtering commutes with sorting: the query may be read as "sort the
    collection, then keep the matching documents". *)
Lemma sortBy_filter (p : Post.t -> bool) (l : list Post.t) :
  sortBy leb (filter p l) = filter p (sortBy leb l).
Proof.
  induction l as [|x l IH]; simpl; [reflexivity|].
  destruct (p x) eqn:Hx.
  - simpl. rewrite IH. symmetry. apply filter_insert_in; [apply sortBy_sorted|exact Hx].
  - rewrite filter_insert_out by exact Hx. exact IH.
Qed.

(** In a list without ties, the documents strictly after an element are
    those that follow it. *)
Lemma filter_after (x : Post.t) (before after : list Post.t) :
  StronglySorted (fun a b => leb b a = false) (before ++ x :: after) ->
  filter (fun p => negb (leb p x)) (before ++ x :: after) = after.
Proof.
  intros Hs. induction before as [|y ys IH]; simpl in *.
  - inversion Hs as [|? ? Hs' Hx]; subst.
    replace (leb x x) with true by (destruct (leb_total x x); congruence).
    simpl. clear Hs. induction after as [|z zs IHz]; simpl; [reflexivity|].
    inversion Hx as [|? ? Hz Hzs]; subst. rewrite Hz. simpl.
    f_equal. apply IHz; [|exact Hzs].
    inversion Hs'; assumption.
  - inversion Hs as [|? ? Hs' Hy]; subst.
    assert (Hyx : leb x y = false).
    { rewrite Forall_forall in Hy. apply Hy. apply in_or_app. right. now left. }
    replace (leb y x) with true by (destruct (leb_total x y); congruence).
    simpl. now apply IH.
Qed.

End SortFacts.

(** ** The feed order and the query predicate *)

Lemma feedOrder_precedes (p q : Post.t) :
  precedes feedOrder p q =
  if Post.createdAt p =? Post.createdAt q
  then (if Post._id p =? Post._id q then true else Post._id q <? Post._id p)
  else Post.createdAt q <? Post.createdAt p.
Proof.
  reflexivity.
Qed.

Lemma feedOrder_total (x y : Post.t) :
  precedes feedOrder x y = true \/ precedes feedOrder y x = true.
Proof.
  rewrite !feedOrder_precedes.
  destruct (Z.eqb_spec (Post.createdAt x) (Post.createdAt y)) as [E|E];
    destruct (Z.eqb_spec (Post.createdAt y) (Post.createdAt x)) as [E'|E']; try lia;
    destruct (Z.eqb_spec (Post._id x) (Post._id y)) as [F|F];
    destruct (Z.eqb_spec (Post._id y) (Post._id x)) as [F'|F']; try lia; auto;
    rewrite !Z.ltb_lt; lia.
Qed.

Lemma feedOrder_trans (x y z : Post.t) :
  precedes feedOrder x y = true -> precedes feedOrder y z = true ->
  precedes feedOrder x z = true.
Proof.
  rewrite !feedOrder_precedes.
  destruct (Z.eqb_spec (Post.createdAt x) (Post.createdAt y)) as [E1|E1];
    destruct (Z.eqb_spec (Post.createdAt y) (Post.createdAt z)) as [E2|E2];
    destruct (Z.eqb_spec (Post.createdAt x) (Post.createdAt z)) as [E3|E3]; try lia;
    destruct (Z.eqb_spec (Post._id x) (Post._id y)) as [F1|F1];
    destruct (Z.eqb_spec (Post._id y) (Post._id z)) as [F2|F2];
    destruct (Z.eqb_spec (Post._id x) (Post._id z)) as [F3|F3]; try lia; auto;
    rewrite ?Z.ltb_lt; try lia; try discriminate.
Qed.

(** Two posts that precede each other have the same sort key. *)
Lemma feedOrder_antisym (x y : Post.t) :
  precedes feedOrder x y = true -> precedes feedOrder y x = true -> sortKey x = sortKey y.
Proof.
  rewrite !feedOrder_precedes. unfold sortKey.
  destruct (Z.eqb_spec (Post.createdAt x) (Post.createdAt y)) as [E|E];
    destruct (Z.eqb_spec (Post.createdAt y) (Post.createdAt x)) as [E'|E']; try lia;
    destruct (Z.eqb_spec (Post._id x) (Post._id y)) as [F|F];
    destruct (Z.eqb_spec (Post._id y) (Post._id x)) as [F'|F']; try lia;
    rewrite ?Z.ltb_lt; try lia; try congruence.
Qed.

(** The position predicate says "strictly after" in the feed order. *)
Lemma afterCursor_precedes (x p : Post.t) :
  afterCursor (Post.createdAt x) (Post._id x) p = negb (precedes feedOrder p x).
Proof.
  rewrite feedOrder_precedes. unfold afterCursor.
  destruct (Z.eqb_spec (Post.createdAt p) (Post.createdAt x)) as [E|E].
  - rewrite E, Z.ltb_irrefl. simpl.
    destruct (Z.eqb_spec (Post._id p) (Post._id x)) as [F|F].
    + rewrite F. apply Z.ltb_irrefl.
    + destruct (Z.ltb_spec (Post._id p) (Post._id x)), (Z.ltb_spec (Post._id x) (Post._id p));
        simpl; lia || reflexivity.
  - rewrite orb_false_r.
    destruct (Z.ltb_spec (Post.createdAt p) (Post.createdAt x)),
      (Z.ltb_spec (Post.createdAt x) (Post.createdAt p)); simpl; lia || reflexivity.
Qed.

Lemma afterCursor_spec (c i : Z) (p : Post.t) :
  afterCursor c i p = true <->
  Post.createdAt p < c \/ (Post.createdAt p = c /\ Post._id p < i).
Proof.
  unfold afterCursor. rewrite orb_true_iff, andb_true_iff, !Z.ltb_lt, Z.eqb_eq. tauto.
Qed.

Lemma matches_no_cursor (p : Post.t) :
  matches {| Filter.isDeleted := false; Filter.or_ := None |} p = notDeleted p.
Proof.
  unfold matches, notDeleted. cbn. now destruct (Post.isDeleted p).
Qed.

Lemma matches_position (c i : Z) (p : Post.t) :
  matches {| Filter.isDeleted := false; Filter.or_ := Some (positionClauses c i) |} p
  = notDeleted p && afterCursor c i p.
Proof.
  unfold matches, notDeleted, afterCursor, positionClauses, clauseMatches.
  cbn. rewrite andb_true_r, orb_false_r. now destruct (Post.isDeleted p).
Qed.

(** In a sorted list whose sort keys are pairwise distinct no two documents
    tie. *)
Lemma sorted_strict (l : list Post.t) :
  NoDup (map sortKey l) ->
  StronglySorted (fun a b => precedes feedOrder a b = true) l ->
  StronglySorted (fun a b => precedes feedOrder b a = false) l.
Proof.
  intros Hnd Hs. induction Hs as [|x l Hs IH Hx]; [constructor|].
  simpl in Hnd. inversion Hnd as [|? ? Hnotin Hnd']; subst.
  constructor; [now apply IH|].
  rewrite Forall_forall in *. intros y Hy.
  destruct (precedes feedOrder y x) eqn:E; [|reflexivity].
  exfalso. apply Hnotin. rewrite (feedOrder_antisym x y (Hx y Hy) E).
  now apply in_map.
Qed.

Lemma feed_strict (db : list Post.t) :
  NoDup (map sortKey (filter notDeleted db)) ->
  StronglySorted (fun a b => precedes feedOrder b a = false) (feed db).
Proof.
  intros H. apply sorted_strict.
  - eapply Permutation_NoDup; [|exact H].
    apply Permutation_map. symmetry. apply sortBy_perm.
  - apply sortBy_sorted; [exact feedOrder_total | exact feedOrder_trans].
Qed.

Lemma filter_and (f g : Post.t -> bool) (l : list Post.t) :
  filter (fun p => f p && g p) l = filter g (filter f l).
Proof.
  induction l as [|x l IH]; simpl; [reflexivity|].
  destruct (f x); simpl; [destruct (g x)|]; now rewrite IH.
Qed.

Lemma runFind_no_cursor (db : list Post.t) (n : Z) :
  runFind db {| FindCall.filter := {| Filter.isDeleted := false; Filter.or_ := None |};
                FindCall.sort := feedOrder; FindCall.limit := n |}
  = applyLimit n (feed db).
Proof.
  unfold runFind, feed. cbn [FindCall.filter FindCall.sort FindCall.limit].
  f_equal. f_equal. apply filter_ext. exact matches_no_cursor.
Qed.

Lemma runFind_position (db : list Post.t) (c i n : Z) :
  runFind db {| FindCall.filter :=
                  {| Filter.isDeleted := false; Filter.or_ := Some (positionClauses c i) |};
                FindCall.sort := feedOrder; FindCall.limit := n |}
  = applyLimit n (filter (afterCursor c i) (feed db)).
Proof.
  unfold runFind, feed. cbn [FindCall.filter FindCall.sort FindCall.limit].
  f_equal.
  rewrite (filter_ext _ _ (matches_position c i)), filter_and.
  apply sortBy_filter; [exact feedOrder_total | exact feedOrder_trans].
Qed.

(** The documents after a document of the feed are those that follow it. *)
Lemma feed_after (db : list Post.t) (x : Post.t) (before after : list Post.t) :
  NoDup (map sortKey (filter notDeleted db)) ->
  feed db = before ++ x :: after ->
  filter (afterCursor (Post.createdAt x) (Post._id x)) (feed db) = after.
Proof.
  intros Hnd E.
  rewrite (filter_ext _ _ (afterCursor_precedes x)).
  pose proof (feed_strict db Hnd) as Hs. rewrite E in *.
  apply filter_after; [exact feedOrder_total | exact Hs].
Qed.

(** ** Truncation and the next cursor *)

Lemma lastOf_snoc {A : Type} (l : list A) (x : A) : lastOf (l ++ [x]) = Some x.
Proof.
  unfold lastOf. rewrite length_app. simpl.
  replace (List.length l + 1 - 1)%nat with (List.length l) by lia.
  rewrite nth_error_app2 by lia. now rewrite Nat.sub_diag.
Qed.

Lemma lastOf_map {A B : Type} (f : A -> B) (l : list A) :
  lastOf (map f l) = option_map f (lastOf l).
Proof.
  unfold lastOf. rewrite length_map. apply nth_error_map.
Qed.

Lemma lastOf_nonempty {A : Type} (l : list A) :
  l <> [] -> exists x, lastOf l = Some x.
Proof.
  intros H. destruct (exists_last H) as (l' & x & ->). exists x. apply lastOf_snoc.
Qed.

Lemma removelast_firstn_length {A : Type} (l : list A) :
  removelast l = firstn (List.length l - 1) l.
Proof.
  destruct l as [|a l] using rev_ind; [reflexivity|].
  rewrite removelast_last, length_app. simpl.
  replace (List.length l + 1 - 1)%nat with (List.length l + 0)%nat by lia.
  rewrite firstn_app_2. simpl. now rewrite app_nil_r.
Qed.

(** The page [respond] sends, read off its definition. *)
Lemma respond_page (limit : Z) (posts : list Post.t) (page : Page.t) :
  respond limit posts = {| Response.status := 200; Response.body := PageBody page |} ->
  let hasMore := Z.of_nat (List.length posts) >? limit in
  let slicedPosts := if hasMore then sliceButLast posts else posts in
  Page.posts page = map transform slicedPosts
  /\ Pagination.hasMore (Page.pagination page) = hasMore
  /\ Pagination.limit (Page.pagination page) = limit
  /\ Pagination.count (Page.pagination page) = Z.of_nat (List.length (Page.posts page))
  /\ makeNextCursor hasMore slicedPosts = Ok (Pagination.nextCursor (Page.pagination page)).
Proof.
  unfold respond. cbv zeta.
  destruct (makeNextCursor _ _) as [nextCursor|] eqn:E; [|discriminate].
  intros H. injection H as <-. cbn. auto.
Qed.


Lemma makeNextCursor_spec (hasMore : bool) (slicedPosts : list Post.t) (next : option string) :
  makeNextCursor hasMore slicedPosts = Ok next ->
  match (if hasMore then lastOf slicedPosts else None) with
  | Some lastPost =>
      exists token,
        encodeCursor (Post.createdAt lastPost) (Post._id lastPost) = Ok token
        /\ next = Some token
  | None => next = None
  end.
Proof.
  unfold makeNextCursor, lastOf.
  destruct hasMore; cbn [andb].
  - destruct slicedPosts as [|p l]; [cbn; congruence|].
    replace (0 <? Z.of_nat (List.length (p :: l))) with true
      by (symmetry; apply Z.ltb_lt; simpl; lia).
    destruct (nth_error (p :: l) (List.length (p :: l) - 1)) as [lastPost|]; [|discriminate].
    destruct (encodeCursor _ _) as [token|]; cbn [bind]; [|discriminate].
    intros E. apply Ok_inj in E. eauto.
  - congruence.
Qed.

(** A full page: [limit] retained documents and one more. *)
Lemma respond_more (limit : Z) (retained : list Post.t) (lastPost extra : Post.t) (token : string) :
  Z.of_nat (List.length retained) + 1 = limit ->
  encodeCursor (Post.createdAt lastPost) (Post._id lastPost) = Ok token ->
  respond limit (retained ++ [lastPost; extra])
  = {| Response.status := 200;
       Response.body :=
         PageBody
           {| Page.posts := map transform (retained ++ [lastPost]);
              Page.pagination :=
                {| Pagination.nextCursor := Some token;
                   Pagination.hasMore := true;
                   Pagination.limit := limit;
                   Pagination.count := limit |} |} |}.
Proof.
  intros Hlen Henc. unfold respond. cbv zeta.
  replace (Z.of_nat (List.length (retained ++ [lastPost; extra])) >? limit) with true
    by (symmetry; rewrite Z.gtb_ltb; apply Z.ltb_lt; rewrite length_app; simpl; lia).
  unfold sliceButLast.
  replace (retained ++ [lastPost; extra]) with ((retained ++ [lastPost]) ++ [extra])
    by (now rewrite <- app_assoc).
  rewrite removelast_last.
  unfold makeNextCursor. cbn [andb].
  replace (0 <? Z.of_nat (List.length (retained ++ [lastPost]))) with true
    by (symmetry; apply Z.ltb_lt; rewrite length_app; simpl; lia).
  fold (lastOf (retained ++ [lastPost])). rewrite lastOf_snoc, Henc. cbn [bind].
  rewrite length_map, length_app. cbn [List.length].
  do 4 f_equal. f_equal. lia.
Qed.

(** A last page: no more documents than the limit. *)
Lemma respond_last (limit : Z) (posts : list Post.t) :
  Z.of_nat (List.length posts) <= limit ->
  respond limit posts
  = {| Response.status := 200;
       Response.body :=
         PageBody
           {| Page.posts := map transform posts;
              Page.pagination :=
                {| Pagination.nextCursor := None;
                   Pagination.hasMore := false;
                   Pagination.limit := limit;
                   Pagination.count := Z.of_nat (List.length posts) |} |} |}.
Proof.
  intros Hlen. unfold respond. cbv zeta.
  replace (Z.of_nat (List.length posts) >? limit) with false
    by (symmetry; rewrite Z.gtb_ltb; apply Z.ltb_ge; lia).
  cbn [makeNextCursor andb]. now rewrite length_map.
Qed.

(** ** The route *)

Lemma decodeCursor_isValid (cursor : string) (c : Cursor.t) :
  decodeCursor cursor = Ok c -> isValid (Cursor.id c) = true.
Proof.
  unfold decodeCursor, tryCatch.
  destruct (nth_error (split "|" (base64Decode cursor)) 0) as [[|a createdAt]|];
    try discriminate.
  destruct (nth_error (split "|" (base64Decode cursor)) 1) as [[|b id]|];
    try discriminate.
  destruct (newDate (String a createdAt)) as [date|]; [|discriminate].
  destruct (isValid (String b id)) eqn:V; [|discriminate].
  intros E. apply Ok_inj in E. now subst c.
Qed.

Lemma cursorClauses_position (cursor : string) (c : Cursor.t) :
  decodeCursor cursor = Ok c ->
  exists i, newObjectId (Cursor.id c) = Ok i
            /\ cursorClauses cursor = Ok (positionClauses (Cursor.createdAt c) i).
Proof.
  intros E. destruct (isValid_newObjectId _ (decodeCursor_isValid _ _ E)) as [i Hi].
  exists i. split; [exact Hi|].
  unfold cursorClauses. rewrite E. cbn [bind]. rewrite Hi. reflexivity.
Qed.


Lemma buildQuery_token (createdAt id : Z) (token : string) :
  validObjectId id ->
  encodeCursor createdAt id = Ok token ->
  buildQuery (Some token)
  = inr {| Filter.isDeleted := false; Filter.or_ := Some (positionClauses createdAt id) |}.
Proof.
  intros Hid Henc.
  destruct (encodeCursor_nonempty _ _ _ Henc) as (ch & rest & Htok).
  pose proof (decodeCursor_encodeCursor _ _ _ Hid Henc) as Hdec.
  destruct (cursorClauses_position _ _ Hdec) as (i & Hi & Hcl).
  cbn [Cursor.id Cursor.createdAt] in Hi, Hcl.
  rewrite newObjectId_toHexString in Hi by exact Hid. apply Ok_inj in Hi. subst i.
  unfold buildQuery. rewrite Htok in *. now rewrite Hcl.
Qed.

(** The first page: no cursor. *)
Lemma getPosts_first (db : list Post.t) (limit : option string) :
  getPosts db {| Req.limit := limit; Req.after := None |}
  = {| Outcome.queries :=
         [ {| FindCall.filter := {| Filter.isDeleted := false; Filter.or_ := None |};
              FindCall.sort := feedOrder;
              FindCall.limit := effectiveLimit limit + 1 |} ];
       Outcome.response :=
         respond (effectiveLimit limit) (applyLimit (effectiveLimit limit + 1) (feed db)) |}.
Proof.
  unfold getPosts. cbn [Req.limit Req.after buildQuery].
  now rewrite runFind_no_cursor.
Qed.

(** A later page: the cursor is the encoded position of a document of the
    feed, and the query returns the documents that follow it. *)
Lemma getPosts_after (db : list Post.t) (limit : option string)
      (x : Post.t) (before after : list Post.t) (token : string) :
  NoDup (map sortKey (filter notDeleted db)) ->
  feed db = before ++ x :: after ->
  validObjectId (Post._id x) ->
  encodeCursor (Post.createdAt x) (Post._id x) = Ok token ->
  getPosts db {| Req.limit := limit; Req.after := Some token |}
  = {| Outcome.queries :=
         [ {| FindCall.filter :=
                {| Filter.isDeleted := false;
                   Filter.or_ := Some (positionClauses (Post.createdAt x) (Post._id x)) |};
              FindCall.sort := feedOrder;
              FindCall.limit := effectiveLimit limit + 1 |} ];
       Outcome.response :=
         respond (effectiveLimit limit) (applyLimit (effectiveLimit limit + 1) after) |}.
Proof.
  intros Hnd Hfeed Hid Henc.
  unfold getPosts. cbn [Req.limit Req.after].
  rewrite (buildQuery_token _ _ _ Hid Henc).
  rewrite runFind_position. now rewrite (feed_after db x before after Hnd Hfeed).
Qed.

(** ** The projection ignores the liker ids *)

Lemma filter_map_withoutLikers (q : Filter.t) (l : list Post.t) :
  filter (matches q) (map withoutLikers l) = map withoutLikers (filter (matches q) l).
Proof.
  induction l as [|p l IH]; [reflexivity|].
  cbn [map filter].
  change (matches q (withoutLikers p)) with (matches q p).
  destruct (matches q p); cbn [map]; now rewrite IH.
Qed.

Lemma precedes_withoutLikers (spec : list (SortField * Z)) (p q : Post.t) :
  precedes spec (withoutLikers p) (withoutLikers q) = precedes spec p q.
Proof.
  induction spec as [|[f dir] spec IH]; [reflexivity|].
  cbn [precedes].
  replace (fieldValue f (withoutLikers p)) with (fieldValue f p) by now destruct f.
  replace (fieldValue f (withoutLikers q)) with (fieldValue f q) by now destruct f.
  now rewrite IH.
Qed.

Lemma sortBy_map_withoutLikers (spec : list (SortField * Z)) (l : list Post.t) :
  sortBy (precedes spec) (map withoutLikers l)
  = map withoutLikers (sortBy (precedes spec) l).
Proof.
  induction l as [|x l IH]; [reflexivity|].
  cbn [map sortBy fold_right]. fold (sortBy (precedes spec) (map withoutLikers l)).
  fold (sortBy (precedes spec) l). rewrite IH.
  generalize (sortBy (precedes spec) l) as s.
  induction s as [|y s IHs]; [reflexivity|].
  cbn [map insert]. rewrite precedes_withoutLikers.
  destruct (precedes spec x y); cbn [map]; [reflexivity|]. now rewrite IHs.
Qed.

Lemma runFind_withoutLikers (db : list Post.t) (call : FindCall.t) :
  runFind (map withoutLikers db) call = map withoutLikers (runFind db call).
Proof.
  unfold runFind, applyLimit.
  rewrite filter_map_withoutLikers, sortBy_map_withoutLikers.
  destruct (FindCall.limit call =? 0); [reflexivity|]. now rewrite firstn_map.
Qed.

Lemma respond_withoutLikers (limit : Z) (posts : list Post.t) :
  respond limit (map withoutLikers posts) = respond limit posts.
Proof.
  unfold respond. cbv zeta. rewrite length_map.
  set (hasMore := Z.of_nat (List.length posts) >? limit).
  assert (Hs : (if hasMore then sliceButLast (map withoutLikers posts)
                else map withoutLikers posts)
               = map withoutLikers (if hasMore then sliceButLast posts else posts)).
  { destruct hasMore; [|reflexivity]. unfold sliceButLast.
    rewrite !removelast_firstn_length, length_map. now rewrite firstn_map. }
  rewrite Hs. generalize (if hasMore then sliceButLast posts else posts) as sliced.
  intros sliced.
  assert (Hn : makeNextCursor hasMore (map withoutLikers sliced) = makeNextCursor hasMore sliced).
  { unfold makeNextCursor. rewrite length_map, nth_error_map.
    now destruct (nth_error sliced (List.length sliced - 1)). }
  rewrite Hn, map_map. reflexivity.
Qed.

Lemma In_firstn_list {A : Type} (n : nat) (x : A) (l : list A) : In x (firstn n l) -> In x l.
Proof.
  intros H. rewrite <- (firstn_skipn n l). apply in_or_app. now left.
Qed.

Lemma In_removelast {A : Type} (x : A) (l : list A) : In x (removelast l) -> In x l.
Proof.
  rewrite removelast_firstn_length. apply In_firstn_list.
Qed.

Lemma In_applyLimit (n : Z) (x : Post.t) (l : list Post.t) : In x (applyLimit n l) -> In x l.
Proof.
  unfold applyLimit. destruct (n =? 0); [auto|]. apply In_firstn_list.
Qed.

Lemma In_runFind (db : list Post.t) (call : FindCall.t) (p : Post.t) :
  In p (runFind db call) -> In p db /\ matches (FindCall.filter call) p = true.
Proof.
  unfold runFind. intros H. apply In_applyLimit in H.
  apply (Permutation_in _ (sortBy_perm _ _)) in H.
  now apply filter_In in H.
Qed.

(** * The claims *)

(** C4. For every valid date [createdAt] and every ObjectId [id], encoding
    succeeds and decoding the token gives back [createdAt] and the
    hexadecimal text of [id], which the ObjectId constructor reads back to
    [id]; and no other valid position is encoded to the same token. *)
Theorem cursor_roundtrip (createdAt id : Z) :
  validDate createdAt -> validObjectId id ->
  exists token,
    encodeCursor createdAt id = Ok token
    /\ decodeCursor token
       = Ok {| Cursor.createdAt := createdAt; Cursor.id := toHexString id |}
    /\ newObjectId (toHexString id) = Ok id
    /\ forall createdAt' id',
         validDate createdAt' -> validObjectId id' ->
         encodeCursor createdAt' id' = Ok token ->
         createdAt' = createdAt /\ id' = id.
Proof.
  intros Hd Hi. destruct (encodeCursor_valid createdAt id Hd) as [token Henc].
  exists token.
  pose proof (decodeCursor_encodeCursor _ _ _ Hi Henc) as Hdec.
  split; [exact Henc|]. split; [exact Hdec|].
  split; [now apply newObjectId_toHexString|].
  intros createdAt' id' _ Hi' Henc'.
  pose proof (decodeCursor_encodeCursor _ _ _ Hi' Henc') as Hdec'.
  split; [congruence|].
  assert (Hhex : toHexString id' = toHexString id) by congruence.
  pose proof (newObjectId_toHexString id' Hi') as H1.
  pose proof (newObjectId_toHexString id Hi) as H2.
  rewrite Hhex in H1. congruence.
Qed.



(** C2. Every query the route issues keeps only posts that are not deleted;
    when a non-empty cursor decodes to the position [(c, i)], it keeps
    exactly the posts that are not deleted and have
    [createdAt < c \/ (createdAt = c /\ _id < i)]; without a cursor it keeps
    exactly the posts that are not deleted. The position predicate differs
    from [createdAt < c] and from [createdAt <= c /\ _id < i]. *)
Theorem query_predicate (db : list Post.t) (req : Req.t) (call : FindCall.t) :
  In call (Outcome.queries (getPosts db req)) ->
  (forall p, matches (FindCall.filter call) p = true -> Post.isDeleted p = false)
  /\ (forall cursor c,
        Req.after req = Some cursor -> cursor <> EmptyString ->
        decodeCursor cursor = Ok c ->
        exists i,
          newObjectId (Cursor.id c) = Ok i
          /\ forall p,
               matches (FindCall.filter call) p = true <->
               Post.isDeleted p = false
               /\ (Post.createdAt p < Cursor.createdAt c
                   \/ (Post.createdAt p = Cursor.createdAt c /\ Post._id p < i)))
  /\ (Req.after req = None \/ Req.after req = Some EmptyString ->
      forall p, matches (FindCall.filter call) p = true <-> Post.isDeleted p = false)
  /\ (exists c i p,
        (Post.createdAt p < c \/ (Post.createdAt p = c /\ Post._id p < i))
        /\ ~ Post.createdAt p < c)
  /\ (exists c i p,
        (Post.createdAt p < c \/ (Post.createdAt p = c /\ Post._id p < i))
        /\ ~ (Post.createdAt p <= c /\ Post._id p < i)).
Proof.
  destruct req as [limit after]. unfold getPosts. cbn [Req.after Req.limit].
  intros Hin.
  assert (Hnd : forall p, notDeleted p = true <-> Post.isDeleted p = false).
  { intros p. unfold notDeleted. now destruct (Post.isDeleted p). }
  assert (Hq : (exists cursor c i,
                   after = Some cursor /\ cursor <> EmptyString
                   /\ decodeCursor cursor = Ok c /\ newObjectId (Cursor.id c) = Ok i
                   /\ FindCall.filter call
                      = {| Filter.isDeleted := false;
                           Filter.or_ := Some (positionClauses (Cursor.createdAt c) i) |})
               \/ ((after = None \/ after = Some EmptyString)
                   /\ FindCall.filter call
                      = {| Filter.isDeleted := false; Filter.or_ := None |})).
  { unfold buildQuery in Hin. destruct after as [[|ch rest]|].
    - destruct Hin as [<-|[]]. right. auto.
    - left. destruct (decodeCursor (String ch rest)) as [c|msg] eqn:Hdec.
      + destruct (cursorClauses_position _ _ Hdec) as (i & Hi & Hcl).
        rewrite Hcl in Hin. destruct Hin as [<-|[]].
        exists (String ch rest), c, i. repeat split; auto. discriminate.
      + unfold cursorClauses in Hin. rewrite Hdec in Hin. destruct Hin.
    - destruct Hin as [<-|[]]. right. auto. }
  split; [|split; [|split; [|split]]].
  - intros p. destruct Hq as [(cursor & c & i & _ & _ & _ & _ & ->)|[_ ->]].
    + rewrite matches_position, andb_true_iff, Hnd. tauto.
    + now rewrite matches_no_cursor, Hnd.
  - intros cursor c Hafter Hne Hdec.
    destruct Hq as [(cursor' & c' & i & Ha & _ & Hdec' & Hi & ->)|[[Ha|Ha] _]];
      try congruence.
    assert (cursor' = cursor) by congruence. subst cursor'.
    assert (c' = c) by congruence. subst c'.
    exists i. split; [exact Hi|]. intros p.
    now rewrite matches_position, andb_true_iff, Hnd, afterCursor_spec.
  - intros Hno p.
    destruct Hq as [(cursor' & c' & i & Ha & Hne & _)|[_ ->]].
    + destruct Hno; congruence.
    + now rewrite matches_no_cursor, Hnd.
  - exists 5, 7.
    exists (samplePost 3 5 []).
    cbn. lia.
  - exists 5, 7.
    exists (samplePost 9 4 []).
    cbn. lia.
Qed.

(** A request answered with a page issued one query, and the page is
    [respond] of what the query returned. *)
Lemma getPosts_page (db : list Post.t) (req : Req.t) (page : Page.t) :
  Outcome.response (getPosts db req)
  = {| Response.status := 200; Response.body := PageBody page |} ->
  exists query,
    buildQuery (Req.after req) = inr query
    /\ let call := {| FindCall.filter := query; FindCall.sort := feedOrder;
                      FindCall.limit := effectiveLimit (Req.limit req) + 1 |} in
       Outcome.queries (getPosts db req) = [call]
       /\ respond (effectiveLimit (Req.limit req)) (runFind db call)
          = {| Response.status := 200; Response.body := PageBody page |}.
Proof.
  unfold getPosts.
  destruct (buildQuery (Req.after req)) as [message|query]; cbn; [discriminate|].
  intros H. exists query. auto.
Qed.

(** C3. A request answered with a page issued one query, for [limit + 1]
    documents in the order [createdAt] descending, [_id] descending. If the
    query returned fewer than [limit + 1] documents, [hasMore] is false and
    the page is all of them. If it returned exactly [limit + 1], [hasMore]
    is true, the page is the first [limit] of them, and [nextCursor] is the
    encoded position of the last document of the page, which for a limit of
    at least 1 is the [limit]-th document returned. *)
Theorem overfetch_and_truncate (db : list Post.t) (req : Req.t) (page : Page.t) :
  Outcome.response (getPosts db req)
  = {| Response.status := 200; Response.body := PageBody page |} ->
  let limit := effectiveLimit (Req.limit req) in
  exists call,
    Outcome.queries (getPosts db req) = [call]
    /\ FindCall.sort call = [(By_createdAt, -1); (By__id, -1)]
    /\ FindCall.limit call = limit + 1
    /\ (0 <= limit -> Z.of_nat (List.length (runFind db call)) <= limit + 1)
    /\ (Z.of_nat (List.length (runFind db call)) < limit + 1 ->
        Pagination.hasMore (Page.pagination page) = false
        /\ Page.posts page = map transform (runFind db call))
    /\ (Z.of_nat (List.length (runFind db call)) = limit + 1 ->
        Pagination.hasMore (Page.pagination page) = true
        /\ Page.posts page = map transform (firstn (Z.to_nat limit) (runFind db call))
        /\ match lastOf (firstn (Z.to_nat limit) (runFind db call)) with
           | Some lastRetained =>
               exists token,
                 encodeCursor (Post.createdAt lastRetained) (Post._id lastRetained) = Ok token
                 /\ Pagination.nextCursor (Page.pagination page) = Some token
           | None => Pagination.nextCursor (Page.pagination page) = None
           end
        /\ (1 <= limit ->
            exists lastRetained,
              nth_error (runFind db call) (Z.to_nat limit - 1) = Some lastRetained
              /\ lastOf (firstn (Z.to_nat limit) (runFind db call)) = Some lastRetained)).
Proof.
  intros Hresp limit.
  destruct (getPosts_page db req page Hresp) as (query & _ & Hq & Hr). cbv zeta in Hq, Hr.
  fold limit in Hq, Hr.
  set (call := {| FindCall.filter := query; FindCall.sort := feedOrder;
                  FindCall.limit := limit + 1 |}) in *.
  exists call. split; [exact Hq|]. split; [reflexivity|]. split; [reflexivity|].
  set (fetched := runFind db call) in *.
  destruct (respond_page _ _ _ Hr) as (Hposts & Hmore & _ & _ & Hnext).
  cbv zeta in Hposts, Hmore, Hnext.
  split; [|split].
  - intros Hl. subst fetched call. unfold runFind, applyLimit. cbn [FindCall.limit].
    replace (limit + 1 =? 0) with false by (symmetry; apply Z.eqb_neq; lia).
    rewrite length_firstn. lia.
  - intros Hlt.
    assert (E : (Z.of_nat (List.length fetched) >? limit) = false)
      by (rewrite Z.gtb_ltb; apply Z.ltb_ge; lia).
    rewrite E in *. auto.
  - intros Heq.
    assert (E : (Z.of_nat (List.length fetched) >? limit) = true)
      by (rewrite Z.gtb_ltb; apply Z.ltb_lt; lia).
    rewrite E in *.
    assert (Hslice : sliceButLast fetched = firstn (Z.to_nat limit) fetched).
    { unfold sliceButLast. rewrite removelast_firstn_length. f_equal. lia. }
    rewrite Hslice in *.
    split; [exact Hmore|]. split; [exact Hposts|].
    split; [exact (makeNextCursor_spec _ _ _ Hnext)|].
    intros Hl. unfold lastOf. rewrite length_firstn.
    replace (Nat.min (Z.to_nat limit) (List.length fetched)) with (Z.to_nat limit) by lia.
    destruct (nth_error fetched (Z.to_nat limit - 1)) as [p|] eqn:Hn.
    + exists p. split; [reflexivity|].
      rewrite nth_error_firstn.
      replace (Z.to_nat limit - 1 <? Z.to_nat limit)%nat with true
        by (symmetry; apply Nat.ltb_lt; lia).
      exact Hn.
    + apply nth_error_None in Hn. lia.
Qed.

(** C10. In a page sent for an effective limit of at least 1, [nextCursor]
    is present exactly when [hasMore] is true: with [hasMore] the page is
    not empty and [nextCursor] is the encoded position of its last post;
    without it [nextCursor] is null. *)
Theorem nextCursor_iff_hasMore (db : list Post.t) (req : Req.t) (page : Page.t) :
  Outcome.response (getPosts db req)
  = {| Response.status := 200; Response.body := PageBody page |} ->
  1 <= effectiveLimit (Req.limit req) ->
  (Pagination.nextCursor (Page.pagination page) <> None
   <-> Pagination.hasMore (Page.pagination page) = true)
  /\ (Pagination.hasMore (Page.pagination page) = true ->
      exists lastPost token,
        lastOf (Page.posts page) = Some lastPost
        /\ encodeCursor (PublicPost.createdAt lastPost) (PublicPost.id lastPost) = Ok token
        /\ Pagination.nextCursor (Page.pagination page) = Some token)
  /\ (Pagination.hasMore (Page.pagination page) = false ->
      Pagination.nextCursor (Page.pagination page) = None).
Proof.
  intros Hresp Hlimit.
  destruct (getPosts_page db req page Hresp) as (query & _ & _ & Hr). cbv zeta in Hr.
  set (limit := effectiveLimit (Req.limit req)) in *.
  set (fetched := runFind db _) in *.
  destruct (respond_page _ _ _ Hr) as (Hposts & Hmore & _ & _ & Hnext).
  cbv zeta in Hposts, Hmore, Hnext.
  apply makeNextCursor_spec in Hnext.
  destruct (Z.of_nat (List.length fetched) >? limit) eqn:E.
  - rewrite Z.gtb_ltb in E. apply Z.ltb_lt in E.
    assert (Hne : sliceButLast fetched <> []).
    { unfold sliceButLast. rewrite removelast_firstn_length. intros Hnil.
      apply (f_equal (@List.length Post.t)) in Hnil. rewrite length_firstn in Hnil.
      simpl in Hnil. lia. }
    destruct (lastOf_nonempty _ Hne) as [p Hp]. rewrite Hp in Hnext.
    destruct Hnext as (token & Henc & Hnext).
    rewrite Hmore, Hnext, Hposts, lastOf_map, Hp.
    split; [split; [reflexivity|discriminate]|].
    split; [|discriminate].
    intros _. exists (transform p), token. auto.
  - rewrite Hmore, Hnext.
    split; [split; [congruence|discriminate]|].
    split; [discriminate|reflexivity].
Qed.

Lemma getPosts_withoutLikers (db : list Post.t) (req : Req.t) :
  getPosts (map withoutLikers db) req = getPosts db req.
Proof.
  unfold getPosts.
  destruct (buildQuery (Req.after req)) as [message|query]; [reflexivity|]. cbv zeta.
  now rewrite runFind_withoutLikers, respond_withoutLikers.
Qed.

(** C8. Two collections that differ only in the liker ids of their posts get
    the same answer to every request; and every post of a page is the
    projection [transform] of a stored post that is not deleted, a record of
    id, content, author snapshot, like count and creation date. *)
Theorem liker_ids_never_exposed (db db' : list Post.t) (req : Req.t) :
  map withoutLikers db = map withoutLikers db' ->
  getPosts db req = getPosts db' req
  /\ forall page,
       Outcome.response (getPosts db req)
       = {| Response.status := 200; Response.body := PageBody page |} ->
       Forall (fun post => exists p, In p db /\ Post.isDeleted p = false
                                     /\ post = transform p
                                     /\ post = transform (withoutLikers p))
              (Page.posts page).
Proof.
  intros Hsame. split.
  - rewrite <- (getPosts_withoutLikers db), <- (getPosts_withoutLikers db'). now rewrite Hsame.
  - intros page Hresp.
    destruct (getPosts_page db req page Hresp) as (query & Hb & _ & Hr). cbv zeta in Hr.
    destruct (respond_page _ _ _ Hr) as (Hposts & _). cbv zeta in Hposts.
    rewrite Hposts. apply Forall_forall. intros post Hin.
    apply in_map_iff in Hin. destruct Hin as (p & <- & Hin).
    assert (Hin' : In p (runFind db {| FindCall.filter := query; FindCall.sort := feedOrder;
                                       FindCall.limit := effectiveLimit (Req.limit req) + 1 |})).
    { destruct (_ >? _); [now apply In_removelast|exact Hin]. }
    apply In_runFind in Hin'. destruct Hin' as [Hdb Hm]. cbn [FindCall.filter] in Hm.
    exists p. repeat split; try assumption.
    unfold matches in Hm. apply andb_true_iff in Hm. destruct Hm as [Hm _].
    assert (Hf : Filter.isDeleted query = false).
    { unfold buildQuery in Hb.
      destruct (Req.after req) as [[|c r]|]; try (injection Hb as <-; reflexivity).
      destruct (cursorClauses _); [injection Hb as <-; reflexivity|discriminate]. }
    rewrite Hf in Hm. now destruct (Post.isDeleted p).
Qed.

(** ** Walking the feed *)

Lemma filter_all (f : Post.t -> bool) (l : list Post.t) :
  Forall (fun p => f p = true) l -> filter f l = l.
Proof.
  induction 1 as [|x l Hx _ IH]; simpl; [reflexivity|]. now rewrite Hx, IH.
Qed.

Lemma increasing_strongly (db : list Post.t) :
  Sorted (fun p q => Post.createdAt p < Post.createdAt q) db ->
  StronglySorted (fun p q => Post.createdAt p < Post.createdAt q) db.
Proof.
  apply Sorted_StronglySorted. intros x y z. lia.
Qed.

(** A collection of live posts listed by increasing [createdAt] is paged
    through in the reverse of that order. *)
Lemma feed_increasing (db : list Post.t) :
  Forall (fun p => Post.isDeleted p = false) db ->
  StronglySorted (fun p q => Post.createdAt p < Post.createdAt q) db ->
  feed db = rev db.
Proof.
  intros Hlive Hs. unfold feed.
  rewrite filter_all
    by (eapply Forall_impl; [|exact Hlive]; intros p Hp; unfold notDeleted; now rewrite Hp).
  clear Hlive. induction Hs as [|x l Hs IH Hx]; [reflexivity|].
  cbn [sortBy fold_right rev]. fold (sortBy (precedes feedOrder) l). rewrite IH.
  apply insert_last. apply Forall_rev.
  eapply Forall_impl; [|exact Hx]. intros y Hy. cbv beta in Hy. rewrite feedOrder_precedes.
  replace (Post.createdAt x =? Post.createdAt y) with false by (symmetry; apply Z.eqb_neq; lia).
  apply Z.ltb_ge. lia.
Qed.

Lemma increasing_NoDup (db : list Post.t) :
  StronglySorted (fun p q => Post.createdAt p < Post.createdAt q) db ->
  NoDup (map Post.createdAt db).
Proof.
  induction 1 as [|x l Hs IH Hx]; simpl; constructor; [|exact IH].
  intros Hin. apply in_map_iff in Hin. destruct Hin as (y & Hy & Hin).
  rewrite Forall_forall in Hx. specialize (Hx y Hin). cbv beta in Hx. lia.
Qed.

Lemma NoDup_sortKey_createdAt (l : list Post.t) :
  NoDup (map Post.createdAt l) -> NoDup (map sortKey l).
Proof.
  intros H. apply (NoDup_map_inv fst). rewrite map_map. exact H.
Qed.

Lemma NoDup_sortKey_id (l : list Post.t) :
  NoDup (map Post._id l) -> NoDup (map sortKey l).
Proof.
  intros H. apply (NoDup_map_inv snd). rewrite map_map. exact H.
Qed.

Lemma StronglySorted_snoc {A : Type} (R : A -> A -> Prop) (l : list A) (x : A) :
  StronglySorted R l -> Forall (fun y => R y x) l -> StronglySorted R (l ++ [x]).
Proof.
  induction 1 as [|y l Hs IH Hy]; intros Hx; simpl.
  - repeat constructor.
  - inversion Hx as [|? ? Hyx Hx']; subst.
    constructor; [now apply IH|].
    apply Forall_app. split; [exact Hy|]. now repeat constructor.
Qed.

Lemma StronglySorted_rev {A : Type} (R : A -> A -> Prop) (l : list A) :
  StronglySorted R l -> StronglySorted (fun a b => R b a) (rev l).
Proof.
  induction 1 as [|x l Hs IH Hx]; simpl; [constructor|].
  apply StronglySorted_snoc; [exact IH|]. now apply Forall_rev.
Qed.

Lemma StronglySorted_map {A B : Type} (R : B -> B -> Prop) (f : A -> B) (l : list A) :
  StronglySorted (fun a b => R (f a) (f b)) l -> StronglySorted R (map f l).
Proof.
  induction 1 as [|x l Hs IH Hx]; simpl; constructor; [exact IH|].
  now apply Forall_map.
Qed.

Lemma NoDup_transform (l : list Post.t) :
  NoDup (map Post.createdAt l) -> NoDup (map transform l).
Proof.
  intros H. apply (NoDup_map_inv PublicPost.createdAt). rewrite map_map. exact H.
Qed.

(** C1. On a collection of 25 live posts listed by strictly increasing
    [createdAt], three requests with [limit=10], the first without a cursor
    and each next one with the [nextCursor] of the previous page, are
    answered with pages whose posts, put end to end, are the 25 posts by
    decreasing [createdAt], none twice; the third page has [hasMore] false. *)
Theorem walk_of_25_posts (db : list Post.t) :
  List.length db = 25%nat ->
  Forall (fun p => Post.isDeleted p = false
                   /\ validDate (Post.createdAt p) /\ validObjectId (Post._id p)) db ->
  Sorted (fun p q => Post.createdAt p < Post.createdAt q) db ->
  exists page1 page2 page3 cursor1 cursor2,
    Outcome.response (getPosts db {| Req.limit := Some "10"%string; Req.after := None |})
    = {| Response.status := 200; Response.body := PageBody page1 |}
    /\ Pagination.nextCursor (Page.pagination page1) = Some cursor1
    /\ Outcome.response
         (getPosts db {| Req.limit := Some "10"%string; Req.after := Some cursor1 |})
       = {| Response.status := 200; Response.body := PageBody page2 |}
    /\ Pagination.nextCursor (Page.pagination page2) = Some cursor2
    /\ Outcome.response
         (getPosts db {| Req.limit := Some "10"%string; Req.after := Some cursor2 |})
       = {| Response.status := 200; Response.body := PageBody page3 |}
    /\ Page.posts page1 ++ Page.posts page2 ++ Page.posts page3 = map transform (rev db)
    /\ StronglySorted (fun a b => PublicPost.createdAt b < PublicPost.createdAt a)
                      (Page.posts page1 ++ Page.posts page2 ++ Page.posts page3)
    /\ NoDup (Page.posts page1 ++ Page.posts page2 ++ Page.posts page3)
    /\ Pagination.hasMore (Page.pagination page3) = false.
Proof.
  intros Hlen Hall Hsorted.
  apply increasing_strongly in Hsorted.
  assert (Hlive : Forall (fun p => Post.isDeleted p = false) db)
    by (eapply Forall_impl; [|exact Hall]; intros p (Hp & _); exact Hp).
  pose proof (feed_increasing db Hlive Hsorted) as Hfeed.
  assert (Hkeys : NoDup (map sortKey (filter notDeleted db))).
  { rewrite filter_all
      by (eapply Forall_impl; [|exact Hlive]; intros p Hp; unfold notDeleted; now rewrite Hp).
    now apply NoDup_sortKey_createdAt, increasing_NoDup. }
  assert (Hdistinct : NoDup (map transform (rev db))).
  { apply NoDup_transform. rewrite map_rev. apply NoDup_rev. now apply increasing_NoDup. }
  assert (Hdesc : StronglySorted (fun a b => PublicPost.createdAt b < PublicPost.createdAt a)
                                 (map transform (rev db))).
  { apply StronglySorted_map. apply (StronglySorted_rev _ _ Hsorted). }
  destruct db as
    [|p0 [|p1 [|p2 [|p3 [|p4 [|p5 [|p6 [|p7 [|p8 [|p9 [|p10 [|p11 [|p12
    [|p13 [|p14 [|p15 [|p16 [|p17 [|p18 [|p19 [|p20 [|p21 [|p22 [|p23 [|p24
    [|q rest]]]]]]]]]]]]]]]]]]]]]]]]]];
    try discriminate Hlen.
  clear Hlen Hsorted Hlive.
  cbn [rev app] in Hfeed, Hdistinct, Hdesc |- *.
  rewrite Forall_forall in Hall.
  destruct (Hall p15 ltac:(cbn; tauto)) as (_ & Hd1 & Hi1).
  destruct (Hall p5 ltac:(cbn; tauto)) as (_ & Hd2 & Hi2).
  destruct (encodeCursor_valid (Post.createdAt p15) (Post._id p15) Hd1) as [cursor1 Henc1].
  destruct (encodeCursor_valid (Post.createdAt p5) (Post._id p5) Hd2) as [cursor2 Henc2].
  do 3 eexists. exists cursor1, cursor2.
  split.
  { rewrite getPosts_first. cbn [Outcome.response]. rewrite Hfeed.
    exact (respond_more 10 [p24; p23; p22; p21; p20; p19; p18; p17; p16] p15 p14
             cursor1 eq_refl Henc1). }
  split; [reflexivity|].
  split.
  { rewrite (getPosts_after _ (Some "10"%string) p15
               [p24; p23; p22; p21; p20; p19; p18; p17; p16]
               [p14; p13; p12; p11; p10; p9; p8; p7; p6; p5; p4; p3; p2; p1; p0] cursor1
               Hkeys Hfeed Hi1 Henc1).
    cbn [Outcome.response].
    exact (respond_more 10 [p14; p13; p12; p11; p10; p9; p8; p7; p6] p5 p4 cursor2 eq_refl Henc2). }
  split; [reflexivity|].
  split.
  { rewrite (getPosts_after _ (Some "10"%string) p5
               [p24; p23; p22; p21; p20; p19; p18; p17; p16; p15; p14; p13; p12; p11;
                p10; p9; p8; p7; p6]
               [p4; p3; p2; p1; p0] cursor2
               Hkeys Hfeed Hi2 Henc2).
    cbn [Outcome.response].
    exact (respond_last 10 [p4; p3; p2; p1; p0] ltac:(cbn; lia)). }
  split; [reflexivity|].
  split; [exact Hdesc|].
  split; [exact Hdistinct|reflexivity].
Qed.


(** C7. On a collection of three live posts with one [createdAt] and
    pairwise distinct ids, three requests with [limit=1], the first without
    a cursor and each next one with the [nextCursor] of the previous page,
    are answered with one post each, by strictly decreasing id; the three
    posts are the three of the collection. *)
Theorem walk_of_3_tied_posts (db : list Post.t) (createdAt : Z) :
  List.length db = 3%nat ->
  validDate createdAt ->
  Forall (fun p => Post.isDeleted p = false
                   /\ Post.createdAt p = createdAt /\ validObjectId (Post._id p)) db ->
  NoDup (map Post._id db) ->
  exists post1 post2 post3 cursor1 cursor2,
    Outcome.response (getPosts db {| Req.limit := Some "1"%string; Req.after := None |})
    = {| Response.status := 200;
         Response.body :=
           PageBody {| Page.posts := [post1];
                       Page.pagination :=
                         {| Pagination.nextCursor := Some cursor1; Pagination.hasMore := true;
                            Pagination.limit := 1; Pagination.count := 1 |} |} |}
    /\ Outcome.response
         (getPosts db {| Req.limit := Some "1"%string; Req.after := Some cursor1 |})
       = {| Response.status := 200;
            Response.body :=
              PageBody {| Page.posts := [post2];
                          Page.pagination :=
                            {| Pagination.nextCursor := Some cursor2; Pagination.hasMore := true;
                               Pagination.limit := 1; Pagination.count := 1 |} |} |}
    /\ Outcome.response
         (getPosts db {| Req.limit := Some "1"%string; Req.after := Some cursor2 |})
       = {| Response.status := 200;
            Response.body :=
              PageBody {| Page.posts := [post3];
                          Page.pagination :=
                            {| Pagination.nextCursor := None; Pagination.hasMore := false;
                               Pagination.limit := 1; Pagination.count := 1 |} |} |}
    /\ PublicPost.id post3 < PublicPost.id post2 < PublicPost.id post1
    /\ Permutation [post1; post2; post3] (map transform db).
Proof.
  intros Hlen Hdate Hall Hids.
  assert (Hlive : filter notDeleted db = db).
  { apply filter_all. eapply Forall_impl; [|exact Hall].
    intros p (Hp & _). unfold notDeleted. now rewrite Hp. }
  assert (Hkeys : NoDup (map sortKey (filter notDeleted db)))
    by (rewrite Hlive; now apply NoDup_sortKey_id).
  pose proof (feed_strict db Hkeys) as Hstrict.
  assert (Hperm : Permutation (feed db) db).
  { unfold feed. rewrite Hlive. apply sortBy_perm. }
  pose proof (Permutation_length Hperm) as Hlen'. rewrite Hlen in Hlen'.
  pose proof (Permutation_Forall (Permutation_sym Hperm) Hall) as Hall'.
  destruct (feed db) as [|x [|y [|z [|? ?]]]] eqn:Hfeed; try discriminate Hlen'.
  inversion Hall' as [|? ? (_ & Hcx & Hix) Hall1]; subst.
  inversion Hall1 as [|? ? (_ & Hcy & Hiy) Hall2]; subst.
  inversion Hall2 as [|? ? (_ & Hcz & Hiz) _]; subst.
  inversion Hstrict as [|? ? Hstrict1 Hx]; subst.
  inversion Hstrict1 as [|? ? _ Hy]; subst.
  inversion Hx as [|? ? Hyx Hx']; subst. inversion Hx' as [|? ? Hzx _]; subst.
  inversion Hy as [|? ? Hzy _]; subst.
  rewrite feedOrder_precedes in Hyx, Hzx, Hzy.
  rewrite Hcy, Z.eqb_refl in Hyx. rewrite Hcz, Hcy, Z.eqb_refl in Hzy.
  assert (Hxy : Post._id y < Post._id x).
  { destruct (Z.eqb_spec (Post._id y) (Post._id x)); [discriminate|].
    apply Z.ltb_ge in Hyx. lia. }
  assert (Hyz : Post._id z < Post._id y).
  { destruct (Z.eqb_spec (Post._id z) (Post._id y)); [discriminate|].
    apply Z.ltb_ge in Hzy. lia. }
  assert (Hdx : validDate (Post.createdAt x)) by exact Hdate.
  assert (Hdy : validDate (Post.createdAt y)) by (now rewrite Hcy).
  destruct (encodeCursor_valid (Post.createdAt x) (Post._id x) Hdx) as [cursor1 Henc1].
  destruct (encodeCursor_valid (Post.createdAt y) (Post._id y) Hdy) as [cursor2 Henc2].
  exists (transform x), (transform y), (transform z), cursor1, cursor2.
  split.
  { rewrite getPosts_first. cbn [Outcome.response]. rewrite Hfeed.
    exact (respond_more 1 [] x y cursor1 eq_refl Henc1). }
  split.
  { rewrite (getPosts_after _ (Some "1"%string) x [] [y; z] cursor1
               Hkeys Hfeed Hix Henc1).
    cbn [Outcome.response].
    exact (respond_more 1 [] y z cursor2 eq_refl Henc2). }
  split.
  { rewrite (getPosts_after _ (Some "1"%string) y [x] [z] cursor2
               Hkeys Hfeed Hiy Henc2).
    cbn [Outcome.response].
    exact (respond_last 1 [z] ltac:(cbn; lia)). }
  split; [cbn; lia|].
  change [transform x; transform y; transform z] with (map transform [x; y; z]).
  now apply Permutation_map.
Qed.

(** ** The page size *)

Lemma effectiveLimit_le_50 (limit : option string) : effectiveLimit limit <= 50.
Proof.
  unfold effectiveLimit. lia.
Qed.

(** An absent, non-numeric or zero limit is replaced by 10; a positive one
    is capped at 50. *)
Lemma effectiveLimit_not_negative (limit : option string) :
  match parseInt (toString limit) with
  | None => effectiveLimit limit = 10
  | Some n => 0 <= n -> 1 <= effectiveLimit limit <= 50
  end.
Proof.
  unfold effectiveLimit. destruct (parseInt (toString limit)) as [n|]; [|reflexivity].
  intros Hn. destruct n; cbn [orElse]; lia.
Qed.

(** A negative limit is passed on as it is. *)
Lemma effectiveLimit_negative (limit : option string) (n : Z) :
  parseInt (toString limit) = Some n -> n < 0 -> effectiveLimit limit = n.
Proof.
  unfold effectiveLimit. intros -> Hn. destruct n; cbn [orElse]; lia.
Qed.

(** The invariants of a page sent for an effective limit of at least 1. *)
Lemma page_invariants (db : list Post.t) (req : Req.t) (page : Page.t) :
  Outcome.response (getPosts db req)
  = {| Response.status := 200; Response.body := PageBody page |} ->
  1 <= effectiveLimit (Req.limit req) ->
  exists call,
    Outcome.queries (getPosts db req) = [call]
    /\ FindCall.limit call = Pagination.limit (Page.pagination page) + 1
    /\ Pagination.limit (Page.pagination page) = effectiveLimit (Req.limit req)
    /\ Z.of_nat (List.length (Page.posts page)) <= Pagination.limit (Page.pagination page)
    /\ Pagination.count (Page.pagination page) = Z.of_nat (List.length (Page.posts page))
    /\ (Pagination.hasMore (Page.pagination page) = true
        <-> (List.length (Page.posts page)
             < List.length (filter (matches (FindCall.filter call)) db))%nat).
Proof.
  intros Hresp Hlimit.
  destruct (getPosts_page db req page Hresp) as (query & _ & Hq & Hr). cbv zeta in Hq, Hr.
  set (limit := effectiveLimit (Req.limit req)) in *.
  set (call := {| FindCall.filter := query; FindCall.sort := feedOrder;
                  FindCall.limit := limit + 1 |}) in *.
  exists call. split; [exact Hq|].
  destruct (respond_page _ _ _ Hr) as (Hposts & Hmore & Hlim & Hcount & _).
  cbv zeta in Hposts, Hmore.
  rewrite Hlim. split; [reflexivity|]. split; [reflexivity|].
  assert (Hfetched : List.length (runFind db call)
                     = Nat.min (Z.to_nat (limit + 1))
                               (List.length (filter (matches (FindCall.filter call)) db))).
  { unfold runFind, applyLimit. subst call. cbn [FindCall.limit FindCall.filter FindCall.sort].
    replace (limit + 1 =? 0) with false by (symmetry; apply Z.eqb_neq; lia).
    rewrite length_firstn, sortBy_length. f_equal. lia. }
  apply (f_equal (@List.length PublicPost.t)) in Hposts. rewrite length_map in Hposts.
  rewrite Hmore.
  destruct (Z.of_nat (List.length (runFind db call)) >? limit) eqn:E;
    rewrite Z.gtb_ltb in E; [apply Z.ltb_lt in E | apply Z.ltb_ge in E].
  - unfold sliceButLast in Hposts.
    rewrite removelast_firstn_length, length_firstn in Hposts.
    split; [lia|]. split; [exact Hcount|]. split; [lia|reflexivity].
  - split; [lia|]. split; [exact Hcount|]. split; [discriminate|lia].
Qed.


(** C9 fails on the code: the limit has no lower bound. With [limit=-1] the
    effective limit is -1 and the query is issued with the limit 0, which
    MongoDB reads as no limit. On three posts the page holds two posts, more
    than its limit of -1; on 60 posts it holds 59, more than the 50 the
    route means to allow; on an empty collection [hasMore] is true although
    no post matches. *)
Theorem page_longer_than_negative_limit :
  (exists page,
     Outcome.response
       (getPosts sampleTies {| Req.limit := Some "-1"%string; Req.after := None |})
     = {| Response.status := 200; Response.body := PageBody page |}
     /\ Pagination.limit (Page.pagination page) = -1
     /\ List.length (Page.posts page) = 2%nat
     /\ ~ Z.of_nat (List.length (Page.posts page)) <= Pagination.limit (Page.pagination page))
  /\ (exists call page,
        getPosts (sampleFeed 60) {| Req.limit := Some "-1"%string; Req.after := None |}
        = {| Outcome.queries := [call];
             Outcome.response :=
               {| Response.status := 200; Response.body := PageBody page |} |}
        /\ FindCall.limit call = 0
        /\ Pagination.limit (Page.pagination page) = -1
        /\ List.length (Page.posts page) = 59%nat)
  /\ (exists page,
        Outcome.response (getPosts [] {| Req.limit := Some "-1"%string; Req.after := None |})
        = {| Response.status := 200; Response.body := PageBody page |}
        /\ Page.posts page = []
        /\ Pagination.hasMore (Page.pagination page) = true).
Proof.
  split; [|split].
  - rewrite getPosts_first. vm_compute. eexists. repeat split. intros H. apply H. reflexivity.
  - rewrite getPosts_first. vm_compute. do 2 eexists. repeat split.
  - rewrite getPosts_first. vm_compute. eexists. repeat split.
Qed.

(** * The routes that write *)

(** ** Storage *)

Lemma findById_In (db : list Post.t) (id : Z) (p : Post.t) :
  findById db id = Some p -> In p db /\ Post._id p = id.
Proof.
  unfold findById. intros H. apply find_some in H. destruct H as [Hin Hid].
  split; [exact Hin|]. now apply Z.eqb_eq.
Qed.

Lemma findById_save (db : list Post.t) (p post : Post.t) :
  findById db (Post._id post) = Some p ->
  findById (save post db) (Post._id post) = Some post.
Proof.
  unfold findById. induction db as [|q db IH]; cbn [find save]; [discriminate|].
  destruct (Post._id q =? Post._id post) eqn:E.
  - intros _. cbn [find]. now rewrite Z.eqb_refl.
  - intros H. cbn [find]. rewrite E. now apply IH.
Qed.

Lemma map_save {A : Type} (f : Post.t -> A) (db : list Post.t) (p post : Post.t) :
  findById db (Post._id post) = Some p -> f post = f p ->
  map f (save post db) = map f db.
Proof.
  unfold findById. intros H Hf. induction db as [|q db IH]; cbn [find save] in *; [reflexivity|].
  destruct (Post._id q =? Post._id post) eqn:E.
  - injection H as ->. cbn [map]. now rewrite Hf.
  - cbn [map]. now rewrite IH.
Qed.

Lemma Forall_save (P : Post.t -> Prop) (db : list Post.t) (post : Post.t) :
  Forall P db -> P post -> Forall P (save post db).
Proof.
  intros H Hp. induction H as [|q db Hq Hdb IH]; cbn [save]; [constructor|].
  destruct (Post._id q =? Post._id post); constructor; assumption.
Qed.

(** Saving the document found under an [_id] changes the collection at the
    place of that document only. *)
Lemma nth_error_save (db : list Post.t) (p post : Post.t) (k : nat) (q : Post.t) :
  findById db (Post._id post) = Some p ->
  nth_error db k = Some q -> q <> p ->
  nth_error (save post db) k = Some q.
Proof.
  unfold findById. revert k. induction db as [|r db IH]; intros k H Hk Hne;
    cbn [find save] in *; [destruct k; discriminate|].
  destruct (Post._id r =? Post._id post) eqn:E.
  - injection H as ->. destruct k as [|k]; cbn [nth_error] in *; [congruence|exact Hk].
  - destruct k as [|k]; cbn [nth_error] in *; [exact Hk|]. now apply IH.
Qed.

(** ** What each route does, case by case *)

Lemma likePost_cases (now generated : Z) (db : list Post.t) (postId : string)
      (userId : BodyValue) :
  (fst (likePost now generated db postId userId) = db
   /\ Reply.status (snd (likePost now generated db postId userId)) <> 200)
  \/ exists id post userObjectId,
       newObjectId postId = Ok id
       /\ findById db id = Some post
       /\ Post.isDeleted post = false
       /\ isFalsy userId = false
       /\ constructObjectId generated userId = Ok userObjectId
       /\ likePost now generated db postId userId
          = (save (withLikes post (toggleLike (Post.likes post) userObjectId) now) db,
             {| Reply.status := 200;
                Reply.body :=
                  LikedBody
                    (negb (existsb (fun id => id =? userObjectId)
                                   (Likes.userIds (Post.likes post))))
                    (Likes.count (toggleLike (Post.likes post) userObjectId)) |}).
Proof.
  unfold likePost.
  destruct (isFalsy userId) eqn:Hfalsy; [left; split; [reflexivity|discriminate]|].
  destruct (newObjectId postId) as [id|] eqn:Hid; cbn [bind];
    [|left; split; [reflexivity|discriminate]].
  destruct (findById db id) as [post|] eqn:Hfind;
    [|left; split; [reflexivity|discriminate]].
  destruct (Post.isDeleted post) eqn:Hdel; [left; split; [reflexivity|discriminate]|].
  destruct (constructObjectId generated userId) as [u|] eqn:Hu; cbn [bind];
    [|left; split; [reflexivity|discriminate]].
  right. exists id, post, u. repeat split; auto.
Qed.

Lemma deletePost_cases (now generated : Z) (db : list Post.t) (postId : string)
      (userId : BodyValue) :
  (fst (deletePost now generated db postId userId) = db
   /\ Reply.status (snd (deletePost now generated db postId userId)) <> 200)
  \/ exists id post requester,
       newObjectId postId = Ok id
       /\ findById db id = Some post
       /\ Post.isDeleted post = false
       /\ constructObjectId generated userId = Ok requester
       /\ User.id (Post.user post) = requester
       /\ deletePost now generated db postId userId
          = (save (markDeleted post now) db,
             {| Reply.status := 200; Reply.body := MessageBody "Post deleted successfully" |}).
Proof.
  unfold deletePost.
  destruct (newObjectId postId) as [id|] eqn:Hid; cbn [bind];
    [|left; split; [reflexivity|discriminate]].
  destruct (findById db id) as [post|] eqn:Hfind;
    [|left; split; [reflexivity|discriminate]].
  destruct (Post.isDeleted post) eqn:Hdel; [left; split; [reflexivity|discriminate]|].
  destruct (constructObjectId generated userId) as [requester|] eqn:Hr; cbn [bind];
    [|left; split; [reflexivity|discriminate]].
  destruct (User.id (Post.user post) =? requester) eqn:Hown; cbn [negb];
    [|left; split; [reflexivity|discriminate]].
  right. exists id, post, requester. apply Z.eqb_eq in Hown. repeat split; auto.
Qed.

Lemma createPost_cases (contentAccepted : string -> bool) (now generated : Z)
      (db : list Post.t) (body : NewPost.t) :
  (fst (createPost contentAccepted now generated db body) = db
   /\ Reply.status (snd (createPost contentAccepted now generated db body)) <> 201)
  \/ exists userId,
       falsy (NewPost.content body) = false /\ falsy (NewPost.userId body) = false
       /\ falsy (NewPost.username body) = false /\ falsy (NewPost.displayName body) = false
       /\ newObjectId (text (NewPost.userId body)) = Ok userId
       /\ contentAccepted (text (NewPost.content body)) = true
       /\ ~ In generated (map Post._id db)
       /\ let post :=
            {| Post._id := generated;
               Post.content := text (NewPost.content body);
               Post.user :=
                 {| User.id := userId;
                    User.username := text (NewPost.username body);
                    User.displayName := text (NewPost.displayName body);
                    User.avatar := NewPost.avatar body |};
               Post.likes := {| Likes.count := 0; Likes.userIds := [] |};
               Post.createdAt := now;
               Post.updatedAt := now;
               Post.isDeleted := false |} in
          createPost contentAccepted now generated db body
          = (db ++ [post],
             {| Reply.status := 201;
                Reply.body :=
                  CreatedBody generated (Post.content post) (Post.user post)
                              (Post.likes post) now |}).
Proof.
  unfold createPost.
  destruct (falsy (NewPost.content body)) eqn:H1; cbn [orb];
    [left; split; [reflexivity|discriminate]|].
  destruct (falsy (NewPost.userId body)) eqn:H2; cbn [orb];
    [left; split; [reflexivity|discriminate]|].
  destruct (falsy (NewPost.username body)) eqn:H3; cbn [orb];
    [left; split; [reflexivity|discriminate]|].
  destruct (falsy (NewPost.displayName body)) eqn:H4; cbn [orb];
    [left; split; [reflexivity|discriminate]|].
  destruct (newObjectId (text (NewPost.userId body))) as [userId|] eqn:Hu; cbn [bind];
    [|left; split; [reflexivity|discriminate]].
  cbn [Post.content].
  destruct (contentAccepted (text (NewPost.content body))) eqn:Hc; cbn [negb];
    [|left; split; [reflexivity|discriminate]].
  destruct (existsb (fun p => Post._id p =? generated) db) eqn:Hdup;
    [left; split; [reflexivity|discriminate]|].
  right. exists userId. repeat split; auto.
  intros Hin. apply in_map_iff in Hin. destruct Hin as (p & Hp & Hin).
  assert (existsb (fun p => Post._id p =? generated) db = true).
  { apply existsb_exists. exists p. split; [exact Hin|]. now apply Z.eqb_eq. }
  congruence.
Qed.

(** ** Likes *)

Lemma existsb_eqb_In (u : Z) (ids : list Z) :
  existsb (fun id => id =? u) ids = true <-> In u ids.
Proof.
  rewrite existsb_exists. split.
  - intros (x & Hin & Hx). apply Z.eqb_eq in Hx. now subst.
  - intros Hin. exists u. split; [exact Hin|apply Z.eqb_refl].
Qed.

Lemma filter_other_absent (u : Z) (ids : list Z) :
  ~ In u ids -> filter (fun id => negb (id =? u)) ids = ids.
Proof.
  induction ids as [|x ids IH]; cbn [filter]; [reflexivity|].
  intros Hn. destruct (Z.eqb_spec x u) as [->|Hne]; cbn [negb].
  - exfalso. apply Hn. now left.
  - f_equal. apply IH. intros Hin. apply Hn. now right.
Qed.

Lemma length_filter_other (u : Z) (ids : list Z) :
  NoDup ids -> In u ids ->
  S (List.length (filter (fun id => negb (id =? u)) ids)) = List.length ids.
Proof.
  induction 1 as [|x ids Hx Hnd IH]; intros Hin; [destruct Hin|].
  cbn [filter List.length]. destruct (Z.eqb_spec x u) as [->|Hne]; cbn [negb].
  - rewrite filter_other_absent by exact Hx. lia.
  - destruct Hin as [Hin|Hin]; [congruence|]. cbn [List.length]. specialize (IH Hin). lia.
Qed.

Lemma toggleLike_consistent (likes : Likes.t) (u : Z) :
  Likes.count likes = Z.of_nat (List.length (Likes.userIds likes)) ->
  NoDup (Likes.userIds likes) ->
  Likes.count (toggleLike likes u)
  = Z.of_nat (List.length (Likes.userIds (toggleLike likes u)))
  /\ NoDup (Likes.userIds (toggleLike likes u)).
Proof.
  intros Hc Hnd. unfold toggleLike.
  destruct (existsb (fun id => id =? u) (Likes.userIds likes)) eqn:E;
    cbn [Likes.count Likes.userIds].
  - apply existsb_eqb_In in E. pose proof (length_filter_other u _ Hnd E) as Hl.
    split; [lia|]. now apply NoDup_filter.
  - assert (Hn : ~ In u (Likes.userIds likes)).
    { intros Hin. apply existsb_eqb_In in Hin. congruence. }
    rewrite length_app. cbn [List.length]. split; [lia|].
    apply NoDup_app; [exact Hnd | repeat constructor; intros [] | ].
    intros x Hx [<-|[]]. contradiction.
Qed.

(** X1. Every route that writes keeps, for every stored post, the like
    count equal to the number of its likers and the likers pairwise
    distinct. *)
Theorem likes_stay_consistent (contentAccepted : string -> bool) (now generated : Z)
        (db : list Post.t) (postId : string) (userId : BodyValue) (body : NewPost.t) :
  Forall likesConsistent db ->
  Forall likesConsistent (fst (likePost now generated db postId userId))
  /\ Forall likesConsistent (fst (deletePost now generated db postId userId))
  /\ Forall likesConsistent (fst (createPost contentAccepted now generated db body)).
Proof.
  intros Hall. split; [|split].
  - destruct (likePost_cases now generated db postId userId)
      as [[-> _]|(id & post & u & _ & Hfind & _ & _ & _ & ->)]; [exact Hall|].
    cbn [fst]. apply Forall_save; [exact Hall|].
    apply findById_In in Hfind. destruct Hfind as [Hin _].
    rewrite Forall_forall in Hall. destruct (Hall post Hin) as [Hc Hnd].
    unfold likesConsistent. cbn [withLikes Post.likes].
    now apply toggleLike_consistent.
  - destruct (deletePost_cases now generated db postId userId)
      as [[-> _]|(id & post & r & _ & Hfind & _ & _ & _ & ->)]; [exact Hall|].
    cbn [fst]. apply Forall_save; [exact Hall|].
    apply findById_In in Hfind. destruct Hfind as [Hin _].
    rewrite Forall_forall in Hall. exact (Hall post Hin).
  - destruct (createPost_cases contentAccepted now generated db body)
      as [[-> _]|(u & _ & _ & _ & _ & _ & _ & _ & H)]; [exact Hall|].
    cbv zeta in H. rewrite H. cbn [fst]. apply Forall_app. split; [exact Hall|].
    constructor; [|constructor]. split; [reflexivity|constructor].
Qed.

(** X2. No route revives or touches a deleted post: a document that is
    deleted stays in its place, unchanged, through every like, delete and
    create request. *)
Theorem deleted_posts_are_frozen (contentAccepted : string -> bool) (now generated : Z)
        (db : list Post.t) (postId : string) (userId : BodyValue) (body : NewPost.t)
        (k : nat) (p : Post.t) :
  nth_error db k = Some p -> Post.isDeleted p = true ->
  nth_error (fst (likePost now generated db postId userId)) k = Some p
  /\ nth_error (fst (deletePost now generated db postId userId)) k = Some p
  /\ nth_error (fst (createPost contentAccepted now generated db body)) k = Some p.
Proof.
  intros Hk Hdel. split; [|split].
  - destruct (likePost_cases now generated db postId userId)
      as [[-> _]|(id & post & u & _ & Hfind & Hlive & _ & _ & ->)]; [exact Hk|].
    cbn [fst]. pose proof (findById_In _ _ _ Hfind) as [_ Hid].
    apply nth_error_save with (p := post);
      [cbn [withLikes Post._id]; now rewrite Hid | exact Hk | congruence].
  - destruct (deletePost_cases now generated db postId userId)
      as [[-> _]|(id & post & r & _ & Hfind & Hlive & _ & _ & ->)]; [exact Hk|].
    cbn [fst]. pose proof (findById_In _ _ _ Hfind) as [_ Hid].
    apply nth_error_save with (p := post);
      [cbn [markDeleted Post._id]; now rewrite Hid | exact Hk | congruence].
  - destruct (createPost_cases contentAccepted now generated db body)
      as [[-> _]|(u & _ & _ & _ & _ & _ & _ & _ & H)]; [exact Hk|].
    cbv zeta in H. rewrite H. cbn [fst].
    rewrite nth_error_app1; [exact Hk|]. apply nth_error_Some. congruence.
Qed.

(** X3. The identifiers of the stored posts stay pairwise distinct: like
    and delete keep the list of identifiers as it is, and create adds the
    generated identifier only when no stored post has it. *)
Theorem ids_stay_unique (contentAccepted : string -> bool) (now generated : Z)
        (db : list Post.t) (postId : string) (userId : BodyValue) (body : NewPost.t) :
  map Post._id (fst (likePost now generated db postId userId)) = map Post._id db
  /\ map Post._id (fst (deletePost now generated db postId userId)) = map Post._id db
  /\ (NoDup (map Post._id db) ->
      NoDup (map Post._id (fst (createPost contentAccepted now generated db body)))).
Proof.
  split; [|split].
  - destruct (likePost_cases now generated db postId userId)
      as [[-> _]|(id & post & u & _ & Hfind & _ & _ & _ & ->)]; [reflexivity|].
    cbn [fst]. pose proof (findById_In _ _ _ Hfind) as [_ Hid].
    apply map_save with (p := post); [cbn [withLikes Post._id]; now rewrite Hid|reflexivity].
  - destruct (deletePost_cases now generated db postId userId)
      as [[-> _]|(id & post & r & _ & Hfind & _ & _ & _ & ->)]; [reflexivity|].
    cbn [fst]. pose proof (findById_In _ _ _ Hfind) as [_ Hid].
    apply map_save with (p := post); [cbn [markDeleted Post._id]; now rewrite Hid|reflexivity].
  - intros Hnd.
    destruct (createPost_cases contentAccepted now generated db body)
      as [[-> _]|(u & _ & _ & _ & _ & _ & _ & Hfresh & H)]; [exact Hnd|].
    cbv zeta in H. rewrite H. cbn [fst]. rewrite map_app. cbn [map Post._id].
    apply NoDup_app; [exact Hnd | repeat constructor; intros [] |].
    intros x Hx [<-|[]]. contradiction.
Qed.

(** ** Listing a collection whose posts were relabelled *)

Section Relabel.

(** A change of the stored posts that keeps what the listing reads of
    them, the likes apart. *)
Variable f : Post.t -> Post.t.
Hypothesis f_id : forall p, Post._id (f p) = Post._id p.
Hypothesis f_createdAt : forall p, Post.createdAt (f p) = Post.createdAt p.
Hypothesis f_isDeleted : forall p, Post.isDeleted (f p) = Post.isDeleted p.
Hypothesis f_content : forall p, Post.content (f p) = Post.content p.
Hypothesis f_user : forall p, Post.user (f p) = Post.user p.

Lemma matches_relabel (q : Filter.t) (p : Post.t) : matches q (f p) = matches q p.
Proof.
  unfold matches, clauseMatches. now rewrite f_isDeleted, f_createdAt, f_id.
Qed.

Lemma precedes_relabel (spec : list (SortField * Z)) (p q : Post.t) :
  precedes spec (f p) (f q) = precedes spec p q.
Proof.
  induction spec as [|[field dir] spec IH]; [reflexivity|].
  cbn [precedes].
  assert (Hv : forall r, fieldValue field (f r) = fieldValue field r)
    by (intros r; destruct field; cbn [fieldValue]; auto).
  now rewrite !Hv, IH.
Qed.

Lemma runFind_relabel (db : list Post.t) (call : FindCall.t) :
  runFind (map f db) call = map f (runFind db call).
Proof.
  unfold runFind, applyLimit.
  assert (Hfilter : forall l, filter (matches (FindCall.filter call)) (map f l)
                              = map f (filter (matches (FindCall.filter call)) l)).
  { induction l as [|p l IH]; [reflexivity|]. cbn [map filter]. rewrite matches_relabel.
    destruct (matches _ p); cbn [map]; now rewrite IH. }
  assert (Hsort : forall l, sortBy (precedes (FindCall.sort call)) (map f l)
                            = map f (sortBy (precedes (FindCall.sort call)) l)).
  { induction l as [|x l IH]; [reflexivity|].
    cbn [map sortBy fold_right].
    fold (sortBy (precedes (FindCall.sort call)) (map f l)).
    fold (sortBy (precedes (FindCall.sort call)) l). rewrite IH.
    generalize (sortBy (precedes (FindCall.sort call)) l) as s.
    induction s as [|y s IHs]; [reflexivity|].
    cbn [map insert]. rewrite precedes_relabel.
    destruct (precedes _ x y); cbn [map]; [reflexivity|]. now rewrite IHs. }
  rewrite Hfilter, Hsort.
  destruct (FindCall.limit call =? 0); [reflexivity|]. now rewrite firstn_map.
Qed.

Lemma respond_relabel (limit : Z) (posts : list Post.t) :
  blankResponse (respond limit (map f posts)) = blankResponse (respond limit posts).
Proof.
  unfold respond. cbv zeta. rewrite length_map.
  set (hasMore := Z.of_nat (List.length posts) >? limit).
  assert (Hs : (if hasMore then sliceButLast (map f posts) else map f posts)
               = map f (if hasMore then sliceButLast posts else posts)).
  { destruct hasMore; [|reflexivity]. unfold sliceButLast.
    rewrite !removelast_firstn_length, length_map. now rewrite firstn_map. }
  rewrite Hs. generalize (if hasMore then sliceButLast posts else posts) as sliced.
  intros sliced.
  assert (Hn : makeNextCursor hasMore (map f sliced) = makeNextCursor hasMore sliced).
  { unfold makeNextCursor. rewrite length_map, nth_error_map.
    destruct (nth_error sliced (List.length sliced - 1)) as [p|]; cbn [option_map];
      [|reflexivity].
    now rewrite f_createdAt, f_id. }
  rewrite Hn. destruct (makeNextCursor hasMore sliced) as [next|]; [|reflexivity].
  unfold blankResponse. cbn [Response.body Response.status Page.posts Page.pagination].
  rewrite !length_map, !map_map. do 3 f_equal.
  apply map_ext. intros p. unfold blankLikes, transform.
  cbn [PublicPost.id PublicPost.content PublicPost.user PublicPost.createdAt].
  now rewrite f_id, f_content, f_user, f_createdAt.
Qed.

Lemma getPosts_relabel (db : list Post.t) (req : Req.t) :
  Outcome.queries (getPosts (map f db) req) = Outcome.queries (getPosts db req)
  /\ blankResponse (Outcome.response (getPosts (map f db) req))
     = blankResponse (Outcome.response (getPosts db req)).
Proof.
  unfold getPosts.
  destruct (buildQuery (Req.after req)) as [message|query]; [split; reflexivity|].
  cbv zeta. cbn [Outcome.queries Outcome.response]. split; [reflexivity|].
  now rewrite runFind_relabel, respond_relabel.
Qed.

End Relabel.

(** Two collections that agree up to likes and [updatedAt] are listed alike,
    the like counts apart. *)
Lemma getPosts_up_to_likes (db db' : list Post.t) (req : Req.t) :
  map withoutLikes db = map withoutLikes db' ->
  Outcome.queries (getPosts db req) = Outcome.queries (getPosts db' req)
  /\ blankResponse (Outcome.response (getPosts db req))
     = blankResponse (Outcome.response (getPosts db' req)).
Proof.
  intros H.
  destruct (getPosts_relabel withoutLikes ltac:(reflexivity) ltac:(reflexivity)
              ltac:(reflexivity) ltac:(reflexivity) ltac:(reflexivity) db req) as [Q R].
  destruct (getPosts_relabel withoutLikes ltac:(reflexivity) ltac:(reflexivity)
              ltac:(reflexivity) ltac:(reflexivity) ltac:(reflexivity) db' req) as [Q' R'].
  rewrite <- Q, <- R, <- Q', <- R', H. split; reflexivity.
Qed.

(** X4. A like request, whatever it answers, changes neither the queries
    the listing issues nor its answers, the like counts apart: the same
    posts on the same pages in the same order, with the same cursors. And of
    the stored posts it changes likes and [updatedAt] only. *)
Theorem like_leaves_listing (now generated : Z) (db : list Post.t) (postId : string)
        (userId : BodyValue) (req : Req.t) :
  map withoutLikes (fst (likePost now generated db postId userId)) = map withoutLikes db
  /\ Outcome.queries (getPosts (fst (likePost now generated db postId userId)) req)
     = Outcome.queries (getPosts db req)
  /\ blankResponse
       (Outcome.response (getPosts (fst (likePost now generated db postId userId)) req))
     = blankResponse (Outcome.response (getPosts db req)).
Proof.
  assert (H : map withoutLikes (fst (likePost now generated db postId userId))
              = map withoutLikes db).
  { destruct (likePost_cases now generated db postId userId)
      as [[-> _]|(id & post & u & _ & Hfind & _ & _ & _ & ->)]; [reflexivity|].
    cbn [fst]. pose proof (findById_In _ _ _ Hfind) as [_ Hid].
    apply map_save with (p := post); [cbn [withLikes Post._id]; now rewrite Hid|reflexivity]. }
  split; [exact H|]. now apply getPosts_up_to_likes.
Qed.

Lemma save_save (db : list Post.t) (post post' : Post.t) :
  Post._id post' = Post._id post -> save post' (save post db) = save post' db.
Proof.
  intros Hid. induction db as [|q db IH]; cbn [save]; [reflexivity|].
  destruct (Post._id q =? Post._id post) eqn:E.
  - cbn [save]. rewrite Hid, Z.eqb_refl, E. reflexivity.
  - cbn [save]. rewrite Hid, E. now rewrite IH.
Qed.

(** What the ObjectId constructor makes of a value that is neither absent
    nor a number does not depend on the call. *)
Lemma constructObjectId_fixed (generated generated' : Z) (userId : BodyValue) :
  (forall nonZero, userId <> Number nonZero) ->
  isFalsy userId = false ->
  constructObjectId generated' userId = constructObjectId generated userId.
Proof.
  intros Hnum Hfalsy. destruct userId as [|s|nonZero|b|read]; try reflexivity.
  - discriminate Hfalsy.
  - now contradiction (Hnum nonZero).
Qed.

(** X5. The like route is a toggle for a [userId] that is not a number.
    When a like request with such a [userId] is answered [liked: true] with
    a count of at least 1, the same request sent again is answered
    [liked: false] with that count less one, and afterwards every stored
    post has the likes it had at first; nothing but [updatedAt] has changed.
    (For a number the constructor generates another identifier at each
    request, so that the second request is the like of another user.) *)
Theorem like_twice_restores (now now' generated generated' : Z) (db : list Post.t)
        (postId : string) (userId : BodyValue) (n : Z) :
  (forall nonZero, userId <> Number nonZero) ->
  snd (likePost now generated db postId userId)
  = {| Reply.status := 200; Reply.body := LikedBody true n |} ->
  1 <= n ->
  let db1 := fst (likePost now generated db postId userId) in
  snd (likePost now' generated' db1 postId userId)
  = {| Reply.status := 200; Reply.body := LikedBody false (n - 1) |}
  /\ map Post.likes (fst (likePost now' generated' db1 postId userId)) = map Post.likes db
  /\ map withoutLikes (fst (likePost now' generated' db1 postId userId))
     = map withoutLikes db.
Proof.
  intros Hnum Hreply Hn db1.
  destruct (likePost_cases now generated db postId userId)
    as [[_ Hno]|(id & post & u & Hid & Hfind & Hlive & Hfalsy & Hu & Heq)].
  { rewrite Hreply in Hno. now contradiction Hno. }
  rewrite <- (constructObjectId_fixed generated generated' userId Hnum Hfalsy) in Hu.
  subst db1. rewrite Heq in *. cbn [fst snd] in *.
  injection Hreply as Hliked Hcount.
  apply negb_true_iff in Hliked.
  assert (Hnot : ~ In u (Likes.userIds (Post.likes post))).
  { intros Hin. apply existsb_eqb_In in Hin. congruence. }
  unfold toggleLike in Hcount |- *. rewrite Hliked in *. cbn [Likes.count] in Hcount.
  pose proof (findById_In _ _ _ Hfind) as [_ Hpid].
  set (post1 := withLikes post
                  {| Likes.count := Likes.count (Post.likes post) + 1;
                     Likes.userIds := Likes.userIds (Post.likes post) ++ [u] |} now) in *.
  assert (Hfind1 : findById (save post1 db) id = Some post1).
  { rewrite <- Hpid. change (Post._id post) with (Post._id post1).
    apply findById_save with (p := post). cbn [post1 withLikes Post._id]. now rewrite Hpid. }
  assert (Hhas : existsb (fun i => i =? u) (Likes.userIds (Post.likes post) ++ [u]) = true).
  { apply existsb_eqb_In. apply in_or_app. right. now left. }
  assert (Hfilter : filter (fun i => negb (i =? u)) (Likes.userIds (Post.likes post) ++ [u])
                    = Likes.userIds (Post.likes post)).
  { rewrite filter_app, filter_other_absent by exact Hnot.
    cbn [filter]. rewrite Z.eqb_refl. cbn [negb]. apply app_nil_r. }
  unfold likePost. rewrite Hfalsy.
  rewrite Hid. cbn [bind]. rewrite Hfind1.
  cbn [post1 withLikes Post.isDeleted Post.likes Likes.userIds Likes.count].
  rewrite Hlive, Hu. cbn [bind]. unfold toggleLike.
  cbn [Likes.userIds Likes.count]. rewrite Hhas, Hfilter. cbn [negb fst snd Likes.count].
  replace (Z.max 0 (Likes.count (Post.likes post) + 1 - 1))
    with (Likes.count (Post.likes post)) by lia.
  split; [do 2 f_equal; lia|].
  fold post1.
  set (post2 := withLikes post1 _ now').
  rewrite save_save by reflexivity.
  assert (Hfind2 : findById db (Post._id post2) = Some post)
    by (cbn [post2 post1 withLikes Post._id]; now rewrite Hpid).
  split.
  - apply map_save with (p := post); [exact Hfind2|].
    cbn [post2 post1 withLikes Post.likes]. now destruct (Post.likes post).
  - apply map_save with (p := post); [exact Hfind2|reflexivity].
Qed.

(** ** Deleting *)

(** X6. Only the author deletes a post. A delete request is answered 200
    only for a stored post that is not deleted and whose author is the
    ObjectId the constructor makes of the request's [userId]; the post is
    then stored as deleted, with everything else but [updatedAt] kept. Any
    other answer leaves the collection as it was. *)
Theorem delete_only_by_author (now generated : Z) (db : list Post.t) (postId : string)
        (userId : BodyValue) :
  (Reply.status (snd (deletePost now generated db postId userId)) = 200 ->
   exists id post,
     newObjectId postId = Ok id
     /\ findById db id = Some post
     /\ Post.isDeleted post = false
     /\ constructObjectId generated userId = Ok (User.id (Post.user post))
     /\ findById (fst (deletePost now generated db postId userId)) id
        = Some (markDeleted post now))
  /\ (Reply.status (snd (deletePost now generated db postId userId)) <> 200 ->
      fst (deletePost now generated db postId userId) = db).
Proof.
  destruct (deletePost_cases now generated db postId userId)
    as [[Hdb Hno]|(id & post & r & Hid & Hfind & Hlive & Hreq & Hown & Heq)].
  - split; [intros H; contradiction|auto].
  - rewrite Heq. cbn [fst snd Reply.status]. split; [|intros H; now contradiction H].
    intros _. exists id, post. pose proof (findById_In _ _ _ Hfind) as [_ Hpid].
    repeat split; auto.
    + now subst r.
    + rewrite <- Hpid. change (Post._id post) with (Post._id (markDeleted post now)).
      apply findById_save with (p := post). cbn [markDeleted Post._id]. now rewrite Hpid.
Qed.

(** X7. A deleted post cannot be deleted or liked again: once a delete
    request was answered 200, every later delete request and every later like
    request with a [userId] that is not falsy for the same post is answered
    404 and changes nothing. *)
Theorem deleted_post_is_not_found (now generated : Z) (db : list Post.t) (postId : string)
        (userId : BodyValue) :
  Reply.status (snd (deletePost now generated db postId userId)) = 200 ->
  let db' := fst (deletePost now generated db postId userId) in
  (forall now' generated' userId',
     deletePost now' generated' db' postId userId'
     = (db', {| Reply.status := 404; Reply.body := FailureBody "Post not found" |}))
  /\ (forall now' generated' userId',
        isFalsy userId' = false ->
        likePost now' generated' db' postId userId'
        = (db', {| Reply.status := 404; Reply.body := FailureBody "Post not found" |})).
Proof.
  intros Hok db'.
  destruct (deletePost_cases now generated db postId userId)
    as [[_ Hno]|(id & post & r & Hid & Hfind & _ & _ & _ & Heq)]; [contradiction|].
  assert (Hfind' : findById db' id = Some (markDeleted post now)).
  { unfold db'. rewrite Heq. cbn [fst].
    pose proof (findById_In _ _ _ Hfind) as [_ Hpid]. rewrite <- Hpid in Hfind |- *.
    exact (findById_save db post (markDeleted post now) Hfind). }
  split.
  - intros now' generated' userId'. unfold deletePost. rewrite Hid. cbn [bind].
    rewrite Hfind'. reflexivity.
  - intros now' generated' userId' Hne. unfold likePost. rewrite Hne.
    rewrite Hid. cbn [bind]. rewrite Hfind'. reflexivity.
Qed.

Lemma buildQuery_live (after : option string) (query : Filter.t) :
  buildQuery after = inr query -> Filter.isDeleted query = false.
Proof.
  unfold buildQuery. destruct after as [[|c r]|]; try (intros H; injection H as <-; reflexivity).
  destruct (cursorClauses _); [intros H; injection H as <-; reflexivity|discriminate].
Qed.

Lemma without_absent (id : Z) (db : list Post.t) :
  ~ In id (map Post._id db) -> without id db = db.
Proof.
  unfold without. induction db as [|p db IH]; cbn [filter map]; [reflexivity|].
  intros Hn. destruct (Z.eqb_spec (Post._id p) id) as [E|E]; cbn [negb].
  - exfalso. apply Hn. now left.
  - f_equal. apply IH. intros Hin. apply Hn. now right.
Qed.

(** For a query that asks for live posts, a collection in which a post was
    saved as deleted is the collection without that post. *)
Lemma filter_save_deleted (q : Filter.t) (db : list Post.t) (post : Post.t) :
  NoDup (map Post._id db) ->
  Filter.isDeleted q = false -> Post.isDeleted post = true ->
  filter (matches q) (save post db) = filter (matches q) (without (Post._id post) db).
Proof.
  intros Hnd Hq Hdel.
  assert (Hpost : matches q post = false)
    by (unfold matches; now rewrite Hq, Hdel).
  induction db as [|p db IH]; [reflexivity|].
  cbn [map] in Hnd. inversion Hnd as [|? ? Hnotin Hnd']; subst.
  unfold without in *. cbn [save filter].
  destruct (Z.eqb_spec (Post._id p) (Post._id post)) as [E|E]; cbn [negb filter].
  - rewrite Hpost. rewrite E in Hnotin.
    fold (without (Post._id post) db). now rewrite without_absent.
  - destruct (matches q p); [f_equal|]; now apply IH.
Qed.

(** X8. A deleted post is never listed again. After a delete request was
    answered 200 on a collection with pairwise distinct identifiers, every
    listing request is answered as on the collection without that post, and
    no page holds the post. *)
Theorem deleted_post_is_not_listed (now generated : Z) (db : list Post.t) (postId : string)
        (userId : BodyValue) :
  NoDup (map Post._id db) ->
  Reply.status (snd (deletePost now generated db postId userId)) = 200 ->
  exists id,
    newObjectId postId = Ok id
    /\ forall req,
         getPosts (fst (deletePost now generated db postId userId)) req
         = getPosts (without id db) req
         /\ forall page,
              Outcome.response (getPosts (fst (deletePost now generated db postId userId)) req)
              = {| Response.status := 200; Response.body := PageBody page |} ->
              ~ In id (map PublicPost.id (Page.posts page)).
Proof.
  intros Hnd Hok.
  destruct (deletePost_cases now generated db postId userId)
    as [[_ Hno]|(id & post & r & Hid & Hfind & Hlive & _ & _ & Heq)]; [contradiction|].
  exists id. split; [exact Hid|]. rewrite Heq. cbn [fst].
  pose proof (findById_In _ _ _ Hfind) as [_ Hpid].
  assert (Hsame : forall req, getPosts (save (markDeleted post now) db) req
                              = getPosts (without id db) req).
  { intros req. unfold getPosts.
    destruct (buildQuery (Req.after req)) as [message|query] eqn:Hb; [reflexivity|].
    cbv zeta. unfold runFind. cbn [FindCall.filter FindCall.sort FindCall.limit].
    rewrite (filter_save_deleted query db (markDeleted post now) Hnd
               (buildQuery_live _ _ Hb) eq_refl).
    cbn [markDeleted Post._id]. now rewrite Hpid. }
  intros req. split; [apply Hsame|].
  rewrite Hsame. intros page Hpage Hin.
  destruct (getPosts_page (without id db) req page Hpage) as (query & _ & _ & Hr).
  cbv zeta in Hr. destruct (respond_page _ _ _ Hr) as (Hposts & _). cbv zeta in Hposts.
  rewrite Hposts, map_map in Hin. apply in_map_iff in Hin. destruct Hin as (p & Hp & Hin).
  cbn [transform PublicPost.id] in Hp.
  assert (Hin' : In p (runFind (without id db)
                         {| FindCall.filter := query; FindCall.sort := feedOrder;
                            FindCall.limit := effectiveLimit (Req.limit req) + 1 |})).
  { destruct (_ >? _); [now apply In_removelast|exact Hin]. }
  apply In_runFind in Hin'. destruct Hin' as [Hdb _].
  unfold without in Hdb. apply filter_In in Hdb. destruct Hdb as [_ Hne].
  rewrite Hp, Z.eqb_refl in Hne. discriminate.
Qed.

(** ** Creating *)

Lemma sortBy_newest (leb : Post.t -> Post.t -> bool) (l : list Post.t) (x : Post.t) :
  Forall (fun y => leb y x = false) l ->
  sortBy leb (l ++ [x]) = x :: sortBy leb l.
Proof.
  induction 1 as [|y l Hy _ IH]; [reflexivity|].
  cbn [app sortBy fold_right]. fold (sortBy leb (l ++ [x])). fold (sortBy leb l).
  rewrite IH. cbn [insert]. now rewrite Hy.
Qed.

Lemma filter_snoc (p : Post.t -> bool) (l : list Post.t) (x : Post.t) :
  filter p (l ++ [x]) = if p x then filter p l ++ [x] else filter p l.
Proof.
  rewrite filter_app. cbn [filter]. destruct (p x); [reflexivity|apply app_nil_r].
Qed.

(** A page asked with a limit of at least 1 holds the first [limit]
    documents of what the query ranges over, and [hasMore] tells whether
    there are more. *)
Lemma respond_firstn (limit : Z) (matching : list Post.t) (page : Page.t) :
  1 <= limit ->
  respond limit (applyLimit (limit + 1) matching)
  = {| Response.status := 200; Response.body := PageBody page |} ->
  Page.posts page = map transform (firstn (Z.to_nat limit) matching)
  /\ Pagination.hasMore (Page.pagination page)
     = (limit <? Z.of_nat (List.length matching))
  /\ makeNextCursor (limit <? Z.of_nat (List.length matching))
                    (firstn (Z.to_nat limit) matching)
     = Ok (Pagination.nextCursor (Page.pagination page)).
Proof.
  intros Hl Hr. destruct (respond_page _ _ _ Hr) as (Hposts & Hmore & _ & _ & Hnext).
  cbv zeta in Hposts, Hmore, Hnext.
  unfold applyLimit in *.
  replace (limit + 1 =? 0) with false in * by (symmetry; apply Z.eqb_neq; lia).
  replace (Z.to_nat (Z.abs (limit + 1))) with (S (Z.to_nat limit)) in * by lia.
  rewrite length_firstn in *.
  destruct (Z.ltb_spec limit (Z.of_nat (List.length matching))) as [Hlt|Hge].
  - assert (E : (Z.of_nat (Nat.min (S (Z.to_nat limit)) (List.length matching)) >? limit)
                = true) by (rewrite Z.gtb_ltb; apply Z.ltb_lt; lia).
    rewrite E in *.
    assert (Hs : sliceButLast (firstn (S (Z.to_nat limit)) matching)
                 = firstn (Z.to_nat limit) matching).
    { unfold sliceButLast. rewrite removelast_firstn_length, length_firstn, firstn_firstn.
      f_equal. lia. }
    rewrite Hs in *. auto.
  - assert (E : (Z.of_nat (Nat.min (S (Z.to_nat limit)) (List.length matching)) >? limit)
                = false) by (rewrite Z.gtb_ltb; apply Z.ltb_ge; lia).
    rewrite E in *.
    rewrite firstn_all2 in Hposts, Hnext by lia.
    rewrite (firstn_all2 (n := Z.to_nat limit)) by lia. auto.
Qed.

(** X9. A new post heads the feed. When a create request is answered 201
    and every live stored post is older than the new one, the first page of
    the listing, for any limit of at least 1, begins with the post the 201
    echoed, with no likes. *)
Theorem created_post_heads_feed (contentAccepted : string -> bool) (now generated : Z)
        (db : list Post.t) (body : NewPost.t) (limit : option string)
        (id : Z) (content : string) (user : User.t) (likes : Likes.t) (createdAt : Z) :
  snd (createPost contentAccepted now generated db body)
  = {| Reply.status := 201; Reply.body := CreatedBody id content user likes createdAt |} ->
  (forall p, In p db -> Post.isDeleted p = false -> Post.createdAt p < now) ->
  1 <= effectiveLimit limit ->
  forall page,
    Outcome.response
      (getPosts (fst (createPost contentAccepted now generated db body))
         {| Req.limit := limit; Req.after := None |})
    = {| Response.status := 200; Response.body := PageBody page |} ->
    exists rest,
      Page.posts page
      = {| PublicPost.id := id; PublicPost.content := content; PublicPost.user := user;
           PublicPost.likes := {| PublicLikes.count := 0 |};
           PublicPost.createdAt := createdAt |} :: rest.
Proof.
  intros Hreply Hold Hlimit page Hpage.
  destruct (createPost_cases contentAccepted now generated db body)
    as [[_ Hno]|(u & _ & _ & _ & _ & _ & _ & _ & Heq)].
  { rewrite Hreply in Hno. now contradiction Hno. }
  cbv zeta in Heq. rewrite Heq in *. cbn [fst snd] in *.
  injection Hreply as <- <- <- <- <-.
  rewrite getPosts_first in Hpage. cbn [Outcome.response] in Hpage.
  set (post := {| Post._id := generated; Post.content := _; Post.user := _;
                  Post.likes := _; Post.createdAt := now; Post.updatedAt := now;
                  Post.isDeleted := false |}) in *.
  assert (Hfeed : feed (db ++ [post]) = post :: feed db).
  { unfold feed. rewrite filter_snoc. cbn [notDeleted post Post.isDeleted negb].
    apply sortBy_newest. apply Forall_forall. intros y Hy.
    apply filter_In in Hy. destruct Hy as [Hy Hlive].
    unfold notDeleted in Hlive. apply negb_true_iff in Hlive.
    specialize (Hold y Hy Hlive). rewrite feedOrder_precedes. cbn [post Post.createdAt].
    replace (Post.createdAt y =? now) with false by (symmetry; apply Z.eqb_neq; lia).
    apply Z.ltb_ge. lia. }
  rewrite Hfeed in Hpage.
  destruct (respond_firstn _ _ _ Hlimit Hpage) as (Hposts & _).
  replace (Z.to_nat (effectiveLimit limit)) with (S (Z.to_nat (effectiveLimit limit - 1)))
    in Hposts by lia.
  cbn [firstn map] in Hposts. rewrite Hposts. eexists. reflexivity.
Qed.

Lemma getPosts_position (db : list Post.t) (limit : option string) (c i : Z) (token : string) :
  validObjectId i ->
  encodeCursor c i = Ok token ->
  getPosts db {| Req.limit := limit; Req.after := Some token |}
  = {| Outcome.queries :=
         [ {| FindCall.filter :=
                {| Filter.isDeleted := false; Filter.or_ := Some (positionClauses c i) |};
              FindCall.sort := feedOrder;
              FindCall.limit := effectiveLimit limit + 1 |} ];
       Outcome.response :=
         respond (effectiveLimit limit)
           (applyLimit (effectiveLimit limit + 1) (filter (afterCursor c i) (feed db))) |}.
Proof.
  intros Hi Henc. unfold getPosts. cbn [Req.limit Req.after].
  rewrite (buildQuery_token _ _ _ Hi Henc). now rewrite runFind_position.
Qed.

(** X10. A post created while a client pages through the feed does not
    disturb the walk: for a cursor whose position is older than the clock of
    the create request, the listing answers after the request as it did
    before, whatever the request was answered. *)
Theorem created_post_is_invisible_to_walk (contentAccepted : string -> bool)
        (now generated : Z) (db : list Post.t) (body : NewPost.t)
        (limit : option string) (c i : Z) (token : string) :
  validObjectId i ->
  encodeCursor c i = Ok token ->
  c < now ->
  getPosts (fst (createPost contentAccepted now generated db body))
    {| Req.limit := limit; Req.after := Some token |}
  = getPosts db {| Req.limit := limit; Req.after := Some token |}.
Proof.
  intros Hi Henc Hc.
  destruct (createPost_cases contentAccepted now generated db body)
    as [[-> _]|(u & _ & _ & _ & _ & _ & _ & _ & Heq)]; [reflexivity|].
  cbv zeta in Heq. rewrite Heq. cbn [fst].
  rewrite !(getPosts_position _ _ _ _ _ Hi Henc). do 3 f_equal.
  unfold feed. rewrite filter_snoc. cbn [notDeleted Post.isDeleted negb].
  rewrite <- !sortBy_filter by (exact feedOrder_total || exact feedOrder_trans).
  f_equal. rewrite filter_snoc.
  unfold afterCursor at 1. cbn [Post.createdAt].
  replace (now <? c) with false by (symmetry; apply Z.ltb_ge; lia).
  replace (now =? c) with false by (symmetry; apply Z.eqb_neq; lia).
  reflexivity.
Qed.

(** * More on the listing *)

(** X11. A cursor is a position, not a reference to a post. For the token of
    any valid position [(c, i)], whether or not a stored post has it, a page
    asked with a limit of at least 1 holds the first [limit] live posts
    strictly after the position in feed order; [hasMore] tells whether more
    of them remain. *)
Theorem page_after_position (db : list Post.t) (limit : option string) (c i : Z)
        (token : string) (page : Page.t) :
  validObjectId i ->
  encodeCursor c i = Ok token ->
  1 <= effectiveLimit limit ->
  Outcome.response (getPosts db {| Req.limit := limit; Req.after := Some token |})
  = {| Response.status := 200; Response.body := PageBody page |} ->
  Page.posts page
  = map transform
      (firstn (Z.to_nat (effectiveLimit limit)) (filter (afterCursor c i) (feed db)))
  /\ Pagination.hasMore (Page.pagination page)
     = (effectiveLimit limit <? Z.of_nat (List.length (filter (afterCursor c i) (feed db))))
  /\ Forall (fun post => PublicPost.createdAt post < c
                         \/ (PublicPost.createdAt post = c /\ PublicPost.id post < i))
            (Page.posts page).
Proof.
  intros Hi Henc Hlimit Hpage.
  rewrite (getPosts_position _ _ _ _ _ Hi Henc) in Hpage. cbn [Outcome.response] in Hpage.
  destruct (respond_firstn _ _ _ Hlimit Hpage) as (Hposts & Hmore & _).
  split; [exact Hposts|]. split; [exact Hmore|].
  rewrite Hposts. apply Forall_map. apply Forall_forall. intros p Hp.
  apply In_firstn_list in Hp. apply filter_In in Hp. destruct Hp as [_ Hp].
  now apply afterCursor_spec in Hp.
Qed.

Lemma applyLimit_firstn (n : Z) (l : list Post.t) :
  exists m, applyLimit n l = firstn m l.
Proof.
  unfold applyLimit. destruct (n =? 0); [|now eexists].
  exists (List.length l). now rewrite firstn_all.
Qed.

Lemma StronglySorted_firstn {A : Type} (R : A -> A -> Prop) (n : nat) (l : list A) :
  StronglySorted R l -> StronglySorted R (firstn n l).
Proof.
  intros H. revert n. induction H as [|x l Hs IH Hx]; intros [|n]; cbn [firstn];
    try constructor; [apply IH|].
  apply Forall_forall. intros y Hy. apply In_firstn_list in Hy.
  revert y Hy. now apply Forall_forall.
Qed.

Lemma NoDup_firstn {A : Type} (n : nat) (l : list A) : NoDup l -> NoDup (firstn n l).
Proof.
  intros H. rewrite <- (firstn_skipn n l) in H. now apply NoDup_app_remove_r in H.
Qed.

Lemma NoDup_ids_filter (keep : Post.t -> bool) (db : list Post.t) :
  NoDup (map Post._id db) -> NoDup (map Post._id (filter keep db)).
Proof.
  intros Hnd. induction db as [|post db IH]; cbn [map filter] in *; [exact Hnd|].
  apply NoDup_cons_iff in Hnd. destruct Hnd as [Hfresh Hnd].
  destruct (keep post); [|now apply IH]. cbn [map].
  apply NoDup_cons; [|now apply IH].
  rewrite in_map_iff. intros (q & Hq & Hin). apply filter_In in Hin.
  apply Hfresh. rewrite in_map_iff. exists q. tauto.
Qed.

Lemma feedOrder_precedes_spec (p q : Post.t) :
  precedes feedOrder p q = true <->
  Post.createdAt q < Post.createdAt p
  \/ (Post.createdAt q = Post.createdAt p /\ Post._id q <= Post._id p).
Proof.
  rewrite feedOrder_precedes.
  destruct (Z.eqb_spec (Post.createdAt p) (Post.createdAt q)) as [E|E].
  - destruct (Z.eqb_spec (Post._id p) (Post._id q)) as [F|F].
    + split; [intros _; right; lia|reflexivity].
    + rewrite Z.ltb_lt. lia.
  - rewrite Z.ltb_lt. lia.
Qed.

(** X12. Every page is in feed order, newest first and among equal dates
    the larger identifier first; and when the stored identifiers are
    pairwise distinct no page holds a post twice. This holds for every
    request, whatever its limit and cursor. *)
Theorem page_is_ordered (db : list Post.t) (req : Req.t) (page : Page.t) :
  Outcome.response (getPosts db req)
  = {| Response.status := 200; Response.body := PageBody page |} ->
  StronglySorted
    (fun a b => PublicPost.createdAt b < PublicPost.createdAt a
                \/ (PublicPost.createdAt b = PublicPost.createdAt a
                    /\ PublicPost.id b <= PublicPost.id a))
    (Page.posts page)
  /\ (NoDup (map Post._id db) -> NoDup (map PublicPost.id (Page.posts page))).
Proof.
  intros Hpage.
  destruct (getPosts_page db req page Hpage) as (query & _ & _ & Hr). cbv zeta in Hr.
  destruct (respond_page _ _ _ Hr) as (Hposts & _). cbv zeta in Hposts.
  set (call := {| FindCall.filter := query; FindCall.sort := feedOrder;
                  FindCall.limit := effectiveLimit (Req.limit req) + 1 |}) in *.
  assert (Hsliced : exists n,
             (if Z.of_nat (List.length (runFind db call)) >? effectiveLimit (Req.limit req)
              then sliceButLast (runFind db call) else runFind db call)
             = firstn n (sortBy (precedes feedOrder) (filter (matches query) db))).
  { unfold runFind. cbn [call FindCall.filter FindCall.sort FindCall.limit].
    destruct (applyLimit_firstn (effectiveLimit (Req.limit req) + 1)
                (sortBy (precedes feedOrder) (filter (matches query) db))) as [m ->].
    match goal with |- context [if ?b then _ else _] => destruct b end;
      [|now exists m].
    unfold sliceButLast. rewrite removelast_firstn_length, firstn_firstn.
    now eexists. }
  destruct Hsliced as [n Hsliced]. rewrite Hsliced in Hposts. rewrite Hposts.
  split.
  - apply StronglySorted_map. apply StronglySorted_firstn.
    eapply StronglySorted_ind with (P := StronglySorted _);
      [constructor | | apply (sortBy_sorted (precedes feedOrder)
                                feedOrder_total feedOrder_trans)].
    intros a l _ IH Ha. constructor; [exact IH|].
    eapply Forall_impl; [|exact Ha]. intros b Hb. cbv beta in Hb.
    apply feedOrder_precedes_spec in Hb. exact Hb.
  - intros Hnd. rewrite map_map. cbn [transform PublicPost.id].
    rewrite <- firstn_map. apply NoDup_firstn.
    eapply Permutation_NoDup;
      [apply Permutation_map; symmetry; apply sortBy_perm|].
    now apply NoDup_ids_filter.
Qed.

Lemma respond_valid (limit : Z) (posts : list Post.t) :
  Forall (fun p => validDate (Post.createdAt p)) posts ->
  exists page,
    respond limit posts = {| Response.status := 200; Response.body := PageBody page |}.
Proof.
  intros Hall. unfold respond. cbv zeta.
  set (hasMore := Z.of_nat (List.length posts) >? limit).
  set (sliced := if hasMore then sliceButLast posts else posts).
  assert (Hs : Forall (fun p => validDate (Post.createdAt p)) sliced).
  { subst sliced. destruct hasMore; [|exact Hall].
    apply Forall_forall. intros p Hp. apply In_removelast in Hp.
    revert p Hp. now apply Forall_forall. }
  unfold makeNextCursor.
  destruct (hasMore && (0 <? Z.of_nat (List.length sliced))) eqn:E; [|eauto].
  destruct (nth_error sliced (List.length sliced - 1)) as [p|] eqn:Hn.
  - apply nth_error_In in Hn. rewrite Forall_forall in Hs.
    destruct (encodeCursor_valid _ (Post._id p) (Hs p Hn)) as [token ->].
    cbn [bind]. eauto.
  - apply andb_true_iff in E. destruct E as [_ E]. apply Z.ltb_lt in E.
    apply nth_error_None in Hn. lia.
Qed.


(** X14. No page holds more than 50 posts, nor more than the limit asked
    for, when the limit does not parse to a negative number. *)
Theorem page_holds_at_most_50 (db : list Post.t) (req : Req.t) (page : Page.t) :
  (forall n, parseInt (toString (Req.limit req)) = Some n -> 0 <= n) ->
  Outcome.response (getPosts db req)
  = {| Response.status := 200; Response.body := PageBody page |} ->
  Z.of_nat (List.length (Page.posts page)) <= 50
  /\ Pagination.count (Page.pagination page) <= 50
  /\ (forall n, parseInt (toString (Req.limit req)) = Some n -> 1 <= n ->
      Z.of_nat (List.length (Page.posts page)) <= n).
Proof.
  intros Hn Hpage.
  pose proof (effectiveLimit_not_negative (Req.limit req)) as He.
  pose proof (effectiveLimit_le_50 (Req.limit req)) as H50.
  assert (Hlimit : 1 <= effectiveLimit (Req.limit req)).
  { destruct (parseInt (toString (Req.limit req))) as [n|] eqn:E; [|lia].
    apply He. now apply Hn. }
  destruct (page_invariants db req page Hpage Hlimit)
    as (call & _ & _ & Hl & Hlen & Hcount & _).
  rewrite Hcount. split; [lia|]. split; [lia|].
  intros n Hp H1. rewrite Hl in Hlen.
  assert (effectiveLimit (Req.limit req) <= n); [|lia].
  unfold effectiveLimit. rewrite Hp. destruct n; cbn [orElse]; lia.
Qed.

Lemma split_first (sep : ascii) (a rest : string) :
  allChars (notSep sep) a = true ->
  split sep (a ++ String sep rest) = a :: split sep rest.
Proof.
  intros Ha. induction a as [|c a IH]; simpl.
  - now rewrite Ascii.eqb_refl.
  - simpl in Ha. apply andb_true_iff in Ha. destruct Ha as [Hc Ha].
    unfold notSep in Hc. apply negb_true_iff in Hc. rewrite Hc.
    now rewrite IH.
Qed.

(** X15. What follows a second separator in a token is ignored: a token
    made as [encodeCursor] makes it, but with a separator and any text added
    after the identifier, decodes to the same position. Tokens are not the
    only names of their positions. *)
Theorem cursor_tail_is_ignored (createdAt id : Z) (iso tail : string) :
  validObjectId id ->
  toISOString createdAt = Ok iso ->
  decodeCursor (base64Encode (iso ++ "|" ++ toHexString id ++ "|" ++ tail))
  = Ok {| Cursor.createdAt := createdAt; Cursor.id := toHexString id |}.
Proof.
  intros Hid Hiso.
  destruct (toISOString_shape _ _ Hiso) as [Hsep (c & rest & Hc)].
  pose proof (parseIsoDateTime_toISOString _ _ Hiso) as Hdate.
  pose proof (newObjectId_toHexString id Hid) as Hnew.
  pose proof (toHexString_notSep id) as Hsep'.
  destruct (toHexString_nonempty id) as (c' & rest' & Hhex).
  unfold decodeCursor. rewrite base64_roundtrip.
  change ("|" ++ toHexString id ++ "|" ++ tail)%string
    with (String "|" (toHexString id ++ String "|" tail)).
  rewrite split_first by assumption. rewrite split_first by assumption.
  rewrite Hhex in *. subst iso. cbn [nth_error].
  unfold newDate. rewrite Hdate. unfold isValid. rewrite Hnew. reflexivity.
Qed.

(** * Reading the whole feed *)

Lemma In_feed (db : list Post.t) (p : Post.t) :
  In p (feed db) -> In p db /\ Post.isDeleted p = false.
Proof.
  unfold feed. intros H. apply (Permutation_in _ (sortBy_perm _ _)) in H.
  apply filter_In in H. destruct H as [Hin Hl]. split; [exact Hin|].
  unfold notDeleted in Hl. now destruct (Post.isDeleted p).
Qed.

Lemma readFeed_rest (db : list Post.t) (limit : option string) :
  NoDup (map sortKey (filter notDeleted db)) ->
  (forall p, In p db -> Post.isDeleted p = false ->
             validDate (Post.createdAt p) /\ validObjectId (Post._id p)) ->
  1 <= effectiveLimit limit ->
  forall (fuel : nat) (before rest : list Post.t) (after : option string),
    feed db = before ++ rest ->
    (List.length rest < fuel)%nat ->
    Outcome.response (getPosts db {| Req.limit := limit; Req.after := after |})
    = respond (effectiveLimit limit) (applyLimit (effectiveLimit limit + 1) rest) ->
    readFeed fuel db limit after = Some (map transform rest).
Proof.
  intros Hnd Hvalid Hlimit.
  induction fuel as [|fuel IH]; intros before rest after Hfeed Hfuel Hresp; [lia|].
  cbn [readFeed]. rewrite Hresp.
  assert (Hrest : Forall (fun p => validDate (Post.createdAt p))
                         (applyLimit (effectiveLimit limit + 1) rest)).
  { apply Forall_forall. intros p Hp. apply In_applyLimit in Hp.
    assert (Hin : In p (feed db)) by (rewrite Hfeed; apply in_or_app; now right).
    apply In_feed in Hin. destruct Hin as [Hin Hl]. now apply Hvalid. }
  destruct (respond_valid (effectiveLimit limit) _ Hrest) as [page Hpage].
  rewrite Hpage. cbn [Response.body].
  destruct (respond_firstn _ _ _ Hlimit Hpage) as (Hposts & Hmore & Hnext).
  set (n := Z.to_nat (effectiveLimit limit)) in *.
  destruct (Z.ltb_spec (effectiveLimit limit) (Z.of_nat (List.length rest))) as [Hlt|Hge].
  - apply makeNextCursor_spec in Hnext.
    assert (Hne : firstn n rest <> []).
    { intros E. apply (f_equal (@List.length _)) in E.
      rewrite length_firstn in E. cbn [List.length] in E. lia. }
    destruct (exists_last Hne) as (front & x & Hfront).
    rewrite Hfront, lastOf_snoc in Hnext. destruct Hnext as (token & Henc & ->).
    assert (Hsplit : rest = front ++ x :: skipn n rest).
    { rewrite <- (firstn_skipn n rest) at 1. rewrite Hfront, <- app_assoc. reflexivity. }
    assert (Hfeed' : feed db = (before ++ front) ++ x :: skipn n rest).
    { rewrite <- app_assoc, <- Hsplit. exact Hfeed. }
    assert (Hx : validObjectId (Post._id x)).
    { assert (Hin : In x (feed db)) by (rewrite Hfeed'; apply in_elt).
      apply In_feed in Hin. destruct Hin as [Hin Hl]. now apply Hvalid. }
    rewrite (IH (before ++ front ++ [x]) (skipn n rest) (Some token)).
    + cbn [option_map]. rewrite Hposts, Hfront, <- map_app, <- Hfront.
      now rewrite firstn_skipn.
    + rewrite Hfeed', <- !app_assoc. reflexivity.
    + rewrite length_skipn. lia.
    + now rewrite (getPosts_after db limit x _ _ token Hnd Hfeed' Hx Henc).
  - cbn [makeNextCursor andb] in Hnext. apply Ok_inj in Hnext. rewrite <- Hnext.
    rewrite Hposts, firstn_all2 by lia. reflexivity.
Qed.

(** X16. Following [nextCursor] from the first page reads the whole feed,
    whatever the collection and the page size. When the live posts carry
    valid dates and identifiers and no two of them share both, and the
    limit in force is at least 1, a client that keeps asking until a page
    comes without [nextCursor] receives, put end to end, exactly the live
    posts in feed order, each once; one request more than there are live
    posts is always enough. *)
Theorem whole_feed_is_read (db : list Post.t) (limit : option string) (fuel : nat) :
  NoDup (map sortKey (filter notDeleted db)) ->
  (forall p, In p db -> Post.isDeleted p = false ->
             validDate (Post.createdAt p) /\ validObjectId (Post._id p)) ->
  1 <= effectiveLimit limit ->
  (List.length (feed db) < fuel)%nat ->
  readFeed fuel db limit None = Some (map transform (feed db)).
Proof.
  intros Hnd Hvalid Hlimit Hfuel.
  apply (readFeed_rest db limit Hnd Hvalid Hlimit fuel [] (feed db) None);
    [reflexivity | exact Hfuel |].
  now rewrite getPosts_first.
Qed.

(** * The answers of the routes that write *)

(** X17. The answer of the like route tells the state it left: after a
    request answered 200 the post is stored with the user, the ObjectId the
    constructor made of [userId], among its likers exactly when the answer
    says [liked: true], and with the like count the answer gives. *)
Theorem like_answer_is_truthful (now generated : Z) (db : list Post.t) (postId : string)
        (userId : BodyValue) (liked : bool) (likesCount : Z) :
  snd (likePost now generated db postId userId)
  = {| Reply.status := 200; Reply.body := LikedBody liked likesCount |} ->
  exists id user post,
    newObjectId postId = Ok id
    /\ constructObjectId generated userId = Ok user
    /\ findById (fst (likePost now generated db postId userId)) id = Some post
    /\ (liked = true <-> In user (Likes.userIds (Post.likes post)))
    /\ Likes.count (Post.likes post) = likesCount.
Proof.
  intros Hans.
  destruct (likePost_cases now generated db postId userId)
    as [[_ Hst]|(id & post & u & Hid & Hfind & Hdel & Hne & Hu & Hlike)].
  - rewrite Hans in Hst. now contradiction Hst.
  - rewrite Hlike in Hans |- *. cbn [fst snd] in *.
    injection Hans as Hliked Hcount.
    pose proof (findById_In _ _ _ Hfind) as [_ Hpid].
    exists id, u, (withLikes post (toggleLike (Post.likes post) u) now).
    split; [exact Hid|]. split; [exact Hu|]. split.
    + rewrite <- Hpid in Hfind |- *.
      exact (findById_save db post (withLikes post (toggleLike (Post.likes post) u) now)
               Hfind).
    + split; [|exact Hcount].
      cbn [withLikes Post.likes]. unfold toggleLike. rewrite <- Hliked.
      destruct (existsb (fun id0 => id0 =? u) (Likes.userIds (Post.likes post))) eqn:E;
        cbn [negb Likes.userIds].
      * split; [discriminate|]. intros Hin. apply filter_In in Hin.
        destruct Hin as [_ Hin]. now rewrite Z.eqb_refl in Hin.
      * split; [|reflexivity]. intros _. apply in_or_app. right. now left.
Qed.

(** X18. A write that is not answered with success changes nothing: the
    like and delete routes leave the collection as it was unless they answer
    200, and the create route unless it answers 201. *)
Theorem failed_writes_change_nothing (contentAccepted : string -> bool) (now generated : Z)
        (db : list Post.t) (postId : string) (userId : BodyValue) (body : NewPost.t) :
  (Reply.status (snd (likePost now generated db postId userId)) <> 200 ->
   fst (likePost now generated db postId userId) = db)
  /\ (Reply.status (snd (deletePost now generated db postId userId)) <> 200 ->
      fst (deletePost now generated db postId userId) = db)
  /\ (Reply.status (snd (createPost contentAccepted now generated db body)) <> 201 ->
      fst (createPost contentAccepted now generated db body) = db).
Proof.
  split; [|split]; intros Hst.
  - destruct (likePost_cases now generated db postId userId) as [[E _]|H]; [exact E|].
    destruct H as (? & ? & ? & _ & _ & _ & _ & _ & H).
    rewrite H in Hst. now contradiction Hst.
  - destruct (deletePost_cases now generated db postId userId) as [[E _]|H]; [exact E|].
    destruct H as (? & ? & ? & _ & _ & _ & _ & _ & H).
    rewrite H in Hst. now contradiction Hst.
  - destruct (createPost_cases contentAccepted now generated db body) as [[E _]|H];
      [exact E|].
    destruct H as (? & _ & _ & _ & _ & _ & _ & _ & H). cbv zeta in H.
    rewrite H in Hst. now contradiction Hst.
Qed.

End Runtime.

(** * The theorems on sample data *)

(** C4 at the position [(2023-11-14T22:13:20.000Z, 3)]. *)
Lemma cursor_roundtrip_witness :
  exists token,
    encodeCursor 1700000000000 3 = Ok token
    /\ decodeCursor noLegacy noLegacy token
       = Ok {| Cursor.createdAt := 1700000000000; Cursor.id := toHexString 3 |}
    /\ newObjectId noLegacy (toHexString 3) = Ok 3
    /\ forall createdAt' id',
         validDate createdAt' -> validObjectId id' ->
         encodeCursor createdAt' id' = Ok token ->
         createdAt' = 1700000000000 /\ id' = 3.
Proof.
  apply (cursor_roundtrip noLegacy noLegacy 1700000000000 3).
  - unfold validDate, maxTimeValue. lia.
  - unfold validObjectId. lia.
Defined.

(** [parseInt] skips the white space of Unicode: [limit=%C2%A05] is the
    limit 5 and [limit=%C2%A0-1] the limit -1; U+200B is no white space. *)
Lemma limit_after_no_break_space :
  effectiveLimit (Some (noBreakSpace ++ "5")%string) = 5
  /\ effectiveLimit (Some (noBreakSpace ++ "-1")%string) = -1
  /\ isWhiteSpace 8203 = false.
Proof.
  repeat split.
Qed.

(** The base64 decoder reads a code unit by its low eight bits: the token
    with U+014D for [M] decodes to the position of [sampleCursor]. *)
Lemma cursor_read_by_low_bytes :
  codeUnits sampleCursorWide = 333 :: codeUnits (substring 1 67 sampleCursor)
  /\ decodeCursor noLegacy noLegacy sampleCursorWide
     = Ok {| Cursor.createdAt := 1700000000000; Cursor.id := toHexString 3 |}.
Proof.
  split; vm_compute; reflexivity.
Qed.



(** C2 on the three tied posts, for a request with [sampleCursor]. *)
Lemma query_predicate_witness :
  let req := {| Req.limit := Some "2"%string; Req.after := Some sampleCursor |} in
  let call := {| FindCall.filter :=
                   {| Filter.isDeleted := false;
                      Filter.or_ := Some (positionClauses 1700000000000 3) |};
                 FindCall.sort := feedOrder; FindCall.limit := 3 |} in
  In call (Outcome.queries (getPosts noLegacy noLegacy sampleTies req))
  /\ (forall p, matches (FindCall.filter call) p = true -> Post.isDeleted p = false)
  /\ (forall cursor c,
        Req.after req = Some cursor -> cursor <> EmptyString ->
        decodeCursor noLegacy noLegacy cursor = Ok c ->
        exists i,
          newObjectId noLegacy (Cursor.id c) = Ok i
          /\ forall p,
               matches (FindCall.filter call) p = true <->
               Post.isDeleted p = false
               /\ (Post.createdAt p < Cursor.createdAt c
                   \/ (Post.createdAt p = Cursor.createdAt c /\ Post._id p < i))).
Proof.
  intros req call.
  assert (H : In call (Outcome.queries (getPosts noLegacy noLegacy sampleTies req)))
    by (vm_compute; left; reflexivity).
  split; [exact H|].
  pose proof (query_predicate noLegacy noLegacy sampleTies req call H) as (H1 & H2 & _).
  split; [exact H1 | exact H2].
Defined.

(** C3 on three posts with [limit=2]: three documents are fetched, two are
    kept. *)
Lemma overfetch_and_truncate_witness :
  let db := sampleFeed 3 in
  let req := {| Req.limit := Some "2"%string; Req.after := None |} in
  exists page,
    Outcome.response (getPosts noLegacy noLegacy db req)
    = {| Response.status := 200; Response.body := PageBody page |}
    /\ exists call,
         Outcome.queries (getPosts noLegacy noLegacy db req) = [call]
         /\ FindCall.sort call = [(By_createdAt, -1); (By__id, -1)]
         /\ FindCall.limit call = 2 + 1
         /\ (Z.of_nat (List.length (runFind db call)) = 2 + 1 ->
             Pagination.hasMore (Page.pagination page) = true
             /\ Page.posts page = map transform (firstn 2 (runFind db call))).
Proof.
  intros db req.
  destruct (Outcome.response (getPosts noLegacy noLegacy db req)) as [status body] eqn:E.
  vm_compute in E. injection E as <- <-.
  eexists. split; [reflexivity|].
  destruct (overfetch_and_truncate noLegacy noLegacy db req _ eq_refl)
    as (call & Hq & Hs & Hl & _ & _ & Hfull).
  exists call. split; [exact Hq|]. split; [exact Hs|]. split; [exact Hl|].
  intros Hlen. destruct (Hfull Hlen) as (Hmore & Hposts & _). split; assumption.
Defined.

(** C10 on three posts with [limit=2]. *)
Lemma nextCursor_iff_hasMore_witness :
  let db := sampleFeed 3 in
  let req := {| Req.limit := Some "2"%string; Req.after := None |} in
  exists page,
    Outcome.response (getPosts noLegacy noLegacy db req)
    = {| Response.status := 200; Response.body := PageBody page |}
    /\ 1 <= effectiveLimit (Req.limit req)
    /\ (Pagination.nextCursor (Page.pagination page) <> None
        <-> Pagination.hasMore (Page.pagination page) = true)
    /\ (Pagination.hasMore (Page.pagination page) = false ->
        Pagination.nextCursor (Page.pagination page) = None).
Proof.
  intros db req.
  destruct (Outcome.response (getPosts noLegacy noLegacy db req)) as [status body] eqn:E.
  vm_compute in E. injection E as <- <-.
  eexists. split; [reflexivity|].
  assert (Hlimit : 1 <= effectiveLimit (Req.limit req)) by (vm_compute; discriminate).
  split; [exact Hlimit|].
  destruct (nextCursor_iff_hasMore noLegacy noLegacy db req _ eq_refl Hlimit) as (H1 & _ & H3).
  split; assumption.
Defined.

(** C8 on two collections that differ in who liked the first post. *)
Lemma liker_ids_never_exposed_witness :
  let db := [samplePost 1 1700000000000 [5; 6]; samplePost 2 1700000001000 []] in
  let db' := [samplePost 1 1700000000000 [8; 9]; samplePost 2 1700000001000 []] in
  let req := {| Req.limit := Some "1"%string; Req.after := None |} in
  map withoutLikers db = map withoutLikers db'
  /\ db <> db'
  /\ getPosts noLegacy noLegacy db req = getPosts noLegacy noLegacy db' req.
Proof.
  intros db db' req.
  assert (H : map withoutLikers db = map withoutLikers db') by reflexivity.
  split; [exact H|]. split; [discriminate|].
  exact (proj1 (liker_ids_never_exposed noLegacy noLegacy db db' req H)).
Defined.

(** C1 on 25 posts created one second apart. *)
Lemma walk_of_25_posts_witness :
  let db := sampleFeed 25 in
  exists page1 page2 page3 cursor1 cursor2,
    Outcome.response
      (getPosts noLegacy noLegacy db {| Req.limit := Some "10"%string; Req.after := None |})
    = {| Response.status := 200; Response.body := PageBody page1 |}
    /\ Pagination.nextCursor (Page.pagination page1) = Some cursor1
    /\ Outcome.response
         (getPosts noLegacy noLegacy db
            {| Req.limit := Some "10"%string; Req.after := Some cursor1 |})
       = {| Response.status := 200; Response.body := PageBody page2 |}
    /\ Pagination.nextCursor (Page.pagination page2) = Some cursor2
    /\ Outcome.response
         (getPosts noLegacy noLegacy db
            {| Req.limit := Some "10"%string; Req.after := Some cursor2 |})
       = {| Response.status := 200; Response.body := PageBody page3 |}
    /\ Page.posts page1 ++ Page.posts page2 ++ Page.posts page3 = map transform (rev db)
    /\ StronglySorted (fun a b => PublicPost.createdAt b < PublicPost.createdAt a)
                      (Page.posts page1 ++ Page.posts page2 ++ Page.posts page3)
    /\ NoDup (Page.posts page1 ++ Page.posts page2 ++ Page.posts page3)
    /\ Pagination.hasMore (Page.pagination page3) = false.
Proof.
  intros db. apply (walk_of_25_posts noLegacy noLegacy db).
  - reflexivity.
  - unfold db, sampleFeed. cbn [seq map].
    repeat (constructor;
            [unfold validDate, validObjectId, maxTimeValue; cbn; repeat split; lia|]).
    constructor.
  - unfold db, sampleFeed. cbn [seq map].
    repeat (constructor; [|try constructor; cbn; lia]). constructor.
Defined.

(** C7 on the three tied posts. *)
Lemma walk_of_3_tied_posts_witness :
  exists post1 post2 post3 cursor1 cursor2,
    Outcome.response
      (getPosts noLegacy noLegacy sampleTies
         {| Req.limit := Some "1"%string; Req.after := None |})
    = {| Response.status := 200;
         Response.body :=
           PageBody {| Page.posts := [post1];
                       Page.pagination :=
                         {| Pagination.nextCursor := Some cursor1; Pagination.hasMore := true;
                            Pagination.limit := 1; Pagination.count := 1 |} |} |}
    /\ Outcome.response
         (getPosts noLegacy noLegacy sampleTies
            {| Req.limit := Some "1"%string; Req.after := Some cursor1 |})
       = {| Response.status := 200;
            Response.body :=
              PageBody {| Page.posts := [post2];
                          Page.pagination :=
                            {| Pagination.nextCursor := Some cursor2; Pagination.hasMore := true;
                               Pagination.limit := 1; Pagination.count := 1 |} |} |}
    /\ Outcome.response
         (getPosts noLegacy noLegacy sampleTies
            {| Req.limit := Some "1"%string; Req.after := Some cursor2 |})
       = {| Response.status := 200;
            Response.body :=
              PageBody {| Page.posts := [post3];
                          Page.pagination :=
                            {| Pagination.nextCursor := None; Pagination.hasMore := false;
                               Pagination.limit := 1; Pagination.count := 1 |} |} |}
    /\ PublicPost.id post3 < PublicPost.id post2 < PublicPost.id post1
    /\ Permutation [post1; post2; post3] (map transform sampleTies).
Proof.
  apply (walk_of_3_tied_posts noLegacy noLegacy sampleTies 1700000000000).
  - reflexivity.
  - unfold validDate, maxTimeValue. lia.
  - unfold sampleTies.
    repeat (constructor; [unfold validObjectId; cbn; repeat split; lia|]). constructor.
  - unfold sampleTies. cbn [map samplePost Post._id].
    repeat (constructor; [cbn; intuition discriminate|]). constructor.
Defined.

(** X1 on the sample store: user 5 takes back a like from post 1. *)
Lemma likes_stay_consistent_witness :
  Forall likesConsistent sampleStore
  /\ Forall likesConsistent
       (fst (likePost noLegacy 1700000003000 99 sampleStore (toHexString 1)
               (Text (toHexString 5)))).
Proof.
  assert (H : Forall likesConsistent sampleStore).
  { unfold sampleStore, likesConsistent.
    repeat constructor; cbn; intuition discriminate. }
  split; [exact H|].
  exact (proj1 (likes_stay_consistent noLegacy (fun _ => true) 1700000003000 99 sampleStore
                  (toHexString 1) (Text (toHexString 5)) sampleNewPost H)).
Defined.

(** X2 on the sample store: the deleted post 2 is the target of a like and
    of a delete by its author. *)
Lemma deleted_posts_are_frozen_witness :
  let p := markDeleted (samplePost 2 1700000001000 [5]) 1700000001500 in
  nth_error sampleStore 1 = Some p
  /\ Post.isDeleted p = true
  /\ nth_error (fst (likePost noLegacy 1700000003000 99 sampleStore (toHexString 2)
                       (Text (toHexString 6)))) 1
     = Some p
  /\ nth_error (fst (deletePost noLegacy 1700000003000 99 sampleStore (toHexString 2)
                       (Text (toHexString 7)))) 1
     = Some p.
Proof.
  intros p.
  assert (H : nth_error sampleStore 1 = Some p) by reflexivity.
  assert (Hd : Post.isDeleted p = true) by reflexivity.
  split; [exact H|]. split; [exact Hd|].
  destruct (deleted_posts_are_frozen noLegacy (fun _ => true) 1700000003000 99 sampleStore
              (toHexString 2) (Text (toHexString 6)) sampleNewPost 1 p H Hd) as (Hl & _ & _).
  destruct (deleted_posts_are_frozen noLegacy (fun _ => true) 1700000003000 99 sampleStore
              (toHexString 2) (Text (toHexString 7)) sampleNewPost 1 p H Hd) as (_ & Hx & _).
  split; assumption.
Defined.

(** X5 on the sample store: user 9 likes post 1, then asks again. *)
Lemma like_twice_restores_witness :
  let like now db :=
    likePost noLegacy now 99 db (toHexString 1) (Text (toHexString 9)) in
  snd (like 1700000003000 sampleStore)
  = {| Reply.status := 200; Reply.body := LikedBody true 3 |}
  /\ snd (like 1700000004000 (fst (like 1700000003000 sampleStore)))
     = {| Reply.status := 200; Reply.body := LikedBody false 2 |}
  /\ map Post.likes (fst (like 1700000004000 (fst (like 1700000003000 sampleStore))))
     = map Post.likes sampleStore.
Proof.
  intros like.
  assert (H : snd (like 1700000003000 sampleStore)
              = {| Reply.status := 200; Reply.body := LikedBody true 3 |})
    by (vm_compute; reflexivity).
  split; [exact H|].
  destruct (like_twice_restores noLegacy 1700000003000 1700000004000 99 99 sampleStore
              (toHexString 1) (Text (toHexString 9)) 3 ltac:(discriminate) H ltac:(lia))
    as (H1 & H2 & _).
  split; [exact H1 | exact H2].
Defined.

(** X7 on the sample store: the author deletes post 3. *)
Lemma deleted_post_is_not_found_witness :
  let db' := fst (deletePost noLegacy 1700000003000 99 sampleStore (toHexString 3)
                    (Text (toHexString 7))) in
  Reply.status (snd (deletePost noLegacy 1700000003000 99 sampleStore (toHexString 3)
                       (Text (toHexString 7)))) = 200
  /\ (forall now' generated' userId',
        deletePost noLegacy now' generated' db' (toHexString 3) userId'
        = (db', {| Reply.status := 404; Reply.body := FailureBody "Post not found" |}))
  /\ (forall now' generated' userId',
        isFalsy userId' = false ->
        likePost noLegacy now' generated' db' (toHexString 3) userId'
        = (db', {| Reply.status := 404; Reply.body := FailureBody "Post not found" |})).
Proof.
  intros db'.
  assert (H : Reply.status
                (snd (deletePost noLegacy 1700000003000 99 sampleStore (toHexString 3)
                        (Text (toHexString 7)))) = 200)
    by (vm_compute; reflexivity).
  split; [exact H|].
  exact (deleted_post_is_not_found noLegacy 1700000003000 99 sampleStore (toHexString 3)
           (Text (toHexString 7)) H).
Defined.

(** X8 on the sample store: once its author has deleted post 3, no page
    holds it. *)
Lemma deleted_post_is_not_listed_witness :
  let db' := fst (deletePost noLegacy 1700000003000 99 sampleStore (toHexString 3)
                    (Text (toHexString 7))) in
  NoDup (map Post._id sampleStore)
  /\ Reply.status (snd (deletePost noLegacy 1700000003000 99 sampleStore (toHexString 3)
                          (Text (toHexString 7)))) = 200
  /\ forall req,
       getPosts noLegacy noLegacy db' req
       = getPosts noLegacy noLegacy (without 3 sampleStore) req
       /\ forall page,
            Outcome.response (getPosts noLegacy noLegacy db' req)
            = {| Response.status := 200; Response.body := PageBody page |} ->
            ~ In 3 (map PublicPost.id (Page.posts page)).
Proof.
  intros db'.
  assert (Hnd : NoDup (map Post._id sampleStore))
    by (repeat constructor; cbn; intuition discriminate).
  assert (H : Reply.status
                (snd (deletePost noLegacy 1700000003000 99 sampleStore (toHexString 3)
                        (Text (toHexString 7)))) = 200)
    by (vm_compute; reflexivity).
  split; [exact Hnd|]. split; [exact H|].
  destruct (deleted_post_is_not_listed noLegacy noLegacy 1700000003000 99 sampleStore
              (toHexString 3) (Text (toHexString 7)) Hnd H) as (id & Hid & Hall).
  vm_compute in Hid. injection Hid as <-. exact Hall.
Defined.

(** X9 on the three tied posts: a post created five seconds after them comes
    first on the first page. *)
Lemma created_post_heads_feed_witness :
  let created :=
    createPost noLegacy (fun _ => true) 1700000005000 99 sampleTies sampleNewPost in
  let user := {| User.id := 7; User.username := "ada"; User.displayName := "Ada";
                 User.avatar := None |} in
  snd created
  = {| Reply.status := 201;
       Reply.body :=
         CreatedBody 99 "hi" user {| Likes.count := 0; Likes.userIds := [] |}
                     1700000005000 |}
  /\ exists page rest,
       Outcome.response
         (getPosts noLegacy noLegacy (fst created)
            {| Req.limit := Some "2"%string; Req.after := None |})
       = {| Response.status := 200; Response.body := PageBody page |}
       /\ Page.posts page
          = {| PublicPost.id := 99; PublicPost.content := "hi"; PublicPost.user := user;
               PublicPost.likes := {| PublicLikes.count := 0 |};
               PublicPost.createdAt := 1700000005000 |} :: rest.
Proof.
  intros created user.
  assert (H : snd created
              = {| Reply.status := 201;
                   Reply.body :=
                     CreatedBody 99 "hi" user {| Likes.count := 0; Likes.userIds := [] |}
                                 1700000005000 |})
    by (vm_compute; reflexivity).
  split; [exact H|].
  destruct (Outcome.response
              (getPosts noLegacy noLegacy (fst created)
                 {| Req.limit := Some "2"%string; Req.after := None |}))
    as [status body] eqn:E.
  vm_compute in E. injection E as <- <-.
  eexists.
  assert (Hold : forall p, In p sampleTies -> Post.isDeleted p = false ->
                           Post.createdAt p < 1700000005000).
  { intros p [<-|[<-|[<-|[]]]] _; cbn; lia. }
  assert (Hlimit : 1 <= effectiveLimit (Some "2"%string)) by (vm_compute; discriminate).
  destruct (created_post_heads_feed noLegacy noLegacy (fun _ => true) 1700000005000 99
              sampleTies sampleNewPost (Some "2"%string) _ _ _ _ _ H Hold Hlimit _ eq_refl)
    as [rest Hrest].
  exists rest. split; [reflexivity | exact Hrest].
Defined.

(** X10 on the three tied posts: a walk that holds [sampleCursor] is not
    disturbed by a post created five seconds later. *)
Lemma created_post_is_invisible_to_walk_witness :
  validObjectId 3
  /\ encodeCursor 1700000000000 3 = Ok sampleCursor
  /\ getPosts noLegacy noLegacy
       (fst (createPost noLegacy (fun _ => true) 1700000005000 99 sampleTies sampleNewPost))
       {| Req.limit := Some "2"%string; Req.after := Some sampleCursor |}
     = getPosts noLegacy noLegacy sampleTies
         {| Req.limit := Some "2"%string; Req.after := Some sampleCursor |}.
Proof.
  assert (Hi : validObjectId 3) by (unfold validObjectId; lia).
  assert (He : encodeCursor 1700000000000 3 = Ok sampleCursor) by (vm_compute; reflexivity).
  split; [exact Hi|]. split; [exact He|].
  apply (created_post_is_invisible_to_walk noLegacy noLegacy (fun _ => true) 1700000005000 99
           sampleTies sampleNewPost (Some "2"%string) 1700000000000 3 sampleCursor Hi He).
  lia.
Defined.

(** X11 on the three tied posts and [sampleCursor], the position of the
    post 3: the page holds the posts 2 and 1. *)
Lemma page_after_position_witness :
  exists page,
    Outcome.response
      (getPosts noLegacy noLegacy sampleTies
         {| Req.limit := Some "2"%string; Req.after := Some sampleCursor |})
    = {| Response.status := 200; Response.body := PageBody page |}
    /\ Page.posts page
       = map transform
           (firstn 2 (filter (afterCursor 1700000000000 3) (feed sampleTies)))
    /\ Pagination.hasMore (Page.pagination page) = false.
Proof.
  destruct (Outcome.response
              (getPosts noLegacy noLegacy sampleTies
                 {| Req.limit := Some "2"%string; Req.after := Some sampleCursor |}))
    as [status body] eqn:E.
  vm_compute in E. injection E as <- <-.
  eexists. split; [reflexivity|].
  assert (Hi : validObjectId 3) by (unfold validObjectId; lia).
  assert (He : encodeCursor 1700000000000 3 = Ok sampleCursor) by (vm_compute; reflexivity).
  assert (Hlimit : 1 <= effectiveLimit (Some "2"%string)) by (vm_compute; discriminate).
  destruct (page_after_position noLegacy noLegacy sampleTies (Some "2"%string)
              1700000000000 3 sampleCursor _ Hi He Hlimit eq_refl) as (Hposts & Hmore & _).
  split; [exact Hposts | exact Hmore].
Defined.

(** X12 on the first page of the sample store. *)
Lemma page_is_ordered_witness :
  exists page,
    Outcome.response
      (getPosts noLegacy noLegacy sampleStore
         {| Req.limit := Some "5"%string; Req.after := None |})
    = {| Response.status := 200; Response.body := PageBody page |}
    /\ StronglySorted
         (fun a b => PublicPost.createdAt b < PublicPost.createdAt a
                     \/ (PublicPost.createdAt b = PublicPost.createdAt a
                         /\ PublicPost.id b <= PublicPost.id a))
         (Page.posts page)
    /\ NoDup (map PublicPost.id (Page.posts page)).
Proof.
  destruct (Outcome.response
              (getPosts noLegacy noLegacy sampleStore
                 {| Req.limit := Some "5"%string; Req.after := None |}))
    as [status body] eqn:E.
  vm_compute in E. injection E as <- <-.
  eexists. split; [reflexivity|].
  destruct (page_is_ordered noLegacy noLegacy sampleStore
              {| Req.limit := Some "5"%string; Req.after := None |} _ eq_refl) as [Hs Hn].
  split; [exact Hs|]. apply Hn. repeat constructor; cbn; intuition discriminate.
Defined.


(** X14 on five posts asked with [limit=2]. *)
Lemma page_holds_at_most_50_witness :
  exists page,
    Outcome.response
      (getPosts noLegacy noLegacy (sampleFeed 5)
         {| Req.limit := Some "2"%string; Req.after := None |})
    = {| Response.status := 200; Response.body := PageBody page |}
    /\ Z.of_nat (List.length (Page.posts page)) <= 50
    /\ Z.of_nat (List.length (Page.posts page)) <= 2.
Proof.
  destruct (Outcome.response
              (getPosts noLegacy noLegacy (sampleFeed 5)
                 {| Req.limit := Some "2"%string; Req.after := None |}))
    as [status body] eqn:E.
  vm_compute in E. injection E as <- <-.
  eexists. split; [reflexivity|].
  assert (Hn : forall n, parseInt (toString (Some "2"%string)) = Some n -> 0 <= n).
  { intros n Hp. vm_compute in Hp. injection Hp as <-. lia. }
  destruct (page_holds_at_most_50 noLegacy noLegacy (sampleFeed 5)
              {| Req.limit := Some "2"%string; Req.after := None |} _ Hn eq_refl)
    as (H50 & _ & Hlimit).
  split; [exact H50|]. apply Hlimit; [vm_compute; reflexivity | lia].
Defined.

(** X15 at the position of [sampleCursor], with the tail [junk]. *)
Lemma cursor_tail_is_ignored_witness :
  validObjectId 3
  /\ toISOString 1700000000000 = Ok "2023-11-14T22:13:20.000Z"%string
  /\ decodeCursor noLegacy noLegacy
       (base64Encode ("2023-11-14T22:13:20.000Z|000000000000000000000003|junk"))
     = Ok {| Cursor.createdAt := 1700000000000; Cursor.id := toHexString 3 |}.
Proof.
  assert (Hi : validObjectId 3) by (unfold validObjectId; lia).
  assert (Hiso : toISOString 1700000000000 = Ok "2023-11-14T22:13:20.000Z"%string)
    by (vm_compute; reflexivity).
  split; [exact Hi|]. split; [exact Hiso|].
  exact (cursor_tail_is_ignored noLegacy noLegacy 1700000000000 3 _ "junk" Hi Hiso).
Defined.

(** X16 on the sample store read one post at a time. *)
Lemma whole_feed_is_read_witness :
  readFeed noLegacy noLegacy 3 sampleStore (Some "1"%string) None
  = Some (map transform [samplePost 3 1700000002000 []; samplePost 1 1700000000000 [5; 6]]).
Proof.
  apply (whole_feed_is_read noLegacy noLegacy sampleStore (Some "1"%string) 3).
  - repeat constructor; cbn; intuition discriminate.
  - intros p [<-|[<-|[<-|[]]]] Hl; try discriminate Hl;
      unfold validDate, validObjectId, maxTimeValue; cbn; lia.
  - vm_compute. discriminate.
  - vm_compute. lia.
Defined.

(** X17 on the sample store: user 9 likes post 1. *)
Lemma like_answer_is_truthful_witness :
  let liked := likePost noLegacy 1700000003000 99 sampleStore (toHexString 1)
                 (Text (toHexString 9)) in
  snd liked = {| Reply.status := 200; Reply.body := LikedBody true 3 |}
  /\ exists post,
       findById (fst liked) 1 = Some post
       /\ In 9 (Likes.userIds (Post.likes post))
       /\ Likes.count (Post.likes post) = 3.
Proof.
  intros liked.
  assert (H : snd liked = {| Reply.status := 200; Reply.body := LikedBody true 3 |})
    by (vm_compute; reflexivity).
  split; [exact H|].
  destruct (like_answer_is_truthful noLegacy 1700000003000 99 sampleStore (toHexString 1)
              (Text (toHexString 9)) true 3 H)
    as (id & user & post & Hid & Hu & Hfind & Hin & Hcount).
  vm_compute in Hid. injection Hid as <-.
  vm_compute in Hu. injection Hu as <-.
  exists post. split; [exact Hfind|]. split; [now apply Hin | exact Hcount].
Defined.
